(** * Multi-agent research pipeline: the bounded, rate-limited control loop

    A shallow embedding of the control loop of the pipeline and of the
    machinery below it:

    - [utils/rate_limiter.py]: [TokenBucket] and [RateLimiter];
    - [agents/base_agent.py]: [BaseAgent.invoke_llm];
    - [agents/reviewer.py]: [ReviewerAgent._make_decision] and its callers;
    - [agents/supervisor.py]: [SupervisorAgent.execute] and
      [_fallback_decision];
    - [state/schemas.py] and [workflows/graph_builder.py]: the state, its
      reducers and the graph that drives the agents.

    Modelling conventions.

    - Python [int] is [Z].  Token counts and clock readings are Python
      floats used for arithmetic; they are modelled as exact rationals [Q].
      Review scores and confidences are only compared against literals, so
      they are kept as IEEE binary64 values ([PrimFloat.float]), which is
      what a Python float is.
    - [time.time()] reads a virtual clock that advances only in
      [time.sleep] and during the external model call.  Calls on a limiter
      are made one after another; threads that overlap are not modelled.
    - Mutable objects are threaded through a state monad [M]; a Python
      exception is the result [Exn], and a [while True] loop that has not
      left after the given number of rounds is the result [Spin].  The
      state reached so far is returned in all three cases.
    - The language model, the web search and the content validator are
      parameters (Section variables, collected in the record [World]):
      every theorem holds for all of them.
    - Logging is left out, and so are [datetime.now()] in messages and the
      supervisor's [decision_history], which nothing reads.  The graph is
      run as [WorkflowBuilder.build] wires it; limits that the graph
      library adds of its own are not part of the source. *)

From Stdlib Require Import ZArith QArith Qminmax List String Ascii Bool Lia Lqa.
From Stdlib Require Import PrimFloat FloatOps FloatAxioms SpecFloat DecimalString.
Import ListNotations.

Set Warnings "-inexact-float".

Local Open Scope Z_scope.

(* ================================================================== *)
(** * Part I: definitions                                              *)
(* ================================================================== *)

(** ** Results of effectful code *)

Inductive PyExn : Type :=
| ZeroDivisionError
| ValueError (msg : string)
| RuntimeError (msg : string)
| ExternalError (msg : string).

Inductive Res (A : Type) : Type :=
| Ret (a : A)
| Exn (e : PyExn)
| Spin.

Arguments Ret {A} a.
Arguments Exn {A} e.
Arguments Spin {A}.

Definition M (S A : Type) : Type := S -> Res A * S.

Definition ret {S A : Type} (a : A) : M S A := fun s => (Ret a, s).

Definition bind {S A B : Type} (m : M S A) (k : A -> M S B) : M S B :=
  fun s =>
    match m s with
    | (Ret a, s') => k a s'
    | (Exn e, s') => (Exn e, s')
    | (Spin, s') => (Spin, s')
    end.

Definition raise {S A : Type} (e : PyExn) : M S A := fun s => (Exn e, s).

Definition spin {S A : Type} : M S A := fun s => (Spin, s).

Definition get {S : Type} : M S S := fun s => (Ret s, s).

Definition put {S : Type} (s : S) : M S unit := fun _ => (Ret tt, s).

Definition modify {S : Type} (f : S -> S) : M S unit := fun s => (Ret tt, f s).

(** [try: m except Exception as e: h e]. A loop that never leaves is not
    an exception and is not caught. *)
Definition try_except {S A : Type} (m : M S A) (h : PyExn -> M S A) : M S A :=
  fun s =>
    match m s with
    | (Exn e, s') => h e s'
    | r => r
    end.

(** Run [m] on the component of the state selected by [proj], writing the
    component back with [inj]. *)
Definition zoom {S T A : Type} (proj : S -> T) (inj : T -> S -> S)
  (m : M T A) : M S A :=
  fun s => let (r, t') := m (proj s) in (r, inj t' s).

Declare Scope monad_scope.
Delimit Scope monad_scope with monad.
Notation "x <- m ;; k" := (bind m (fun x => k))
  (at level 61, m at next level, right associativity) : monad_scope.
Notation "m ;; k" := (bind m (fun _ => k))
  (at level 61, right associativity) : monad_scope.

(** ** Comparisons of rationals as the booleans Python computes *)

Definition Qlt_bool (x y : Q) : bool := negb (Qle_bool y x).

(** [timeout and (...)]: [None] and [0] are both falsy. *)
Definition truthy (timeout : option Q) : bool :=
  match timeout with
  | None => false
  | Some t => negb (Qeq_bool t 0)
  end.

(** [timeout and (elapsed > timeout)] *)
Definition timed_out (timeout : option Q) (elapsed : Q) : bool :=
  truthy timeout &&
  match timeout with
  | None => false
  | Some t => Qlt_bool t elapsed
  end.

(** ** The clock: every stateful object is paired with it *)

Definition Timed (S : Type) : Type := (Q * S)%type.

(** The clock [d] seconds later.  [Qred] writes the fraction in lowest
    terms; it does not change the number. *)
Definition later (now d : Q) : Q := Qred (now + d).

Definition time_time {S : Type} : M (Timed S) Q := fun s => (Ret (fst s), s).

(** [time.sleep(d)]; a negative length raises [ValueError]. *)
Definition time_sleep {S : Type} (d : Q) : M (Timed S) unit :=
  fun s =>
    if Qlt_bool d 0
    then (Exn (ValueError "sleep length must be non-negative"), s)
    else (Ret tt, (later (fst s) d, snd s)).

(** ** [utils/rate_limiter.py] *)

Module RateLimitConfig.

Record t : Type := mk {
  requests_per_minute : Z;
  tokens_per_minute : Z;
  max_concurrent : Z
}.

End RateLimitConfig.

Module TokenBucket.

(** The floats of the code ([tokens], [refill_rate], the readings of the
    clock) are exact rationals here: a sum of refills is exact in the
    model and rounded in the code. *)
Record t : Type := mk {
  capacity : Z;
  refill_rate : Q;
  tokens : Q;
  last_refill : Q
}.

(** [__init__]: the bucket starts full. *)
Definition init (capacity : Z) (refill_rate : Q) (now : Q) : t :=
  mk capacity refill_rate (inject_Z capacity) now.

Definition set_tokens (v : Q) (b : t) : t :=
  mk (capacity b) (refill_rate b) v (last_refill b).

(** [_refill], with [now] the reading of [time.time()].  The new count is
    stored in lowest terms ([Qred]), which does not change it. *)
Definition _refill (now : Q) (b : t) : t :=
  let elapsed := (now - last_refill b)%Q in
  let new_tokens := (elapsed * refill_rate b)%Q in
  mk (capacity b) (refill_rate b)
     (Qred (Qmin (inject_Z (capacity b)) (tokens b + new_tokens)%Q))
     now.

Definition refill : M (Timed t) unit :=
  fun s => (Ret tt, (fst s, _refill (fst s) (snd s))).

Definition consume (n : Z) : M (Timed t) bool :=
  fun s =>
    let b := _refill (fst s) (snd s) in
    if Qle_bool (inject_Z n) (tokens b)
    then (Ret true, (fst s, set_tokens (tokens b - inject_Z n)%Q b))
    else (Ret false, (fst s, b)).

(** The part of [wait_for_tokens] after a failed [consume] and a timeout
    test that did not fire: compute the wait and sleep. *)
Definition wait_step (n : Z) : M (Timed t) unit :=
  (refill ;;
   s <- get ;;
   let b := snd s in
   let deficit := (inject_Z n - tokens b)%Q in
   if Qeq_bool (refill_rate b) 0 then raise ZeroDivisionError
   else
     let wait_time := (deficit / refill_rate b)%Q in
     time_sleep (Qmin wait_time (1 # 10)))%monad.

(** The [while True] loop of [wait_for_tokens]; [fuel] bounds the number
    of rounds looked at. *)
Fixpoint wait_loop (fuel : nat) (n : Z) (timeout : option Q) (start_time : Q)
  : M (Timed t) bool :=
  match fuel with
  | O => spin
  | S fuel' =>
      (ok <- consume n ;;
       if ok : bool then ret true
       else
         now <- time_time ;;
         if timed_out timeout (now - start_time)%Q then ret false
         else (wait_step n ;; wait_loop fuel' n timeout start_time))%monad
  end.

Definition wait_for_tokens (fuel : nat) (n : Z) (timeout : option Q)
  : M (Timed t) bool :=
  (start_time <- time_time ;;
   wait_loop fuel n timeout start_time)%monad.

(** [int(self.tokens)] truncates toward zero. *)
Definition available_tokens : M (Timed t) Z :=
  (refill ;;
   s <- get ;;
   let q := tokens (snd s) in
   ret (Z.quot (Qnum q) (Zpos (Qden q))))%monad.

End TokenBucket.

Module RateLimiter.

(** An entry of [request_history]. *)
Record HistoryEntry : Type := mk_entry {
  timestamp : Q;
  estimated_tokens : Z
}.

Record t : Type := mk {
  config : RateLimitConfig.t;
  request_bucket : TokenBucket.t;
  token_bucket : TokenBucket.t;
  active_requests : Z;
  max_concurrent : Z;
  request_history : list HistoryEntry
}.

Definition init (config : RateLimitConfig.t) (now : Q) : t :=
  let rpm := RateLimitConfig.requests_per_minute config in
  let tpm := RateLimitConfig.tokens_per_minute config in
  mk config
     (TokenBucket.init rpm (inject_Z rpm / 60)%Q now)
     (TokenBucket.init tpm (inject_Z tpm / 60)%Q now)
     0
     (RateLimitConfig.max_concurrent config)
     [].

Definition set_request_bucket (b : TokenBucket.t) (r : t) : t :=
  mk (config r) b (token_bucket r) (active_requests r) (max_concurrent r)
     (request_history r).

Definition set_token_bucket (b : TokenBucket.t) (r : t) : t :=
  mk (config r) (request_bucket r) b (active_requests r) (max_concurrent r)
     (request_history r).

Definition set_active_requests (a : Z) (r : t) : t :=
  mk (config r) (request_bucket r) (token_bucket r) a (max_concurrent r)
     (request_history r).

Definition set_request_history (h : list HistoryEntry) (r : t) : t :=
  mk (config r) (request_bucket r) (token_bucket r) (active_requests r)
     (max_concurrent r) h.

(** [deque(maxlen=1000).append]: the oldest entries fall off. *)
Definition deque_append {A : Type} (maxlen : nat) (x : A) (l : list A) : list A :=
  let l' := (l ++ [x])%list in
  skipn (List.length l' - maxlen) l'.

(** Run a bucket method on [self.request_bucket] / [self.token_bucket]. *)
Definition on_request_bucket {A : Type} (m : M (Timed TokenBucket.t) A)
  : M (Timed t) A :=
  zoom (fun s => (fst s, request_bucket (snd s)))
       (fun s' s => (fst s', set_request_bucket (snd s') (snd s))) m.

Definition on_token_bucket {A : Type} (m : M (Timed TokenBucket.t) A)
  : M (Timed t) A :=
  zoom (fun s => (fst s, token_bucket (snd s)))
       (fun s' s => (fst s', set_token_bucket (snd s') (snd s))) m.

Definition on_limiter (f : t -> t) : M (Timed t) unit :=
  modify (fun s => (fst s, f (snd s))).

(** The first [while True] of [acquire]: wait for a concurrent slot.
    [true] is the [break] (slot claimed), [false] the [return False]. *)
Fixpoint slot_loop (fuel : nat) (timeout : option Q) (start_time : Q)
  : M (Timed t) bool :=
  match fuel with
  | O => spin
  | S fuel' =>
      (s <- get ;;
       if active_requests (snd s) <? max_concurrent (snd s)
       then (on_limiter (fun r => set_active_requests (active_requests r + 1) r) ;;
             ret true)
       else
         now <- time_time ;;
         if timed_out timeout (now - start_time)%Q then ret false
         else (time_sleep (1 # 10) ;; slot_loop fuel' timeout start_time))%monad
  end.

Definition acquire (fuel : nat) (estimated_tokens : Z) (timeout : option Q)
  : M (Timed t) bool :=
  (start_time <- time_time ;;
   claimed <- slot_loop fuel timeout start_time ;;
   if negb claimed then ret false
   else
     request_acquired <-
       on_request_bucket (TokenBucket.wait_for_tokens fuel 1 timeout) ;;
     token_acquired <-
       on_token_bucket (TokenBucket.wait_for_tokens fuel estimated_tokens timeout) ;;
     if negb (request_acquired && token_acquired)
     then (on_limiter (fun r => set_active_requests (active_requests r - 1) r) ;;
           ret false)
     else
       now <- time_time ;;
       on_limiter (fun r =>
         set_request_history
           (deque_append 1000 (mk_entry now estimated_tokens) (request_history r)) r) ;;
       ret true)%monad.

(** [actual_tokens] is informational only. *)
Definition release (actual_tokens : option Z) : M (Timed t) unit :=
  on_limiter (fun r => set_active_requests (Z.max 0 (active_requests r - 1)) r).

(** The defaults of [acquire]: [estimated_tokens=1000], [timeout=30.0]. *)
Definition default_estimated_tokens : Z := 1000.
Definition default_timeout : option Q := Some 30%Q.

Definition __enter__ (fuel : nat) : M (Timed t) unit :=
  (success <- acquire fuel default_estimated_tokens default_timeout ;;
   if negb success
   then raise (RuntimeError "Failed to acquire rate limit within timeout")
   else ret tt)%monad.

Definition __exit__ : M (Timed t) unit := release None.

End RateLimiter.

(** ** Sequences of calls on one bucket and on one limiter *)

Inductive BucketOp : Type :=
| OpConsume (n : Z)
| OpWaitForTokens (n : Z) (timeout : option Q)
| OpRefill
| OpAvailableTokens
| OpElapse (d : Q).

Definition elapse {S : Type} (d : Q) : M (Timed S) unit :=
  modify (fun s => (later (fst s) d, snd s)).

Definition bucket_op (fuel : nat) (op : BucketOp) : M (Timed TokenBucket.t) unit :=
  match op with
  | OpConsume n => (_ <- TokenBucket.consume n ;; ret tt)%monad
  | OpWaitForTokens n timeout =>
      (_ <- TokenBucket.wait_for_tokens fuel n timeout ;; ret tt)%monad
  | OpRefill => TokenBucket.refill
  | OpAvailableTokens => (_ <- TokenBucket.available_tokens ;; ret tt)%monad
  | OpElapse d => elapse d
  end.

Inductive LimiterOp : Type :=
| OpAcquire (estimated_tokens : Z) (timeout : option Q)
| OpRelease (actual_tokens : option Z)
| OpPass (d : Q).

Definition limiter_op (fuel : nat) (op : LimiterOp) : M (Timed RateLimiter.t) unit :=
  match op with
  | OpAcquire n timeout => (_ <- RateLimiter.acquire fuel n timeout ;; ret tt)%monad
  | OpRelease a => RateLimiter.release a
  | OpPass d => elapse d
  end.

(** Run the calls in order; the first exception or endless loop ends the
    program. *)
Fixpoint run_ops {S Op : Type} (step : Op -> M S unit) (ops : list Op) : M S unit :=
  match ops with
  | [] => ret tt
  | op :: ops' => (step op ;; run_ops step ops')%monad
  end.

(** The same, collecting what every call returned. *)
Fixpoint run_calls {S A : Type} (calls : list (M S A)) : M S (list A) :=
  match calls with
  | [] => ret []
  | c :: calls' =>
      (a <- c ;; rest <- run_calls calls' ;; ret (a :: rest))%monad
  end.

(** ** [agents/base_agent.py]: [BaseAgent.invoke_llm] *)

(** What a call of external code did: it returned, or it raised. *)
Inductive Outcome (A : Type) : Type :=
| Returned (a : A)
| Raised (msg : string).

Arguments Returned {A} a.
Arguments Raised {A} msg.

(** [str(e)] and [type(e).__name__]. *)
Definition exn_str (e : PyExn) : string :=
  match e with
  | ZeroDivisionError => "float division by zero"
  | ValueError msg => msg
  | RuntimeError msg => msg
  | ExternalError msg => msg
  end.

Definition exn_type_name (e : PyExn) : string :=
  match e with
  | ZeroDivisionError => "ZeroDivisionError"
  | ValueError _ => "ValueError"
  | RuntimeError _ => "RuntimeError"
  | ExternalError _ => "Exception"
  end.

(** The calls [invoke_llm] makes on its collaborators, in order; a ghost
    record next to the agent, used to state in which order things
    happen.  [active] is [active_requests] right after the call. *)
Inductive Event : Type :=
| EvAcquire (granted : bool) (active : Z)
| EvInvoke (ok : bool)
| EvRelease (active : Z)
| EvSleep (d : Q).

Module BaseAgent.

Record ErrorRecord : Type := mk_error {
  err_timestamp : Q;
  error : string;
  type : string
}.

(** [response.content] and
    [response.response_metadata['token_usage']['total_tokens']]; [None]
    when the attribute or the key is missing (nothing, or [0], is added). *)
Record LLMResponse : Type := mk_response {
  content : string;
  total_tokens : option Z
}.

(** One call of [self.llm.invoke]: how long it took and what came back. *)
Record LLMCall : Type := mk_call {
  duration : Q;
  outcome : Outcome LLMResponse
}.

Record t : Type := mk {
  name : string;
  rate_limiter : RateLimiter.t;
  total_tokens_used : Z;
  total_requests : Z;
  errors : list ErrorRecord;
  trace : list Event
}.

(** [__init__]: [max_concurrent=5], the two rates from the settings. *)
Definition init (name : string) (requests_per_minute tokens_per_minute : Z)
  (now : Q) : t :=
  mk name
     (RateLimiter.init (RateLimitConfig.mk requests_per_minute tokens_per_minute 5) now)
     0 0 [] [].

Definition set_rate_limiter (r : RateLimiter.t) (a : t) : t :=
  mk (name a) r (total_tokens_used a) (total_requests a) (errors a) (trace a).

Definition on_agent (f : t -> t) : M (Timed t) unit :=
  modify (fun s => (fst s, f (snd s))).

Definition on_rate_limiter {A : Type} (m : M (Timed RateLimiter.t) A)
  : M (Timed t) A :=
  zoom (fun s => (fst s, rate_limiter (snd s)))
       (fun s' s => (fst s', set_rate_limiter (snd s') (snd s))) m.

Definition log (ev : Event) : M (Timed t) unit :=
  on_agent (fun a =>
    mk (name a) (rate_limiter a) (total_tokens_used a) (total_requests a)
       (errors a) (trace a ++ [ev])).

Definition active_now : M (Timed t) Z :=
  fun s => (Ret (RateLimiter.active_requests (rate_limiter (snd s))), s).

Definition rate_limiter_acquire (fuel : nat) : M (Timed t) bool :=
  (granted <- on_rate_limiter
     (RateLimiter.acquire fuel RateLimiter.default_estimated_tokens
        RateLimiter.default_timeout) ;;
   a <- active_now ;;
   log (EvAcquire granted a) ;;
   ret granted)%monad.

Definition rate_limiter_release : M (Timed t) unit :=
  (on_rate_limiter (RateLimiter.release None) ;;
   a <- active_now ;;
   log (EvRelease a))%monad.

Definition llm_invoke (call : LLMCall) : M (Timed t) LLMResponse :=
  (elapse (duration call) ;;
   match outcome call with
   | Returned r => (log (EvInvoke true) ;; ret r)
   | Raised msg => (log (EvInvoke false) ;; raise (ExternalError msg))
   end)%monad.

Definition sleep (d : Q) : M (Timed t) unit :=
  (log (EvSleep d) ;; time_sleep d)%monad.

(** The [try] block of one attempt; it ends in [return response.content]. *)
Definition attempt_body (fuel : nat) (call : LLMCall) : M (Timed t) string :=
  (granted <- rate_limiter_acquire fuel ;;
   if negb granted then raise (RuntimeError "Rate limit exceeded")
   else
     response <- llm_invoke call ;;
     on_agent (fun a =>
       mk (name a) (rate_limiter a)
          (match total_tokens response with
           | Some k => total_tokens_used a + k
           | None => total_tokens_used a
           end)
          (total_requests a + 1) (errors a) (trace a)) ;;
     rate_limiter_release ;;
     ret (content response))%monad.

(** The [except Exception as e] block: [None] stands for falling out of
    the handler into the next round of the [for] loop. *)
Definition attempt_handler (max_retries attempt : Z) (e : PyExn)
  : M (Timed t) (option string) :=
  (rate_limiter_release ;;
   if attempt =? max_retries - 1
   then (now <- time_time ;;
         on_agent (fun a =>
           mk (name a) (rate_limiter a) (total_tokens_used a) (total_requests a)
              (errors a ++ [mk_error now (exn_str e) (exn_type_name e)])
              (trace a)) ;;
         raise e)
   else (sleep (inject_Z (2 ^ attempt)) ;; ret None))%monad.

Definition failed_after (max_retries : Z) : string :=
  "Failed after " ++ NilZero.string_of_int (Z.to_int max_retries) ++ " attempts".

(** [for attempt in range(max_retries)], over the attempts still to make;
    [llm] says what the model call of each attempt does. *)
Fixpoint invoke_loop (fuel : nat) (llm : Z -> LLMCall) (max_retries : Z)
  (todo : list Z) : M (Timed t) string :=
  match todo with
  | [] => raise (RuntimeError (failed_after max_retries))
  | attempt :: todo' =>
      (r <- try_except
              (c <- attempt_body fuel (llm attempt) ;; ret (Some c))
              (attempt_handler max_retries attempt) ;;
       match r with
       | Some c => ret c
       | None => invoke_loop fuel llm max_retries todo'
       end)%monad
  end.

Definition range (n : Z) : list Z := map Z.of_nat (seq 0 (Z.to_nat n)).

Definition invoke_llm (fuel : nat) (llm : Z -> LLMCall) (max_retries : Z)
  : M (Timed t) string :=
  invoke_loop fuel llm max_retries (range max_retries).

End BaseAgent.

(** ** Strings as Python uses them here *)

Local Open Scope string_scope.

(** Truthiness of a [str]. *)
Definition nonempty (s : string) : bool :=
  match s with
  | EmptyString => false
  | String _ _ => true
  end.

(** [str.lower()] and [str.upper()] on ASCII letters. *)
Definition lower_ascii (c : ascii) : ascii :=
  let n := nat_of_ascii c in
  if (65 <=? n)%nat && (n <=? 90)%nat then ascii_of_nat (n + 32) else c.

Definition upper_ascii (c : ascii) : ascii :=
  let n := nat_of_ascii c in
  if (97 <=? n)%nat && (n <=? 122)%nat then ascii_of_nat (n - 32) else c.

Fixpoint map_string (f : ascii -> ascii) (s : string) : string :=
  match s with
  | EmptyString => EmptyString
  | String c s' => String (f c) (map_string f s')
  end.

Definition lower (s : string) : string := map_string lower_ascii s.
Definition upper (s : string) : string := map_string upper_ascii s.

(** [kw in s]: [kw] occurs in [s] as a substring. *)
Fixpoint contains (kw s : string) : bool :=
  String.prefix kw s ||
  match s with
  | EmptyString => false
  | String _ s' => contains kw s'
  end.

(** [len(s.split())]: the number of maximal runs of non-blank characters. *)
Definition is_space (c : ascii) : bool :=
  let n := nat_of_ascii c in
  ((9 <=? n)%nat && (n <=? 13)%nat) || ((28 <=? n)%nat && (n <=? 32)%nat).

Fixpoint count_words_from (in_word : bool) (s : string) : Z :=
  match s with
  | EmptyString => 0
  | String c s' =>
      if is_space c then count_words_from false s'
      else (if in_word then 0 else 1) + count_words_from true s'
  end.

Definition count_words (s : string) : Z := count_words_from false s.

(** [str(n)] for an [int]. *)
Definition str_int (n : Z) : string := NilZero.string_of_int (Z.to_int n).

(** [xs[:n]] *)
Definition take {A : Type} (n : nat) (xs : list A) : list A := firstn n xs.

(** [s[:n]] *)
Definition take_string (n : nat) (s : string) : string := String.substring 0 n s.

(** [len(xs)] *)
Definition len {A : Type} (xs : list A) : Z := Z.of_nat (List.length xs).

(** [min(a, b)] on floats: [b] when [b < a], else [a]. *)
Definition float_min (a b : float) : float := if PrimFloat.ltb b a then b else a.

(** ** [state/schemas.py] *)

Inductive WorkflowStatus : Type := running | waiting | completed | failed.

Inductive ReviewDecision : Type := approve | request_revision | reject.

Inductive MessageType : Type := task_msg | result_msg | feedback_msg | question_msg.

Definition decision_str (d : ReviewDecision) : string :=
  match d with
  | approve => "approve"
  | request_revision => "request_revision"
  | reject => "reject"
  end.

Definition decision_eqb (a b : ReviewDecision) : bool :=
  match a, b with
  | approve, approve => true
  | request_revision, request_revision => true
  | reject, reject => true
  | _, _ => false
  end.

(** [AgentMessage]; the [timestamp] ([datetime.now()]) is left out, nothing
    reads it. *)
Record AgentMessage : Type := mk_message {
  sender : string;
  recipient : string;
  content : string;
  message_type : MessageType
}.

(** The values stored in [metadata], a [dict] from [str]. *)
Inductive MetaValue : Type :=
| MInt (n : Z)
| MFloat (x : float)
| MStr (s : string).

Definition Metadata : Type := list (string * MetaValue).

Module AgentState.

Record t : Type := mk {
  task : string;
  user_context : list (string * string);
  current_agent : string;
  next_agent : string;
  iteration_count : Z;
  workflow_status : WorkflowStatus;
  messages : list AgentMessage;
  research_query : string;
  research_findings : string;
  research_sources : list string;
  research_quality_score : float;
  content_type : string;
  content_draft : string;
  content_version : Z;
  review_score : float;
  review_feedback : string;
  review_decision : ReviewDecision;
  revision_count : Z;
  final_output : string;
  metadata : Metadata;
  errors : list string;
  warnings : list string
}.

End AgentState.

(** A partial state: one entry of the [dict] a node returns. *)
Inductive Entry : Type :=
| current_agent_ (v : string)
| next_agent_ (v : string)
| iteration_count_ (v : Z)
| workflow_status_ (v : WorkflowStatus)
| messages_ (v : list AgentMessage)
| research_query_ (v : string)
| research_findings_ (v : string)
| research_sources_ (v : list string)
| research_quality_score_ (v : float)
| content_type_ (v : string)
| content_draft_ (v : string)
| content_version_ (v : Z)
| review_score_ (v : float)
| review_feedback_ (v : string)
| review_decision_ (v : ReviewDecision)
| revision_count_ (v : Z)
| final_output_ (v : string)
| metadata_ (v : Metadata)
| errors_ (v : list string)
| warnings_ (v : list string).

(** The key of an entry. *)
Definition key (e : Entry) : string :=
  match e with
  | current_agent_ _ => "current_agent"
  | next_agent_ _ => "next_agent"
  | iteration_count_ _ => "iteration_count"
  | workflow_status_ _ => "workflow_status"
  | messages_ _ => "messages"
  | research_query_ _ => "research_query"
  | research_findings_ _ => "research_findings"
  | research_sources_ _ => "research_sources"
  | research_quality_score_ _ => "research_quality_score"
  | content_type_ _ => "content_type"
  | content_draft_ _ => "content_draft"
  | content_version_ _ => "content_version"
  | review_score_ _ => "review_score"
  | review_feedback_ _ => "review_feedback"
  | review_decision_ _ => "review_decision"
  | revision_count_ _ => "revision_count"
  | final_output_ _ => "final_output"
  | metadata_ _ => "metadata"
  | errors_ _ => "errors"
  | warnings_ _ => "warnings"
  end.

(** The reducers of [AgentState]: the fields annotated with [add] are
    appended to, every other field is overwritten. *)
Definition apply_entry (st : AgentState.t) (e : Entry) : AgentState.t :=
  let '(AgentState.mk tk uc ca na ic ws ms rq rf rs rqs
         ct cd cv sc fb rd rc fo md er wa) := st in
  let mk := AgentState.mk in
  match e with
  | current_agent_ v =>
      mk tk uc v na ic ws ms rq rf rs rqs ct cd cv sc fb rd rc fo md er wa
  | next_agent_ v =>
      mk tk uc ca v ic ws ms rq rf rs rqs ct cd cv sc fb rd rc fo md er wa
  | iteration_count_ v =>
      mk tk uc ca na v ws ms rq rf rs rqs ct cd cv sc fb rd rc fo md er wa
  | workflow_status_ v =>
      mk tk uc ca na ic v ms rq rf rs rqs ct cd cv sc fb rd rc fo md er wa
  | messages_ v =>
      mk tk uc ca na ic ws (ms ++ v)%list rq rf rs rqs ct cd cv sc fb rd rc fo md er wa
  | research_query_ v =>
      mk tk uc ca na ic ws ms v rf rs rqs ct cd cv sc fb rd rc fo md er wa
  | research_findings_ v =>
      mk tk uc ca na ic ws ms rq v rs rqs ct cd cv sc fb rd rc fo md er wa
  | research_sources_ v =>
      mk tk uc ca na ic ws ms rq rf v rqs ct cd cv sc fb rd rc fo md er wa
  | research_quality_score_ v =>
      mk tk uc ca na ic ws ms rq rf rs v ct cd cv sc fb rd rc fo md er wa
  | content_type_ v =>
      mk tk uc ca na ic ws ms rq rf rs rqs v cd cv sc fb rd rc fo md er wa
  | content_draft_ v =>
      mk tk uc ca na ic ws ms rq rf rs rqs ct v cv sc fb rd rc fo md er wa
  | content_version_ v =>
      mk tk uc ca na ic ws ms rq rf rs rqs ct cd v sc fb rd rc fo md er wa
  | review_score_ v =>
      mk tk uc ca na ic ws ms rq rf rs rqs ct cd cv v fb rd rc fo md er wa
  | review_feedback_ v =>
      mk tk uc ca na ic ws ms rq rf rs rqs ct cd cv sc v rd rc fo md er wa
  | review_decision_ v =>
      mk tk uc ca na ic ws ms rq rf rs rqs ct cd cv sc fb v rc fo md er wa
  | revision_count_ v =>
      mk tk uc ca na ic ws ms rq rf rs rqs ct cd cv sc fb rd v fo md er wa
  | final_output_ v =>
      mk tk uc ca na ic ws ms rq rf rs rqs ct cd cv sc fb rd rc v md er wa
  | metadata_ v =>
      mk tk uc ca na ic ws ms rq rf rs rqs ct cd cv sc fb rd rc fo v er wa
  | errors_ v =>
      mk tk uc ca na ic ws ms rq rf rs rqs ct cd cv sc fb rd rc fo md (er ++ v)%list wa
  | warnings_ v =>
      mk tk uc ca na ic ws ms rq rf rs rqs ct cd cv sc fb rd rc fo md er (wa ++ v)%list
  end.

(** A [dict] of state updates: at most one entry per key. *)
Definition Update : Type := list Entry.

Definition has_key (k : string) (u : Update) : bool :=
  existsb (fun e => String.eqb (key e) k) u.

(** [u.update(v)]: the entries of [v] replace those of [u] with the same key. *)
Definition dict_update (u v : Update) : Update :=
  (filter (fun e => negb (has_key (key e) v)) u ++ v)%list.

(** [u.get('next_agent')] *)
Fixpoint get_next_agent (u : Update) : option string :=
  match u with
  | [] => None
  | next_agent_ v :: _ => Some v
  | _ :: u' => get_next_agent u'
  end.

Fixpoint get_workflow_status (u : Update) : option WorkflowStatus :=
  match u with
  | [] => None
  | workflow_status_ v :: _ => Some v
  | _ :: u' => get_workflow_status u'
  end.

Fixpoint get_final_output (u : Update) : option string :=
  match u with
  | [] => None
  | final_output_ v :: _ => Some v
  | _ :: u' => get_final_output u'
  end.

(** What the graph does with the [dict] a node returns. *)
Definition merge (st : AgentState.t) (u : Update) : AgentState.t :=
  fold_left apply_entry u st.

Definition create_initial_state (task : string) (context : list (string * string))
  : AgentState.t :=
  AgentState.mk task context "supervisor" "supervisor" 0 running []
    "" "" [] 0.0%float
    "blog post" "" 0
    0.0%float "" request_revision 0
    "" [] [] [].

Definition add_message (st : AgentState.t) (sender recipient content : string)
  (message_type : MessageType) : Update :=
  [messages_ [mk_message sender recipient content message_type]].

Definition increment_iteration (st : AgentState.t) : Update :=
  [iteration_count_ (AgentState.iteration_count st + 1)].

Definition update_workflow_status (status : WorkflowStatus) : Update :=
  [workflow_status_ status].

(** ** [agents/reviewer.py] *)

(** [tools/validation.py]: [ValidationResult]. *)
Record ValidationResult : Type := mk_validation {
  is_valid : bool;
  score : float;
  v_issues : list string;
  v_warnings : list string;
  suggestions : list string
}.

(** The parsed answer of the model to the review prompt; [None] is a
    missing key. *)
Record LLMReview : Type := mk_llm_review {
  factual_accuracy : option float;
  completeness : option float;
  clarity : option float;
  engagement : option float;
  citations : option float;
  l_strengths : option (list string);
  l_issues : option (list string);
  l_recommendations : option (list string);
  l_decision : option string
}.

Record CriterionScores : Type := mk_scores {
  c_factual_accuracy : float;
  c_completeness : float;
  c_clarity : float;
  c_engagement : float;
  c_citations : float
}.

Record ReviewOutput : Type := mk_review {
  overall_score : float;
  criterion_scores : CriterionScores;
  strengths : list string;
  issues : list string;
  recommendations : list string;
  decision : ReviewDecision
}.

(** [d.get(key, default)] *)
Definition get_or {A : Type} (v : option A) (default : A) : A :=
  match v with
  | Some x => x
  | None => default
  end.

Module ReviewerAgent.

Definition name : string := "reviewer".

Definition critical_keywords : list string :=
  ["plagiarism"; "fabricated"; "completely false"; "dangerous misinformation"].

(** [any(any(kw in issue.lower() for kw in critical_keywords) for issue in issues)] *)
Definition has_critical (issues : list string) : bool :=
  existsb (fun issue => existsb (fun kw => contains kw (lower issue)) critical_keywords)
          issues.

(** [_make_decision]; the third argument, the decision the model
    recommended, is not read. *)
Definition _make_decision (score : float) (issues : list string)
  (llm_decision : string) : ReviewDecision :=
  if has_critical issues then reject
  else if PrimFloat.leb 0.85 score && (len issues <=? 3)%Z then approve
  else if PrimFloat.leb 0.75 score && (len issues <=? 2)%Z then approve
  else if PrimFloat.ltb score 0.4 then reject
  else request_revision.

Definition _fallback_review : LLMReview :=
  mk_llm_review (Some 6%float) (Some 6%float) (Some 6%float) (Some 6%float)
    (Some 6%float)
    (Some ["Content was generated"])
    (Some ["Unable to perform detailed review"])
    (Some ["Manual review recommended"])
    (Some "request_revision").

Definition _combine_reviews (validation_result : ValidationResult)
  (llm_review : LLMReview) : ReviewOutput :=
  let criterion_scores :=
    mk_scores (get_or (factual_accuracy llm_review) 5 / 10.0)%float
              (get_or (completeness llm_review) 5 / 10.0)%float
              (get_or (clarity llm_review) 5 / 10.0)%float
              (get_or (engagement llm_review) 5 / 10.0)%float
              (get_or (citations llm_review) 5 / 10.0)%float in
  let overall_score :=
    (c_factual_accuracy criterion_scores * 0.35 +
     c_completeness criterion_scores * 0.25 +
     c_clarity criterion_scores * 0.20 +
     c_engagement criterion_scores * 0.15 +
     c_citations criterion_scores * 0.05)%float in
  let final_score := (overall_score * 0.7 + score validation_result * 0.3)%float in
  let final_score :=
    if PrimFloat.leb 0.85 overall_score
    then float_min (final_score + 0.05)%float 1.0%float
    else final_score in
  let all_issues := (v_issues validation_result ++ get_or (l_issues llm_review) [])%list in
  let all_strengths := get_or (l_strengths llm_review) [] in
  let all_recommendations :=
    (suggestions validation_result ++ get_or (l_recommendations llm_review) [])%list in
  let decision :=
    _make_decision final_score all_issues
      (get_or (l_decision llm_review) "request_revision") in
  mk_review final_score criterion_scores
    (take 5 all_strengths) (take 5 all_issues) (take 5 all_recommendations)
    decision.

Section Collaborators.

(** [self.validator.validate], the model call of [_llm_review] together
    with the parsing of its answer, and the two formatters. *)
Variable validate : string -> string -> Outcome ValidationResult.
Variable llm_review_call : string -> string -> Outcome LLMReview.
Variable format_feedback : ReviewOutput -> string.
Variable format_2f : float -> string.

(** [_llm_review]: any failure falls back to [_fallback_review]. *)
Definition _llm_review (content research : string) : LLMReview :=
  match llm_review_call content research with
  | Returned r => r
  | Raised _ => _fallback_review
  end.

Definition _perform_review (content research : string) : Outcome ReviewOutput :=
  match validate content research with
  | Returned validation_result =>
      Returned (_combine_reviews validation_result (_llm_review content research))
  | Raised msg => Raised msg
  end.

Definition execute (st : AgentState.t) : Update :=
  let content := AgentState.content_draft st in
  let research := AgentState.research_findings st in
  match _perform_review content research with
  | Returned review_output =>
      let updates :=
        [ current_agent_ name;
          review_score_ (overall_score review_output);
          review_feedback_ (format_feedback review_output);
          review_decision_ (decision review_output);
          revision_count_
            (AgentState.revision_count st +
             (if decision_eqb (decision review_output) request_revision
              then 1 else 0)) ] in
      let updates :=
        if decision_eqb (decision review_output) approve
        then dict_update updates
               [ final_output_ content;
                 metadata_
                   [ ("word_count", MInt (count_words content));
                     ("quality_score", MFloat (overall_score review_output));
                     ("sources_used", MInt (len (AgentState.research_sources st)));
                     ("revisions", MInt (AgentState.revision_count st)) ] ]
        else updates in
      dict_update updates
        (add_message st name "supervisor"
           ("Review complete: " ++ upper (decision_str (decision review_output)) ++
            " (score: " ++ format_2f (overall_score review_output) ++ ")")
           result_msg)
  | Raised msg =>
      [ current_agent_ name;
        review_score_ 0.0%float;
        review_feedback_ ("Review failed: " ++ msg);
        review_decision_ reject;
        errors_ ["Review error: " ++ msg] ]
  end.

End Collaborators.

End ReviewerAgent.

(** ** [agents/researcher.py] and [agents/content_creator.py] *)

Record ResearchOutput : Type := mk_research {
  findings : string;
  sources : list string;
  quality_score : float;
  knowledge_gaps : list string;
  r_recommendations : string
}.

Record ContentOutput : Type := mk_content {
  co_content : string;
  word_count : Z;
  sections : list string;
  sources_cited : Z
}.

Module ResearcherAgent.

Definition name : string := "researcher".

Section Collaborators.

(** The three steps of the [try] block for a query: search, analysis and
    synthesis.  [ResearchSteps.do_research] spells them out: a failing
    search or model is caught inside them, so that only the local
    analysis can raise here. *)
Variable do_research : string -> Outcome ResearchOutput.
Variable format_2f : float -> string.

Definition execute (st : AgentState.t) : Update :=
  let query :=
    if nonempty (AgentState.research_query st)
    then AgentState.research_query st
    else AgentState.task st in
  match do_research query with
  | Returned research_output =>
      dict_update
        [ current_agent_ name;
          research_query_ query;
          research_findings_ (findings research_output);
          research_sources_ (sources research_output);
          research_quality_score_ (quality_score research_output) ]
        (add_message st name "supervisor"
           ("Research completed. Quality score: " ++
            format_2f (quality_score research_output))
           result_msg)
  | Raised msg =>
      [ current_agent_ name;
        research_findings_ ("Research failed: " ++ msg);
        research_sources_ [];
        research_quality_score_ 0.0%float;
        errors_ ["Research error: " ++ msg] ]
  end.

End Collaborators.

End ResearcherAgent.

Module ContentCreatorAgent.

Definition name : string := "content_creator".

Section Collaborators.

(** [_generate_content research content_type revision_feedback is_revision] *)
Variable _generate_content : string -> string -> string -> bool -> Outcome ContentOutput.

Definition execute (st : AgentState.t) : Update :=
  let research := AgentState.research_findings st in
  let content_type := AgentState.content_type st in
  let revision_feedback := AgentState.review_feedback st in
  let is_revision := (0 <? AgentState.content_version st)%Z in
  match _generate_content research content_type revision_feedback is_revision with
  | Returned content_output =>
      dict_update
        [ current_agent_ name;
          content_draft_ (co_content content_output);
          content_version_ (AgentState.content_version st + 1);
          content_type_ content_type ]
        (add_message st name "supervisor"
           ("Content created (" ++ str_int (word_count content_output) ++ " words, " ++
            str_int (sources_cited content_output) ++ " sources cited)")
           result_msg)
  | Raised msg =>
      [ current_agent_ name;
        content_draft_ ("Content creation failed: " ++ msg);
        errors_ ["Content creation error: " ++ msg] ]
  end.

End Collaborators.

End ContentCreatorAgent.

(** ** [agents/supervisor.py] *)

Record SupervisorDecision : Type := mk_decision {
  d_next_agent : string;
  reasoning : string;
  instructions : string;
  confidence : float
}.

(** The JSON object the model answered with; [None] is a missing key. *)
Record DecisionData : Type := mk_decision_data {
  j_next_agent : option string;
  j_reasoning : option string;
  j_instructions : option string;
  j_confidence : option float
}.

(** The bound on revisions: the literal [3] of [supervisor.py]. *)
Definition max_revisions : Z := 3.

Module SupervisorAgent.

Definition name : string := "supervisor".

Section Settings.

(** [self.settings.max_iterations] *)
Variable max_iterations : Z.

(** The model call of [_make_routing_decision] with the parsing of its
    answer: the parsed object, or the exception that was raised. *)
Variable routing_llm : AgentState.t -> Outcome DecisionData.

Definition _fallback_decision (st : AgentState.t) : SupervisorDecision :=
  if (max_iterations <=? AgentState.iteration_count st)%Z then
    mk_decision "finish" "Maximum iterations reached" "Complete workflow" 1.0%float
  else if (max_revisions <=? AgentState.revision_count st)%Z then
    mk_decision "finish" "Maximum revisions reached, accepting current content"
      "Finalize output with current content" 0.8%float
  else if negb (nonempty (AgentState.research_findings st)) then
    mk_decision "researcher" "No research completed yet"
      ("Research the topic: " ++ AgentState.task st) 0.9%float
  else if negb (nonempty (AgentState.content_draft st)) then
    mk_decision "content_creator" "Research complete, need content"
      "Create content based on research findings" 0.9%float
  else if negb (nonempty (AgentState.review_feedback st)) then
    mk_decision "reviewer" "Content created, needs review"
      "Review content quality and accuracy" 0.9%float
  else if decision_eqb (AgentState.review_decision st) request_revision
          && (AgentState.revision_count st <? max_revisions)%Z then
    mk_decision "content_creator" "Revision requested by reviewer"
      ("Revise content based on feedback: " ++
       take_string 200 (AgentState.review_feedback st)) 0.8%float
  else
    mk_decision "finish" "Workflow complete or max revisions reached"
      "Finalize output" 0.7%float.

Definition _make_routing_decision (st : AgentState.t) : SupervisorDecision :=
  match routing_llm st with
  | Returned decision_data =>
      mk_decision
        (get_or (j_next_agent decision_data) "finish")
        (get_or (j_reasoning decision_data) "No reasoning provided")
        (get_or (j_instructions decision_data) "Proceed with task")
        (get_or (j_confidence decision_data) 0.5%float)
  | Raised _ => _fallback_decision st
  end.

(** The test at the head of [execute]. *)
Definition should_finish (st : AgentState.t) : bool :=
  (max_iterations <=? AgentState.iteration_count st)%Z
  || (max_revisions <=? AgentState.revision_count st)%Z
  || (decision_eqb (AgentState.review_decision st) approve
      && nonempty (AgentState.final_output st)).

Definition execute (st : AgentState.t) : Update :=
  if should_finish st then
    let updates :=
      [ current_agent_ name; next_agent_ "finish"; workflow_status_ completed ] in
    if nonempty (AgentState.content_draft st)
       && negb (nonempty (AgentState.final_output st))
    then
      dict_update updates
        [ final_output_ (AgentState.content_draft st);
          metadata_
            [ ("word_count", MInt (count_words (AgentState.content_draft st)));
              ("quality_score", MFloat (AgentState.review_score st));
              ("sources_used", MInt (len (AgentState.research_sources st)));
              ("revisions", MInt (AgentState.revision_count st));
              ("status", MStr "completed_with_max_iterations") ] ]
    else updates
  else
    let decision := _make_routing_decision st in
    dict_update
      [ current_agent_ name; next_agent_ (d_next_agent decision) ]
      (add_message st name (d_next_agent decision) (instructions decision) task_msg).

End Settings.

End SupervisorAgent.

(** ** [workflows/graph_builder.py] *)

(** The nodes a conditional edge can lead to. *)
Inductive Node : Type := researcher | content_creator | reviewer | END.

(** All that the run of a workflow depends on besides the state. *)
Record World : Type := mk_world {
  max_iterations : Z;
  routing_llm : AgentState.t -> Outcome DecisionData;
  do_research : string -> Outcome ResearchOutput;
  _generate_content : string -> string -> string -> bool -> Outcome ContentOutput;
  validate : string -> string -> Outcome ValidationResult;
  llm_review_call : string -> string -> Outcome LLMReview;
  format_feedback : ReviewOutput -> string;
  format_2f : float -> string
}.

Module WorkflowBuilder.

Section Graph.

Variable w : World.

Definition _supervisor_node (st : AgentState.t) : Update :=
  if (max_iterations w <=? AgentState.iteration_count st)%Z then
    [ next_agent_ "finish"; workflow_status_ completed;
      warnings_ ["Max iterations reached"] ]
  else
    let updates := SupervisorAgent.execute (max_iterations w) (routing_llm w) st in
    dict_update updates (increment_iteration st).

Definition _researcher_node (st : AgentState.t) : Update :=
  ResearcherAgent.execute (do_research w) (format_2f w) st.

Definition _content_creator_node (st : AgentState.t) : Update :=
  ContentCreatorAgent.execute (_generate_content w) st.

Definition _reviewer_node (st : AgentState.t) : Update :=
  ReviewerAgent.execute (validate w) (llm_review_call w) (format_feedback w)
    (format_2f w) st.

(** [route_map.get(next_agent, 'finish')], with ['finish'] mapped to [END]
    by the conditional edges. *)
Definition _route_from_supervisor (st : AgentState.t) : Node :=
  let next_agent := AgentState.next_agent st in
  if String.eqb next_agent "researcher" then researcher
  else if String.eqb next_agent "content_creator" then content_creator
  else if String.eqb next_agent "reviewer" then reviewer
  else END.

Definition node (n : Node) (st : AgentState.t) : Update :=
  match n with
  | researcher => _researcher_node st
  | content_creator => _content_creator_node st
  | reviewer => _reviewer_node st
  | END => []
  end.

(** The compiled graph: entry point [supervisor], a conditional edge out
    of it, and an edge from every agent back to it.  One unit of [fuel]
    is one visit of the supervisor node.  The result is the state at
    [END] and the agents that ran, in order. *)
Fixpoint run (fuel : nat) (st : AgentState.t) : option (AgentState.t * list Node) :=
  match fuel with
  | O => None
  | S fuel' =>
      let st1 := merge st (_supervisor_node st) in
      match _route_from_supervisor st1 with
      | END => Some (st1, [])
      | n =>
          match run fuel' (merge st1 (node n st1)) with
          | Some (st', ns) => Some (st', n :: ns)
          | None => None
          end
      end
  end.

End Graph.

End WorkflowBuilder.

(** ** [utils/rate_limiter.py]: [RateLimiter.get_stats] *)

(** The dictionary returned by [get_stats]. *)
Record Stats : Type := mk_stats {
  stats_active_requests : Z;
  stats_max_concurrent : Z;
  requests_last_minute : Z;
  requests_per_minute_limit : Z;
  available_request_tokens : Z;
  available_api_tokens : Z;
  tokens_per_minute_limit : Z
}.

(** [get_stats]: the entries of the last minute are counted on the clock
    that stamped them; the two [available_tokens] calls refill the
    buckets. *)
Definition get_stats : M (Timed RateLimiter.t) Stats :=
  (now <- time_time ;;
   s <- get ;;
   let r := snd s in
   let one_minute_ago := (now - 60)%Q in
   let recent_requests :=
     filter (fun e => Qlt_bool one_minute_ago (RateLimiter.timestamp e))
            (RateLimiter.request_history r) in
   request_tokens <- RateLimiter.on_request_bucket TokenBucket.available_tokens ;;
   api_tokens <- RateLimiter.on_token_bucket TokenBucket.available_tokens ;;
   ret (mk_stats
          (RateLimiter.active_requests r)
          (RateLimiter.max_concurrent r)
          (Z.of_nat (List.length recent_requests))
          (RateLimitConfig.requests_per_minute (RateLimiter.config r))
          request_tokens
          api_tokens
          (RateLimitConfig.tokens_per_minute (RateLimiter.config r))))%monad.

(** ** [state/memory.py] *)

(** A Python [str] as the list of its code points: [len] and the slices
    count code points, and the arrow of the message formats is not an
    ASCII character.  The characters of a [string] are taken as the code
    points below 256. *)
Definition pystr : Type := list Z.

Definition code_points (s : string) : pystr :=
  map (fun c => Z.of_nat (nat_of_ascii c)) (list_ascii_of_string s).

(** [" → "] *)
Definition arrow : pystr := [32; 8594; 32].

Definition newline : pystr := [10].

(** [sep.join(parts)] *)
Fixpoint join (sep : pystr) (parts : list pystr) : pystr :=
  match parts with
  | [] => []
  | [p] => p
  | p :: rest => (p ++ sep ++ join sep rest)%list
  end.

(** [xs[-n:]]: the last [n] elements for a positive [n], everything for
    [n = 0], and [xs[|n|:]] for a negative [n]. *)
Definition slice_last {A : Type} (n : Z) (xs : list A) : list A :=
  if (n =? 0)%Z then xs
  else if (0 <? n)%Z then skipn (List.length xs - Z.to_nat n) xs
  else skipn (Z.to_nat (- n)) xs.

(** [parts.insert(1, x)] *)
Definition insert1 {A : Type} (x : A) (parts : list A) : list A :=
  match parts with
  | [] => [x]
  | h :: t => h :: x :: t
  end.

Definition message_type_str (t : MessageType) : string :=
  match t with
  | task_msg => "task"
  | result_msg => "result"
  | feedback_msg => "feedback"
  | question_msg => "question"
  end.

Definition status_str (s : WorkflowStatus) : string :=
  match s with
  | running => "running"
  | waiting => "waiting"
  | completed => "completed"
  | failed => "failed"
  end.

(** [m.sender == agent or m.recipient == agent] *)
Definition involves (agent : string) (m : AgentMessage) : bool :=
  String.eqb (sender m) agent || String.eqb (recipient m) agent.

Module MemoryManager.

(** [last_summarization] is [None] or a time; the time is left out. *)
Record t : Type := mk {
  max_messages : Z;
  max_summary_length : Z;
  message_buffer : list AgentMessage;
  summarized_context : pystr;
  total_messages : Z;
  last_summarization : bool;
  summarization_count : Z
}.

(** [__init__]; [deque(maxlen=max_messages)] raises for a negative
    length. *)
Definition init (max_messages max_summary_length : Z) : PyExn + t :=
  if (max_messages <? 0)%Z then inl (ValueError "maxlen must be non-negative")
  else inr (mk max_messages max_summary_length [] [] 0 false 0).

(** [f"{msg.sender} → {msg.recipient}: {msg.content[:100]}"] *)
Definition key_event (msg : AgentMessage) : pystr :=
  (code_points (sender msg) ++ arrow ++ code_points (recipient msg) ++
   code_points ": " ++ firstn 100 (code_points (content msg)))%list.

Definition is_key_event (msg : AgentMessage) : bool :=
  match message_type msg with
  | task_msg | result_msg => true
  | _ => false
  end.

Definition _summarize_old_messages (m : t) : t :=
  if (len (message_buffer m) <? 10)%Z then m
  else
    let messages_to_summarize :=
      firstn (List.length (message_buffer m) / 2) (message_buffer m) in
    let key_events := map key_event (filter is_key_event messages_to_summarize) in
    let new_summary := join newline (firstn 10 key_events) in
    let context :=
      match summarized_context m with
      | [] => new_summary
      | _ :: _ => (summarized_context m ++ newline ++ new_summary)%list
      end in
    let context :=
      if (max_summary_length m <? len context)%Z
      then slice_last (max_summary_length m) context
      else context in
    mk (max_messages m) (max_summary_length m) (message_buffer m) context
       (total_messages m) true (summarization_count m + 1).

Definition add_message (message : AgentMessage) (m : t) : t :=
  let m1 :=
    mk (max_messages m) (max_summary_length m)
       (RateLimiter.deque_append (Z.to_nat (max_messages m)) message (message_buffer m))
       (summarized_context m) (total_messages m + 1)
       (last_summarization m) (summarization_count m) in
  if (max_messages m1 <=? len (message_buffer m1))%Z
  then _summarize_old_messages m1
  else m1.

(** [get_recent_messages(n, agent, message_type)]; [None] and [""] are
    both falsy.  The parameter [message_type] is [type_filter] here, the
    name being that of the field. *)
Definition get_recent_messages (n : Z) (agent type_filter : option string) (m : t)
  : list AgentMessage :=
  let messages := message_buffer m in
  let messages :=
    match agent with
    | Some a => if nonempty a then filter (involves a) messages else messages
    | None => messages
    end in
  let messages :=
    match type_filter with
    | Some ty =>
        if nonempty ty
        then filter (fun x => String.eqb (message_type_str (message_type x)) ty) messages
        else messages
    | None => messages
    end in
  slice_last n messages.

Definition get_agent_interactions (agent_name : string) (m : t) : list AgentMessage :=
  filter (involves agent_name) (message_buffer m).

(** [f"[{message.sender} → {message.recipient}]: {message.content}\n"] *)
Definition message_str (message : AgentMessage) : pystr :=
  (code_points "[" ++ code_points (sender message) ++ arrow ++
   code_points (recipient message) ++ code_points "]: " ++
   code_points (content message) ++ newline)%list.

(** [f"[Previous Context Summary]\n{self.summarized_context}\n"] *)
Definition summary_part (m : t) : pystr :=
  (code_points "[Previous Context Summary]" ++ newline ++
   summarized_context m ++ newline)%list.

(** The [for] loop of [get_conversation_history], over the messages from
    the most recent one; it stops at the first message that does not
    fit. *)
Fixpoint history_loop (budget : Z) (history_parts : list pystr) (current_length : Z)
  (recent_messages : list AgentMessage) : list pystr :=
  match recent_messages with
  | [] => history_parts
  | message :: rest =>
      let message_length := len (message_str message) in
      if (current_length + message_length <? budget)%Z
      then history_loop budget (insert1 (message_str message) history_parts)
             (current_length + message_length) rest
      else history_parts
  end.

Definition history_parts (max_tokens : Z) (m : t) : list pystr :=
  let summary_length := len (summarized_context m) in
  let fits :=
    match summarized_context m with
    | [] => false
    | _ :: _ => (summary_length <? max_tokens * 4)%Z
    end in
  history_loop (max_tokens * 4)
    (if fits then [summary_part m] else [])
    (if fits then summary_length else 0)
    (rev (message_buffer m)).

Definition get_conversation_history (max_tokens : Z) (m : t) : pystr :=
  join newline (history_parts max_tokens m).

Definition clear (m : t) : t :=
  mk (max_messages m) (max_summary_length m) [] [] 0 false 0.

Record Statistics : Type := mk_statistics {
  current_messages : Z;
  stat_max_messages : Z;
  total_processed : Z;
  stat_summarization_count : Z;
  summary_length : Z;
  stat_last_summarization : bool
}.

Definition get_statistics (m : t) : Statistics :=
  mk_statistics (len (message_buffer m)) (max_messages m) (total_messages m)
    (summarization_count m) (len (summarized_context m)) (last_summarization m).

End MemoryManager.

Module StateMemoryAdapter.

(** [sync_from_state]: every message of the state is added, on every
    call. *)
Definition sync_from_state (state : AgentState.t) (m : MemoryManager.t)
  : MemoryManager.t :=
  fold_left (fun acc message => MemoryManager.add_message message acc)
            (AgentState.messages state) m.

(** [get_context_for_agent]: the text and the memory after the sync. *)
Definition get_context_for_agent (agent_name : string) (state : AgentState.t)
  (max_tokens : Z) (m : MemoryManager.t) : pystr * MemoryManager.t :=
  let m' := sync_from_state state m in
  let context_parts :=
    [ code_points ("Current Task: " ++ AgentState.task state);
      code_points ("Workflow Status: " ++ status_str (AgentState.workflow_status state));
      code_points ("Current Agent: " ++ AgentState.current_agent state);
      code_points ("Iteration: " ++ str_int (AgentState.iteration_count state) ++ "/10");
      [];
      code_points "Recent Activity:";
      MemoryManager.get_conversation_history max_tokens m' ] in
  (join newline context_parts, m').

End StateMemoryAdapter.

(** ** [tools/web_search.py]: [WebSearchTool] *)

(** [s.split(sep)] for a separator of one character. *)
Fixpoint split_on (sep : ascii) (s : string) : list string :=
  match s with
  | EmptyString => [""]
  | String c s' =>
      if Ascii.eqb c sep then "" :: split_on sep s'
      else
        match split_on sep s' with
        | h :: t => String c h :: t
        | [] => [String c ""]
        end
  end.

(** A [dict] with [str] keys, in insertion order: [k in d] and [d[k]],
    [d[k] = v] (the value of an existing key is replaced where it stands,
    a new key goes to the end) and [del d[k]]. *)
Fixpoint dict_get {V : Type} (k : string) (d : list (string * V)) : option V :=
  match d with
  | [] => None
  | (k', v) :: d' => if String.eqb k' k then Some v else dict_get k d'
  end.

Fixpoint dict_set {V : Type} (k : string) (v : V) (d : list (string * V))
  : list (string * V) :=
  match d with
  | [] => [(k, v)]
  | (k', v') :: d' =>
      if String.eqb k' k then (k, v) :: d' else (k', v') :: dict_set k v d'
  end.

Definition dict_del {V : Type} (k : string) (d : list (string * V))
  : list (string * V) :=
  filter (fun kv => negb (String.eqb (fst kv) k)) d.

Module WebSearchTool.

(** [WebSearchResult]; the [timestamp] is left out. *)
Record WebSearchResult : Type := mk_result {
  title : string;
  url : string;
  snippet : string;
  source_domain : string;
  relevance_score : float
}.

(** An entry of [response['results']]; [None] is a missing key. *)
Record Item : Type := mk_item {
  i_title : option string;
  i_url : option string;
  i_content : option string;
  i_score : option float
}.

(** A call of [self.client.search], as the tool made it. *)
Record ApiCall : Type := mk_api_call {
  at_time : Q;
  api_query : string;
  api_max_results : Z
}.

(** The tool; [calls] is the record of the calls made, kept for the
    statements. *)
Record t : Type := mk {
  cache : list (string * list WebSearchResult);
  last_request_time : Q;
  rate_limit : Z;
  calls : list ApiCall
}.

(** [__init__]: an empty cache, [last_request_time = 0], ten requests
    per minute. *)
Definition init : t := mk [] 0%Q 10 [].

Definition on_tool (f : t -> t) : M (Timed t) unit :=
  modify (fun s => (fst s, f (snd s))).

Definition _enforce_rate_limit : M (Timed t) unit :=
  (current_time <- time_time ;;
   s <- get ;;
   let time_since_last_request := (current_time - last_request_time (snd s))%Q in
   if (rate_limit (snd s) =? 0)%Z then raise ZeroDivisionError
   else
     let min_interval := (60 / inject_Z (rate_limit (snd s)))%Q in
     (if Qlt_bool time_since_last_request min_interval
      then time_sleep (min_interval - time_since_last_request)%Q
      else ret tt) ;;
     now <- time_time ;;
     on_tool (fun a => mk (cache a) now (rate_limit a) (calls a)))%monad.

(** [url.split('/')[2] if len(url.split('/')) > 2 else 'unknown'] *)
Definition domain_of (url : string) : string :=
  let parts := split_on "/" url in
  if (2 <? len parts)%Z then nth 2 parts "unknown" else "unknown".

Definition parse_item (item : Item) : WebSearchResult :=
  let url := get_or (i_url item) "" in
  mk_result (get_or (i_title item) "No title")
            url
            (take_string 500 (get_or (i_content item) ""))
            (domain_of url)
            (get_or (i_score item) 0.0%float).

Section Client.

(** [self.client.search(query, max_results)]: how long the call takes
    and the entries of [response.get('results', [])], or the exception. *)
Variable client : string -> Z -> Q * Outcome (list Item).

Definition search (query : string) (num_results : Z)
  : M (Timed t) (list WebSearchResult) :=
  (s <- get ;;
   let cache_key := query ++ ":" ++ str_int num_results in
   match dict_get cache_key (cache (snd s)) with
   | Some results => ret results
   | None =>
       _enforce_rate_limit ;;
       now <- time_time ;;
       let max_results := Z.min num_results 10 in
       on_tool (fun a =>
         mk (cache a) (last_request_time a) (rate_limit a)
            (calls a ++ [mk_api_call now query max_results])%list) ;;
       elapse (fst (client query max_results)) ;;
       match snd (client query max_results) with
       | Returned items =>
           let results := map parse_item items in
           on_tool (fun a =>
             mk (dict_set cache_key results (cache a)) (last_request_time a)
                (rate_limit a) (calls a)) ;;
           ret results
       | Raised msg => raise (ExternalError msg)
       end
   end)%monad.

End Client.

End WebSearchTool.

(** A caller of the search tool: searches, with a failed search caught
    by the caller ([except Exception]), and other work in between. *)
Inductive SearchOp : Type :=
| OpSearch (query : string) (num_results : Z)
| OpWork (d : Q).

Definition search_op (client : string -> Z -> Q * Outcome (list WebSearchTool.Item))
  (op : SearchOp) : M (Timed WebSearchTool.t) unit :=
  match op with
  | OpSearch query num_results =>
      (_ <- try_except (WebSearchTool.search client query num_results)
                       (fun _ => ret []) ;;
       ret tt)%monad
  | OpWork d => elapse d
  end.

(** ** [config/settings.py]: the two field validators *)

(** [s.endswith(suffix)]: some tail of [s] is [suffix]. *)
Fixpoint endswith (suffix s : string) : bool :=
  String.eqb s suffix ||
  match s with
  | EmptyString => false
  | String _ s' => endswith suffix s'
  end.

Module Settings.

Definition valid_levels : list string :=
  ["DEBUG"; "INFO"; "WARNING"; "ERROR"; "CRITICAL"].

(** [validate_log_level]; [upper] is the one of ASCII letters. *)
Definition validate_log_level (v : string) : PyExn + string :=
  let v_upper := upper v in
  if negb (existsb (String.eqb v_upper) valid_levels)
  then inl (ValueError
         "log_level must be one of ['DEBUG', 'INFO', 'WARNING', 'ERROR', 'CRITICAL']")
  else inr v_upper.

Definition validate_endpoint (v : string) : PyExn + string :=
  if negb (String.prefix "https://" v)
  then inl (ValueError "azure_openai_endpoint must start with https://")
  else inr (if negb (endswith "/" v) then v ++ "/" else v).

End Settings.

(** ** [workflows/checkpointer.py]: the metadata of the checkpoints *)

Module MemoryCheckpointer.

(** An entry of [checkpoint_metadata]; the [timestamp] is left out. *)
Record Entry : Type := mk_entry {
  entry_metadata : list (string * string);
  state_keys : list string
}.

(** [self.checkpoint_metadata] *)
Definition t : Type := list (string * Entry).

(** [save_checkpoint]; [metadata or {}]. *)
Definition save_checkpoint {V : Type} (thread_id : string) (state : list (string * V))
  (metadata : option (list (string * string))) (c : t) : t :=
  dict_set thread_id (mk_entry (get_or metadata []) (map fst state)) c.

(** [list_checkpoints]: a copy. *)
Definition list_checkpoints (c : t) : t := c.

(** [clear_checkpoints]: [if thread_id:] is false for [None] and for
    [""]. *)
Definition clear_checkpoints (thread_id : option string) (c : t) : t :=
  match thread_id with
  | Some id =>
      if nonempty id
      then match dict_get id c with
           | Some _ => dict_del id c
           | None => c
           end
      else []
  | None => []
  end.

End MemoryCheckpointer.

(** ** [agents/researcher.py]: the steps of a research *)

Module ResearchSteps.

Section Collaborators.

(** What [_analyze_search_results] returns. *)
Variable Findings : Type.

(** [web_search_tool(query, num_results)]: the formatted results, or the
    exception of the search. *)
Variable web_search_tool : string -> Z -> Outcome string.

(** [_analyze_search_results(search_results, query)] and
    [_build_research_context(findings)]: local code, called outside the
    handlers of these steps. *)
Variable _analyze_search_results : string -> string -> Outcome Findings.
Variable _build_research_context : Findings -> Outcome string.

(** The [try] block of [_synthesize_research] for a query, a context,
    the findings and the search results: the model call, the sources,
    their validation and the score. *)
Variable synthesis : string -> string -> Findings -> string -> Outcome ResearchOutput.

(** [_perform_search]: a failed search is caught and its text returned
    in place of the results. *)
Definition _perform_search (query : string) (num_results : Z) : string :=
  match web_search_tool query num_results with
  | Returned results => results
  | Raised msg => "Search failed: " ++ msg
  end.

(** [_synthesize_research]: a failure of the [try] block is caught and a
    stand-in output returned. *)
Definition _synthesize_research (query : string) (findings : Findings)
  (search_results : string) : Outcome ResearchOutput :=
  match _build_research_context findings with
  | Returned context =>
      Returned
        match synthesis query context findings search_results with
        | Returned research_output => research_output
        | Raised msg => mk_research ("Synthesis failed: " ++ msg) [] 0.0%float [] ""
        end
  | Raised msg => Raised msg
  end.

(** The three steps in the [try] block of [execute]: what
    [ResearcherAgent.execute] takes as [do_research]. *)
Definition do_research (query : string) : Outcome ResearchOutput :=
  let search_results := _perform_search query 5 in
  match _analyze_search_results search_results query with
  | Returned findings => _synthesize_research query findings search_results
  | Raised msg => Raised msg
  end.

End Collaborators.

End ResearchSteps.

(* ================================================================== *)
(** * Part II: theorems                                                *)
(* ================================================================== *)

Local Close Scope string_scope.
Local Open Scope Q_scope.

(** ** Invariants of monadic code *)

Section Preserves.

Context {S : Type}.

(** [m] keeps [I], whatever way it ends. *)
Definition preserves {A : Type} (I : S -> Prop) (m : M S A) : Prop :=
  forall s, I s -> I (snd (m s)).

Lemma preserves_ret {A : Type} (I : S -> Prop) (a : A) : preserves I (ret a).
Proof. intros s H. exact H. Qed.

Lemma preserves_raise {A : Type} (I : S -> Prop) (e : PyExn) :
  preserves I (@raise S A e).
Proof. intros s H. exact H. Qed.

Lemma preserves_spin {A : Type} (I : S -> Prop) : preserves I (@spin S A).
Proof. intros s H. exact H. Qed.

Lemma preserves_get (I : S -> Prop) : preserves I get.
Proof. intros s H. exact H. Qed.

Lemma preserves_modify (I : S -> Prop) (f : S -> S) :
  (forall s, I s -> I (f s)) -> preserves I (modify f).
Proof. intros Hf s H. apply Hf, H. Qed.

Lemma preserves_bind {A B : Type} (I : S -> Prop) (m : M S A) (k : A -> M S B) :
  preserves I m -> (forall a, preserves I (k a)) -> preserves I (bind m k).
Proof.
  intros Hm Hk s H. unfold bind.
  specialize (Hm s H). destruct (m s) as [[a | e |] s']; simpl in *; auto.
  apply Hk, Hm.
Qed.

Lemma preserves_try_except {A : Type} (I : S -> Prop) (m : M S A)
  (h : PyExn -> M S A) :
  preserves I m -> (forall e, preserves I (h e)) -> preserves I (try_except m h).
Proof.
  intros Hm Hh s H. unfold try_except.
  specialize (Hm s H). destruct (m s) as [[a | e |] s']; simpl in *; auto.
  apply Hh, Hm.
Qed.

Lemma preserves_if {A : Type} (I : S -> Prop) (b : bool) (m1 m2 : M S A) :
  preserves I m1 -> preserves I m2 -> preserves I (if b then m1 else m2).
Proof. destruct b; auto. Qed.

Lemma preserves_run_ops {Op : Type} (I : S -> Prop) (step : Op -> M S unit)
  (ops : list Op) :
  (forall op, In op ops -> preserves I (step op)) -> preserves I (run_ops step ops).
Proof.
  induction ops as [| op ops IH]; intros H; simpl.
  - apply preserves_ret.
  - apply preserves_bind.
    + apply H. now left.
    + intros _. apply IH. intros op' Hin. apply H. now right.
Qed.

End Preserves.

(** An invariant of the whole that every write-back of the part keeps is
    kept by code run on the part. *)
Lemma preserves_zoom {S T A : Type} (I : S -> Prop) (J : T -> Prop)
  (proj : S -> T) (inj : T -> S -> S) (m : M T A) :
  (forall s, I s -> J (proj s)) ->
  (forall s t', I s -> J t' -> I (inj t' s)) ->
  preserves J m ->
  preserves I (zoom proj inj m).
Proof.
  intros Hp Hi Hm s H. unfold zoom.
  specialize (Hm (proj s) (Hp s H)).
  destruct (m (proj s)) as [r t']. simpl in *. auto.
Qed.

Create HintDb pres.

#[local] Hint Resolve preserves_ret preserves_raise preserves_spin preserves_get
  preserves_bind preserves_if : pres.

(** ** The token bucket *)

Lemma Qlt_bool_iff (x y : Q) : Qlt_bool x y = true <-> x < y.
Proof.
  unfold Qlt_bool. rewrite negb_true_iff.
  split; intros H.
  - apply Qnot_le_lt. intros Hle. apply Qle_bool_iff in Hle. congruence.
  - destruct (Qle_bool y x) eqn:E; [| reflexivity].
    apply Qle_bool_iff in E. exfalso. apply (Qlt_not_le _ _ H E).
Qed.

Lemma Qlt_bool_false_iff (x y : Q) : Qlt_bool x y = false <-> y <= x.
Proof.
  unfold Qlt_bool. rewrite negb_false_iff. apply Qle_bool_iff.
Qed.

Lemma Qle_bool_false_iff (x y : Q) : Qle_bool x y = false <-> y < x.
Proof.
  rewrite <- Qlt_bool_iff. unfold Qlt_bool. now rewrite negb_true_iff.
Qed.

Lemma inject_Z_nonneg (n : Z) : (0 <= n)%Z -> 0 <= inject_Z n.
Proof. intros H. unfold Qle. simpl. lia. Qed.

(** The token count of a bucket lies in [[0, capacity]]. *)
Definition within_capacity (b : TokenBucket.t) : Prop :=
  0 <= TokenBucket.tokens b <= inject_Z (TokenBucket.capacity b).

(** What the bucket and the clock satisfy between calls. *)
Definition bucket_inv (s : Timed TokenBucket.t) : Prop :=
  0 <= TokenBucket.refill_rate (snd s) /\
  TokenBucket.last_refill (snd s) <= fst s /\
  within_capacity (snd s).

Lemma later_correct (now d : Q) : later now d == now + d.
Proof. apply Qred_correct. Qed.

Lemma refill_tokens (now : Q) (b : TokenBucket.t) :
  TokenBucket.tokens (TokenBucket._refill now b) ==
  Qmin (inject_Z (TokenBucket.capacity b))
       (TokenBucket.tokens b +
        (now - TokenBucket.last_refill b) * TokenBucket.refill_rate b).
Proof. apply Qred_correct. Qed.

Lemma refill_never_exceeds_capacity (now : Q) (b : TokenBucket.t) :
  TokenBucket.tokens (TokenBucket._refill now b) <= inject_Z (TokenBucket.capacity b).
Proof. rewrite refill_tokens. apply Q.le_min_l. Qed.

Lemma refill_within_capacity (now : Q) (b : TokenBucket.t) :
  0 <= TokenBucket.refill_rate b ->
  TokenBucket.last_refill b <= now ->
  within_capacity b ->
  within_capacity (TokenBucket._refill now b).
Proof.
  intros Hr Ht [H0 Hc]. unfold within_capacity. split.
  - rewrite refill_tokens. apply Q.min_glb.
    + eapply Qle_trans; eassumption.
    + assert (0 <= (now - TokenBucket.last_refill b) * TokenBucket.refill_rate b).
      { apply Qmult_le_0_compat; [lra | assumption]. }
      lra.
  - exact (refill_never_exceeds_capacity now b).
Qed.

Lemma bucket_inv_refill (s : Timed TokenBucket.t) :
  bucket_inv s -> bucket_inv (fst s, TokenBucket._refill (fst s) (snd s)).
Proof.
  intros (Hr & Ht & Hw). split; [exact Hr |]. split; [apply Qle_refl |].
  apply (refill_within_capacity (fst s) (snd s) Hr Ht Hw).
Qed.

Lemma preserves_refill : preserves bucket_inv TokenBucket.refill.
Proof. intros s H. apply bucket_inv_refill, H. Qed.

Lemma preserves_consume (n : Z) :
  (0 <= n)%Z -> preserves bucket_inv (TokenBucket.consume n).
Proof.
  intros Hn s H. unfold TokenBucket.consume.
  pose proof (bucket_inv_refill s H) as (Hr & Ht & H0 & Hc).
  cbn [fst snd] in Hr, Ht, H0, Hc.
  set (b := TokenBucket._refill (fst s) (snd s)) in *. clearbody b.
  destruct (Qle_bool _ _) eqn:E; cbn [fst snd].
  - apply Qle_bool_iff in E.
    pose proof (inject_Z_nonneg n Hn).
    split; [exact Hr |]. split; [exact Ht |].
    unfold within_capacity. cbn. split; lra.
  - split; [exact Hr |]. split; [exact Ht |]. split; assumption.
Qed.

Lemma preserves_time_sleep {S : Type} (I : Timed S -> Prop) (d : Q) :
  (forall s, 0 <= d -> I s -> I (later (fst s) d, snd s)) ->
  preserves I (time_sleep d).
Proof.
  intros Hd s H. unfold time_sleep.
  destruct (Qlt_bool d 0) eqn:E; simpl; [exact H |].
  apply Hd; [| exact H]. now apply Qlt_bool_false_iff.
Qed.

Lemma bucket_inv_later (s : Timed TokenBucket.t) (d : Q) :
  0 <= d -> bucket_inv s -> bucket_inv (later (fst s) d, snd s).
Proof.
  intros Hd (Hr & Ht & Hw). split; [exact Hr |]. split; [| exact Hw].
  cbn [fst snd]. rewrite later_correct. lra.
Qed.

Lemma preserves_time_time {S : Type} (I : Timed S -> Prop) :
  preserves I time_time.
Proof. intros s H. exact H. Qed.

Lemma preserves_bucket_sleep (d : Q) : preserves bucket_inv (time_sleep d).
Proof.
  apply preserves_time_sleep. intros s Hd. now apply bucket_inv_later.
Qed.

#[local] Hint Resolve preserves_refill preserves_consume preserves_time_time
  preserves_bucket_sleep : pres.

Lemma preserves_wait_step (n : Z) : preserves bucket_inv (TokenBucket.wait_step n).
Proof. unfold TokenBucket.wait_step. auto 7 with pres. Qed.

#[local] Hint Resolve preserves_wait_step : pres.

Lemma preserves_wait_loop (fuel : nat) (n : Z) (timeout : option Q) (start : Q) :
  (0 <= n)%Z -> preserves bucket_inv (TokenBucket.wait_loop fuel n timeout start).
Proof.
  intros Hn. induction fuel as [| fuel IH]; simpl.
  - apply preserves_spin.
  - apply preserves_bind; [auto with pres | intros ok].
    destruct ok; auto 7 with pres.
Qed.

Lemma preserves_wait_for_tokens (fuel : nat) (n : Z) (timeout : option Q) :
  (0 <= n)%Z -> preserves bucket_inv (TokenBucket.wait_for_tokens fuel n timeout).
Proof.
  intros Hn. unfold TokenBucket.wait_for_tokens.
  auto using preserves_wait_loop with pres.
Qed.

Lemma preserves_available_tokens : preserves bucket_inv TokenBucket.available_tokens.
Proof.
  unfold TokenBucket.available_tokens. auto 7 with pres.
Qed.

(** The calls a caller can make: amounts and waits are not negative. *)
Definition bucket_op_ok (op : BucketOp) : Prop :=
  match op with
  | OpConsume n => (0 <= n)%Z
  | OpWaitForTokens n _ => (0 <= n)%Z
  | OpElapse d => 0 <= d
  | OpRefill | OpAvailableTokens => True
  end.

Lemma preserves_bucket_op (fuel : nat) (op : BucketOp) :
  bucket_op_ok op -> preserves bucket_inv (bucket_op fuel op).
Proof.
  destruct op as [n | n timeout | | | d]; simpl; intros Hok;
    auto using preserves_wait_for_tokens, preserves_available_tokens with pres.
  apply preserves_modify. intros s. now apply bucket_inv_later.
Qed.

(** C10. [consume] is all or nothing: it answers [True] and takes exactly
    [n] from the refilled count, or answers [False] and leaves the
    refilled count as it is; nothing else of the bucket changes, and no
    other count can result. *)
Theorem consume_all_or_nothing (n : Z) (s : Timed TokenBucket.t) :
  let refilled := TokenBucket._refill (fst s) (snd s) in
  let r := fst (TokenBucket.consume n s) in
  let after := snd (snd (TokenBucket.consume n s)) in
  ((r = Ret true /\
    inject_Z n <= TokenBucket.tokens refilled /\
    TokenBucket.tokens after = TokenBucket.tokens refilled - inject_Z n)
   \/
   (r = Ret false /\
    TokenBucket.tokens refilled < inject_Z n /\
    TokenBucket.tokens after = TokenBucket.tokens refilled))
  /\ TokenBucket.capacity after = TokenBucket.capacity refilled
  /\ TokenBucket.refill_rate after = TokenBucket.refill_rate refilled
  /\ TokenBucket.last_refill after = TokenBucket.last_refill refilled
  /\ fst (snd (TokenBucket.consume n s)) = fst s.
Proof.
  unfold TokenBucket.consume.
  destruct (Qle_bool _ _) eqn:E; cbn -[TokenBucket._refill Qminus].
  - repeat split. left. repeat split. now apply Qle_bool_iff.
  - repeat split. right. repeat split. now apply Qle_bool_false_iff.
Qed.

(** C7. After any sequence of [consume], [wait_for_tokens], refill and
    [available_tokens] calls on a fresh bucket, with any time passing in
    between, the token count is within [[0, capacity]].  This holds at
    the end of every call, and also where a call raised or is still
    waiting. *)
Theorem bucket_tokens_within_capacity (fuel : nat) (capacity : Z)
  (refill_rate now : Q) (ops : list BucketOp) :
  (0 <= capacity)%Z ->
  0 <= refill_rate ->
  Forall bucket_op_ok ops ->
  within_capacity
    (snd (snd (run_ops (bucket_op fuel) ops
                 (now, TokenBucket.init capacity refill_rate now)))).
Proof.
  intros Hc Hr Hops.
  assert (H : bucket_inv (snd (run_ops (bucket_op fuel) ops
                     (now, TokenBucket.init capacity refill_rate now)))).
  { apply preserves_run_ops.
    - intros op Hin. apply preserves_bucket_op.
      rewrite Forall_forall in Hops. now apply Hops.
    - repeat split; simpl; try assumption; try apply Qle_refl.
      now apply inject_Z_nonneg. }
  apply H.
Qed.

Definition bucket_ops_example : list BucketOp :=
  [ OpConsume 30; OpElapse 10; OpConsume 50; OpWaitForTokens 50 (Some 5);
    OpRefill; OpAvailableTokens; OpWaitForTokens 70 None ].

Lemma bucket_tokens_within_capacity_witness :
  within_capacity
    (snd (snd (run_ops (bucket_op 100) bucket_ops_example
                 (0, TokenBucket.init 60 1 0)))).
Proof.
  apply (bucket_tokens_within_capacity 100 60 1 0 bucket_ops_example).
  - lia.
  - discriminate.
  - unfold bucket_ops_example.
    repeat (apply Forall_cons || apply Forall_nil); simpl;
      solve [lia | exact I | discriminate].
Defined.

(** ** Pre- and postconditions of monadic code *)

Section Triple.

Context {S : Type}.

(** From a state in [P], [m] ends in a state in [Q a] when it returns [a],
    and in a state in [E] when it raises or never leaves a loop. *)
Definition triple {A : Type} (P : S -> Prop) (m : M S A)
  (Q : A -> S -> Prop) (E : S -> Prop) : Prop :=
  forall s, P s ->
    match m s with
    | (Ret a, s') => Q a s'
    | (_, s') => E s'
    end.

Lemma triple_ret {A : Type} (P : S -> Prop) (a : A) (Q : A -> S -> Prop)
  (E : S -> Prop) :
  (forall s, P s -> Q a s) -> triple P (ret a) Q E.
Proof. intros H s Hs. simpl. auto. Qed.

Lemma triple_bind {A B : Type} (P : S -> Prop) (m : M S A) (k : A -> M S B)
  (Q1 : A -> S -> Prop) (Q2 : B -> S -> Prop) (E : S -> Prop) :
  triple P m Q1 E ->
  (forall a, triple (Q1 a) (k a) Q2 E) ->
  triple P (bind m k) Q2 E.
Proof.
  intros Hm Hk s Hs. unfold bind. specialize (Hm s Hs).
  destruct (m s) as [[a | e |] s']; auto.
  apply (Hk a s' Hm).
Qed.

Lemma triple_conseq {A : Type} (P P' : S -> Prop) (m : M S A)
  (Q Q' : A -> S -> Prop) (E E' : S -> Prop) :
  triple P' m Q' E' ->
  (forall s, P s -> P' s) ->
  (forall a s, Q' a s -> Q a s) ->
  (forall s, E' s -> E s) ->
  triple P m Q E.
Proof.
  intros Hm HP HQ HE s Hs. specialize (Hm s (HP s Hs)).
  destruct (m s) as [[a | e |] s']; auto.
Qed.

Lemma triple_of_preserves {A : Type} (I : S -> Prop) (m : M S A) :
  preserves I m -> triple I m (fun _ => I) I.
Proof.
  intros H s Hs. specialize (H s Hs). destruct (m s) as [[a | e |] s']; exact H.
Qed.

End Triple.

Lemma triple_zoom {S T A : Type} (proj : S -> T) (inj : T -> S -> S) (m : M T A)
  (P : S -> Prop) (Q : A -> S -> Prop) (E : S -> Prop)
  (P' : T -> Prop) (Q' : A -> T -> Prop) (E' : T -> Prop) :
  triple P' m Q' E' ->
  (forall s, P s -> P' (proj s)) ->
  (forall s a t', P s -> Q' a t' -> Q a (inj t' s)) ->
  (forall s t', P s -> E' t' -> E (inj t' s)) ->
  triple P (zoom proj inj m) Q E.
Proof.
  intros Hm HP HQ HE s Hs. unfold zoom. specialize (Hm (proj s) (HP s Hs)).
  destruct (m (proj s)) as [[a | e |] t']; auto.
Qed.

(** ** The concurrency counter *)

Local Open Scope Z_scope.

Section Counter.

(** The bound the limiter was configured with. *)
Variable c : Z.

(** [active_requests] lies in [[0, max_concurrent]]. *)
Definition counter_in_bounds (s : Timed RateLimiter.t) : Prop :=
  RateLimiter.max_concurrent (snd s) = c /\
  0 <= RateLimiter.active_requests (snd s) <= c.

(** A slot is held: what [acquire] has between claiming and settling. *)
Definition slot_held (s : Timed RateLimiter.t) : Prop :=
  RateLimiter.max_concurrent (snd s) = c /\
  1 <= RateLimiter.active_requests (snd s) <= c.

Lemma slot_held_in_bounds (s : Timed RateLimiter.t) :
  slot_held s -> counter_in_bounds s.
Proof. unfold slot_held, counter_in_bounds. lia. Qed.

Lemma slot_loop_counter (fuel : nat) (timeout : option Q) (start : Q) :
  triple counter_in_bounds (RateLimiter.slot_loop fuel timeout start)
    (fun claimed s => if claimed : bool then slot_held s else counter_in_bounds s)
    counter_in_bounds.
Proof.
  induction fuel as [| fuel IH]; intros s Hs; simpl.
  - exact Hs.
  - unfold bind at 1, get.
    destruct (RateLimiter.active_requests (snd s) <? RateLimiter.max_concurrent (snd s))
      eqn:E.
    + apply Z.ltb_lt in E. cbn. unfold counter_in_bounds in Hs.
      unfold slot_held. simpl. lia.
    + unfold bind at 1, time_time.
      destruct (timed_out timeout _); [exact Hs |].
      unfold bind at 1, time_sleep.
      destruct (Qlt_bool _ _); [exact Hs |].
      apply IH. exact Hs.
Qed.

Lemma bucket_wait_keeps_slot {A : Type} (m : M (Timed TokenBucket.t) A) :
  preserves slot_held (RateLimiter.on_request_bucket m) /\
  preserves slot_held (RateLimiter.on_token_bucket m).
Proof.
  split; apply (preserves_zoom _ (fun _ => True)); auto;
    intros s _; exact I.
Qed.

Lemma triple_on_limiter (f : RateLimiter.t -> RateLimiter.t)
  (P Q E : Timed RateLimiter.t -> Prop) :
  (forall s, P s -> Q (fst s, f (snd s))) ->
  triple P (RateLimiter.on_limiter f) (fun _ => Q) E.
Proof. intros H s Hs. cbn. auto. Qed.

Lemma acquire_counter (fuel : nat) (n : Z) (timeout : option Q) :
  preserves counter_in_bounds (RateLimiter.acquire fuel n timeout).
Proof.
  assert (T : triple counter_in_bounds (RateLimiter.acquire fuel n timeout)
                (fun _ => counter_in_bounds) counter_in_bounds).
  { unfold RateLimiter.acquire.
    eapply triple_bind.
    { apply triple_of_preserves, preserves_time_time. }
    intros start. eapply triple_bind; [apply slot_loop_counter |].
    intros [|]; simpl; [| apply triple_ret; auto].
    eapply triple_conseq with (P' := slot_held) (Q' := fun _ => counter_in_bounds)
                              (E' := slot_held);
      auto using slot_held_in_bounds.
    eapply triple_bind.
    { apply triple_of_preserves, bucket_wait_keeps_slot. }
    intros ra. eapply triple_bind.
    { apply triple_of_preserves, bucket_wait_keeps_slot. }
    intros ta. destruct (negb (ra && ta)).
    - eapply triple_bind with (Q1 := fun _ => counter_in_bounds).
      + apply triple_on_limiter. intros s Hs.
        unfold slot_held in Hs. unfold counter_in_bounds. simpl. lia.
      + intros _. apply triple_ret. auto.
    - eapply triple_bind.
      { apply triple_of_preserves, preserves_time_time. }
      intros now. eapply triple_bind with (Q1 := fun _ => counter_in_bounds).
      + apply triple_on_limiter. intros s Hs.
        apply slot_held_in_bounds in Hs. exact Hs.
      + intros _. apply triple_ret. auto. }
  intros s Hs. specialize (T s Hs).
  destruct (RateLimiter.acquire _ _ _ s) as [[|e|] s']; exact T.
Qed.

Lemma release_counter (actual_tokens : option Z) :
  preserves counter_in_bounds (RateLimiter.release actual_tokens).
Proof.
  intros s Hs. unfold counter_in_bounds in *. cbn. lia.
Qed.

Lemma preserves_limiter_op (fuel : nat) (op : LimiterOp) :
  preserves counter_in_bounds (limiter_op fuel op).
Proof.
  destruct op as [n timeout | a | d]; simpl.
  - apply preserves_bind; [apply acquire_counter | intros; apply preserves_ret].
  - apply release_counter.
  - apply preserves_modify. intros s Hs. exact Hs.
Qed.

End Counter.

(** C8. After any sequence of [acquire] and [release] calls on a fresh
    limiter, however the calls end and however many more releases than
    acquisitions there are, [active_requests] is at least zero and at
    most [max_concurrent], the bound of the configuration. *)
Theorem active_requests_in_bounds (fuel : nat) (config : RateLimitConfig.t)
  (now : Q) (ops : list LimiterOp) :
  0 <= RateLimitConfig.max_concurrent config ->
  let r := snd (snd (run_ops (limiter_op fuel) ops (now, RateLimiter.init config now))) in
  RateLimiter.max_concurrent r = RateLimitConfig.max_concurrent config /\
  0 <= RateLimiter.active_requests r <= RateLimiter.max_concurrent r.
Proof.
  intros Hmax r.
  assert (H : counter_in_bounds (RateLimitConfig.max_concurrent config)
                (snd (run_ops (limiter_op fuel) ops (now, RateLimiter.init config now)))).
  { apply preserves_run_ops.
    - intros op _. apply preserves_limiter_op.
    - unfold counter_in_bounds. simpl. lia. }
  destruct H as [Hm Ha]. subst r. rewrite Hm. auto.
Qed.

Definition limiter_ops_example : list LimiterOp :=
  [ OpRelease None; OpAcquire 1000 (Some 30%Q); OpAcquire 1000 (Some 30%Q);
    OpAcquire 1000 (Some (1 # 2)); OpRelease None; OpRelease (Some 700);
    OpRelease None; OpRelease None; OpPass 5%Q; OpAcquire 5000 None ].

Lemma active_requests_in_bounds_witness :
  let r := snd (snd (run_ops (limiter_op 400) limiter_ops_example
                       (0%Q, RateLimiter.init (RateLimitConfig.mk 60 3000 2) 0%Q))) in
  RateLimiter.max_concurrent r = 2 /\
  0 <= RateLimiter.active_requests r <= RateLimiter.max_concurrent r.
Proof.
  apply (active_requests_in_bounds 400 (RateLimitConfig.mk 60 3000 2) 0%Q
           limiter_ops_example).
  simpl. lia.
Defined.

(** ** What [acquire] leaves behind *)

Lemma slot_loop_result (fuel : nat) (timeout : option Q) (start : Q)
  (s s1 : Timed RateLimiter.t) (claimed : bool) :
  RateLimiter.slot_loop fuel timeout start s = (Ret claimed, s1) ->
  snd s1 =
    if claimed
    then RateLimiter.set_active_requests (RateLimiter.active_requests (snd s) + 1) (snd s)
    else snd s.
Proof.
  revert s. induction fuel as [| fuel IH]; intros s; simpl.
  - discriminate.
  - unfold bind at 1, get.
    destruct (RateLimiter.active_requests (snd s) <? RateLimiter.max_concurrent (snd s)).
    + cbn. intros H. injection H as <- <-. reflexivity.
    + unfold bind at 1, time_time.
      destruct (timed_out timeout _).
      * cbn. intros H. injection H as <- <-. reflexivity.
      * unfold bind at 1, time_sleep.
        destruct (Qlt_bool _ _); [discriminate |].
        intros H. apply IH in H. exact H.
Qed.

Lemma consume_charged (n : Z) (s s' : Timed TokenBucket.t) :
  TokenBucket.consume n s = (Ret true, s') ->
  TokenBucket.capacity (snd s') = TokenBucket.capacity (snd s) /\
  (TokenBucket.tokens (snd s') <=
   inject_Z (TokenBucket.capacity (snd s)) - inject_Z n)%Q.
Proof.
  unfold TokenBucket.consume.
  pose proof (refill_never_exceeds_capacity (fst s) (snd s)) as Hc.
  assert (Hcap : TokenBucket.capacity (TokenBucket._refill (fst s) (snd s)) =
                 TokenBucket.capacity (snd s)) by reflexivity.
  set (b := TokenBucket._refill (fst s) (snd s)) in *. clearbody b.
  destruct (Qle_bool _ _); [| discriminate].
  intros H. injection H as <-. cbn. split; [exact Hcap | lra].
Qed.

Lemma consume_capacity (n : Z) (s : Timed TokenBucket.t) :
  TokenBucket.capacity (snd (snd (TokenBucket.consume n s))) =
  TokenBucket.capacity (snd s).
Proof.
  unfold TokenBucket.consume. destruct (Qle_bool _ _); reflexivity.
Qed.

Lemma wait_step_capacity (n : Z) (s : Timed TokenBucket.t) :
  TokenBucket.capacity (snd (snd (TokenBucket.wait_step n s))) =
  TokenBucket.capacity (snd s).
Proof.
  unfold TokenBucket.wait_step, bind, TokenBucket.refill, get, raise, time_sleep.
  simpl. destruct (Qeq_bool _ _); [reflexivity |].
  destruct (Qlt_bool _ _); reflexivity.
Qed.

(** A wait that answers [True] has taken its tokens out of the bucket. *)
Lemma wait_loop_charged (fuel : nat) (n : Z) (timeout : option Q) (start : Q)
  (s s' : Timed TokenBucket.t) :
  TokenBucket.wait_loop fuel n timeout start s = (Ret true, s') ->
  TokenBucket.capacity (snd s') = TokenBucket.capacity (snd s) /\
  (TokenBucket.tokens (snd s') <=
   inject_Z (TokenBucket.capacity (snd s)) - inject_Z n)%Q.
Proof.
  revert s. induction fuel as [| fuel IH]; intros s; simpl.
  - discriminate.
  - unfold bind at 1.
    destruct (TokenBucket.consume n s) as [[[|] | e |] s0] eqn:Ec; try discriminate.
    + cbn. intros H. injection H as <-. now apply consume_charged.
    + pose proof (consume_capacity n s) as Hc0. rewrite Ec in Hc0. simpl in Hc0.
      unfold bind at 1, time_time.
      destruct (timed_out timeout _); [discriminate |].
      unfold bind at 1.
      pose proof (wait_step_capacity n s0) as Hc1.
      destruct (TokenBucket.wait_step n s0) as [[[] | e |] s1]; try discriminate.
      simpl in Hc1. intros H. apply IH in H. rewrite Hc1, Hc0 in H. exact H.
Qed.

Lemma wait_for_tokens_charged (fuel : nat) (n : Z) (timeout : option Q)
  (s s' : Timed TokenBucket.t) :
  TokenBucket.wait_for_tokens fuel n timeout s = (Ret true, s') ->
  TokenBucket.capacity (snd s') = TokenBucket.capacity (snd s) /\
  (TokenBucket.tokens (snd s') <=
   inject_Z (TokenBucket.capacity (snd s)) - inject_Z n)%Q.
Proof.
  unfold TokenBucket.wait_for_tokens, bind, time_time. apply wait_loop_charged.
Qed.

Lemma on_request_bucket_result {A : Type} (m : M (Timed TokenBucket.t) A)
  (s s' : Timed RateLimiter.t) (r : Res A) :
  RateLimiter.on_request_bucket m s = (r, s') ->
  exists t', m (fst s, RateLimiter.request_bucket (snd s)) = (r, t') /\
             s' = (fst t', RateLimiter.set_request_bucket (snd t') (snd s)).
Proof.
  unfold RateLimiter.on_request_bucket, zoom. simpl.
  destruct (m _) as [r0 t']. intros H. injection H as <- <-. eauto.
Qed.

Lemma on_token_bucket_result {A : Type} (m : M (Timed TokenBucket.t) A)
  (s s' : Timed RateLimiter.t) (r : Res A) :
  RateLimiter.on_token_bucket m s = (r, s') ->
  exists t', m (fst s, RateLimiter.token_bucket (snd s)) = (r, t') /\
             s' = (fst t', RateLimiter.set_token_bucket (snd t') (snd s)).
Proof.
  unfold RateLimiter.on_token_bucket, zoom. simpl.
  destruct (m _) as [r0 t']. intros H. injection H as <- <-. eauto.
Qed.

(** C3, as the code has it.  Take a call of [acquire] that has claimed a
    slot and in which both waits have answered.  It succeeds exactly when
    both buckets supplied.  On success the counter is one up and both
    buckets are charged.  On failure the counter is back at its value
    before the call, so the slot is released; the buckets are left as the
    waits left them, so a bucket that did supply stays charged. *)
Theorem acquire_settles_slot_not_tokens (fuel : nat) (estimated_tokens : Z)
  (timeout : option Q) (s s1 s2 s3 : Timed RateLimiter.t)
  (request_acquired token_acquired : bool) :
  RateLimiter.slot_loop fuel timeout (fst s) s = (Ret true, s1) ->
  RateLimiter.on_request_bucket (TokenBucket.wait_for_tokens fuel 1 timeout) s1
    = (Ret request_acquired, s2) ->
  RateLimiter.on_token_bucket
    (TokenBucket.wait_for_tokens fuel estimated_tokens timeout) s2
    = (Ret token_acquired, s3) ->
  let r := RateLimiter.acquire fuel estimated_tokens timeout s in
  let after := snd (snd r) in
  fst r = Ret (request_acquired && token_acquired) /\
  RateLimiter.active_requests after =
    RateLimiter.active_requests (snd s) +
    (if request_acquired && token_acquired then 1 else 0) /\
  RateLimiter.request_bucket after = RateLimiter.request_bucket (snd s2) /\
  RateLimiter.token_bucket after = RateLimiter.token_bucket (snd s3) /\
  (request_acquired = true ->
   (TokenBucket.tokens (RateLimiter.request_bucket after) <=
    inject_Z (TokenBucket.capacity (RateLimiter.request_bucket (snd s))) - 1)%Q) /\
  (token_acquired = true ->
   (TokenBucket.tokens (RateLimiter.token_bucket after) <=
    inject_Z (TokenBucket.capacity (RateLimiter.token_bucket (snd s)))
    - inject_Z estimated_tokens)%Q).
Proof.
  intros H1 H2 H3 r after.
  pose proof (slot_loop_result _ _ _ _ _ _ H1) as E1. simpl in E1.
  destruct (on_request_bucket_result _ _ _ _ H2) as (t2 & W2 & E2).
  destruct (on_token_bucket_result _ _ _ _ H3) as (t3 & W3 & E3).
  assert (Hr : r =
    if negb (request_acquired && token_acquired)
    then (Ret false,
          (fst s3, RateLimiter.set_active_requests
                     (RateLimiter.active_requests (snd s3) - 1) (snd s3)))
    else (Ret true,
          (fst s3, RateLimiter.set_request_history
                     (RateLimiter.deque_append 1000
                        (RateLimiter.mk_entry (fst s3) estimated_tokens)
                        (RateLimiter.request_history (snd s3))) (snd s3)))).
  { subst r. unfold RateLimiter.acquire.
    unfold bind at 1, time_time. unfold bind at 1. rewrite H1.
    cbn [negb]. unfold bind at 1. rewrite H2. unfold bind at 1. rewrite H3.
    destruct (negb (request_acquired && token_acquired)); reflexivity. }
  assert (Hreq : request_acquired = true ->
    (TokenBucket.tokens (RateLimiter.request_bucket (snd s3)) <=
     inject_Z (TokenBucket.capacity (RateLimiter.request_bucket (snd s))) - 1)%Q).
  { intros ->. apply wait_for_tokens_charged in W2. simpl in W2.
    rewrite E3, E2. simpl. rewrite E1 in W2. simpl in W2.
    destruct W2 as [_ W2]. exact W2. }
  assert (Htok : token_acquired = true ->
    (TokenBucket.tokens (RateLimiter.token_bucket (snd s3)) <=
     inject_Z (TokenBucket.capacity (RateLimiter.token_bucket (snd s)))
     - inject_Z estimated_tokens)%Q).
  { intros ->. apply wait_for_tokens_charged in W3. simpl in W3.
    rewrite E3. simpl. rewrite E2 in W3. simpl in W3. rewrite E1 in W3.
    simpl in W3. destruct W3 as [_ W3]. exact W3. }
  assert (Hact : RateLimiter.active_requests (snd s3) =
                 RateLimiter.active_requests (snd s) + 1).
  { rewrite E3, E2. simpl. rewrite E1. reflexivity. }
  assert (Hrb : RateLimiter.request_bucket (snd s3) = RateLimiter.request_bucket (snd s2)).
  { rewrite E3. reflexivity. }
  subst after. rewrite Hr.
  destruct (request_acquired && token_acquired); cbn [negb fst snd];
    simpl; repeat split; auto; lia.
Qed.

(** A limiter whose cost bucket can never supply what is asked: capacity
    1000, request for 2000, timeout a twentieth of a second. *)
Definition starved_limiter : Timed RateLimiter.t :=
  (0%Q, RateLimiter.init (RateLimitConfig.mk 60 1000 5) 0%Q).

Definition starved_timeout : option Q := Some (1 # 20)%Q.

Definition starved_s1 : Timed RateLimiter.t :=
  snd (RateLimiter.slot_loop 50 starved_timeout 0%Q starved_limiter).

Definition starved_s2 : Timed RateLimiter.t :=
  snd (RateLimiter.on_request_bucket
         (TokenBucket.wait_for_tokens 50 1 starved_timeout) starved_s1).

Definition starved_s3 : Timed RateLimiter.t :=
  snd (RateLimiter.on_token_bucket
         (TokenBucket.wait_for_tokens 50 2000 starved_timeout) starved_s2).

Lemma acquire_settles_slot_not_tokens_witness :
  let r := RateLimiter.acquire 50 2000 starved_timeout starved_limiter in
  let after := snd (snd r) in
  fst r = Ret (true && false) /\
  RateLimiter.active_requests after = 0 + (if true && false then 1 else 0) /\
  RateLimiter.request_bucket after = RateLimiter.request_bucket (snd starved_s2) /\
  RateLimiter.token_bucket after = RateLimiter.token_bucket (snd starved_s3) /\
  (true = true ->
   (TokenBucket.tokens (RateLimiter.request_bucket after) <= inject_Z 60 - 1)%Q) /\
  (false = true ->
   (TokenBucket.tokens (RateLimiter.token_bucket after) <=
    inject_Z 1000 - inject_Z 2000)%Q).
Proof.
  apply (acquire_settles_slot_not_tokens 50 2000 starved_timeout starved_limiter
           starved_s1 starved_s2 starved_s3 true false).
  - vm_compute. reflexivity.
  - vm_compute. reflexivity.
  - vm_compute. reflexivity.
Defined.

(** C3, as stated, fails: the call below claims a slot, takes one token
    from the call-rate bucket, times out on the cost bucket and answers
    [False].  The slot is released, but the call-rate token stays
    consumed: the bucket holds 59 of its 60 tokens, and 59.1 once refilled
    at the time of the return. *)
Lemma acquire_failure_keeps_token_consumed :
  let r := RateLimiter.acquire 50 2000 starved_timeout starved_limiter in
  let before := RateLimiter.request_bucket (snd starved_limiter) in
  let after := RateLimiter.request_bucket (snd (snd r)) in
  fst r = Ret false /\
  RateLimiter.active_requests (snd (snd r)) = 0 /\
  (fst (snd r) == 1 # 10)%Q /\
  (TokenBucket.tokens before == 60)%Q /\
  (TokenBucket.tokens after == 59)%Q /\
  (TokenBucket.tokens (TokenBucket._refill (fst (snd r)) after) == 591 # 10)%Q /\
  (TokenBucket.tokens (TokenBucket._refill (fst (snd r)) before) == 60)%Q.
Proof.
  vm_compute. repeat split; reflexivity.
Qed.

(** ** A timeout of zero *)

Lemma timed_out_falsy (timeout : option Q) (elapsed : Q) :
  truthy timeout = false -> timed_out timeout elapsed = false.
Proof.
  unfold timed_out. intros ->. reflexivity.
Qed.

Lemma wait_loop_falsy_timeout (fuel : nat) (n : Z) (timeout : option Q) (start : Q) :
  truthy timeout = false ->
  triple (fun _ => True) (TokenBucket.wait_loop fuel n timeout start)
    (fun ok _ => ok = true) (fun _ => True).
Proof.
  intros Ht. induction fuel as [| fuel IH]; simpl.
  - intros s _. exact I.
  - eapply triple_bind with (Q1 := fun _ _ => True).
    { intros s _. destruct (TokenBucket.consume n s) as [[] ?]; exact I. }
    intros [|]; [apply triple_ret; auto |].
    eapply triple_bind with (Q1 := fun now _ => True).
    { intros s _. exact I. }
    intros now. rewrite timed_out_falsy by exact Ht.
    eapply triple_bind with (Q1 := fun _ _ => True); [| intros _; exact IH].
    intros s _. destruct (TokenBucket.wait_step n s) as [[] ?]; exact I.
Qed.

Lemma wait_for_tokens_falsy_timeout (fuel : nat) (n : Z) (timeout : option Q) :
  truthy timeout = false ->
  triple (fun _ => True) (TokenBucket.wait_for_tokens fuel n timeout)
    (fun ok _ => ok = true) (fun _ => True).
Proof.
  intros Ht. unfold TokenBucket.wait_for_tokens.
  eapply triple_bind with (Q1 := fun _ _ => True); [intros s _; exact I |].
  intros start. now apply wait_loop_falsy_timeout.
Qed.

Lemma slot_loop_falsy_timeout (fuel : nat) (timeout : option Q) (start : Q) :
  truthy timeout = false ->
  triple (fun _ => True) (RateLimiter.slot_loop fuel timeout start)
    (fun claimed _ => claimed = true) (fun _ => True).
Proof.
  intros Ht. induction fuel as [| fuel IH]; simpl.
  - intros s _. exact I.
  - eapply triple_bind with (Q1 := fun _ _ => True).
    { intros s _. exact I. }
    intros s0. destruct (_ <? _).
    + eapply triple_bind with (Q1 := fun _ _ => True);
        [intros s _; exact I | intros _; apply triple_ret; auto].
    + eapply triple_bind with (Q1 := fun now _ => True).
      { intros s _. exact I. }
      intros now. rewrite timed_out_falsy by exact Ht.
      eapply triple_bind with (Q1 := fun _ _ => True); [| intros _; exact IH].
      intros s _. destruct (time_sleep (1 # 10) s) as [[] ?]; exact I.
Qed.

Lemma acquire_falsy_timeout (fuel : nat) (n : Z) (timeout : option Q) :
  truthy timeout = false ->
  triple (fun _ => True) (RateLimiter.acquire fuel n timeout)
    (fun ok _ => ok = true) (fun _ => True).
Proof.
  intros Ht. unfold RateLimiter.acquire.
  eapply triple_bind with (Q1 := fun _ _ => True); [intros s _; exact I |].
  intros start. eapply triple_bind; [now apply slot_loop_falsy_timeout |].
  intros claimed. simpl.
  apply triple_conseq with (P' := fun _ => claimed = true)
    (Q' := fun ok _ => ok = true) (E' := fun _ => True); auto.
  destruct claimed; [simpl | intros s Hs; discriminate].
  eapply triple_bind with (Q1 := fun ra _ => ra = true).
  { eapply triple_zoom with (P' := fun _ => True);
      [now apply wait_for_tokens_falsy_timeout | | |]; auto. }
  intros ra. eapply triple_bind with (Q1 := fun ta _ => ra = true /\ ta = true).
  { eapply triple_zoom with (P' := fun _ => True) (Q' := fun ta _ => ta = true);
      [now apply wait_for_tokens_falsy_timeout | | |]; auto. }
  intros ta s [-> ->]. cbn. exact eq_refl.
Qed.

(** With [timeout=0] (or [None]) the test [timeout and ...] never fires:
    [acquire] cannot answer [False], it can only succeed or keep waiting. *)
Lemma acquire_zero_timeout_never_fails (fuel : nat) (n : Z)
  (s : Timed RateLimiter.t) :
  fst (RateLimiter.acquire fuel n (Some 0%Q) s) <> Ret false.
Proof.
  pose proof (acquire_falsy_timeout fuel n (Some 0%Q) eq_refl s I) as H.
  destruct (RateLimiter.acquire fuel n (Some 0%Q) s) as [[ok | e |] s']; simpl;
    try discriminate.
  subst ok. discriminate.
Qed.

(** [acquire(timeout=0)] with the default estimate, looking at 50 rounds
    of every loop. *)
Definition acquire_now : M (Timed RateLimiter.t) bool :=
  RateLimiter.acquire 50 RateLimiter.default_estimated_tokens (Some 0%Q).

Definition acquire_now_release : M (Timed RateLimiter.t) bool :=
  (ok <- acquire_now ;; RateLimiter.release None ;; ret ok)%monad.

(** C4, on the code.  With 60 requests per minute, 60 calls of
    [acquire(timeout=0)] made at the same instant succeed and empty the
    call-rate bucket.  The 61st does not fail: it sleeps ten times a tenth
    of a second, until one token has come back, and then answers [True].
    The same happens when every call is followed by [release] under the
    limit of five concurrent requests that the agents configure. *)
Theorem sixty_first_acquire_waits_and_succeeds :
  let fresh := (0%Q, RateLimiter.init (RateLimitConfig.mk 60 150000 100) 0%Q) in
  let r60 := run_calls (repeat acquire_now 60) fresh in
  let r61 := acquire_now (snd r60) in
  let fresh5 := (0%Q, RateLimiter.init (RateLimitConfig.mk 60 150000 5) 0%Q) in
  let p60 := run_calls (repeat acquire_now_release 60) fresh5 in
  let p61 := acquire_now (snd p60) in
  (fst r60 = Ret (repeat true 60) /\
   (fst (snd r60) == 0)%Q /\
   (TokenBucket.tokens (RateLimiter.request_bucket (snd (snd r60))) == 0)%Q /\
   fst r61 = Ret true /\
   (fst (snd r61) == 1)%Q) /\
  (fst p60 = Ret (repeat true 60) /\
   (fst (snd p60) == 0)%Q /\
   fst p61 = Ret true /\
   (fst (snd p61) == 1)%Q).
Proof.
  vm_compute. repeat split; reflexivity.
Qed.

(** Without [release], under the limit of five, the sixth call of
    [acquire(timeout=0)] never returns. *)
Lemma sixth_acquire_without_release_spins (fuel : nat) :
  let fresh5 := (0%Q, RateLimiter.init (RateLimitConfig.mk 60 150000 5) 0%Q) in
  let r5 := run_calls (repeat acquire_now 5) fresh5 in
  fst r5 = Ret (repeat true 5) /\
  fst (RateLimiter.acquire fuel 1000 (Some 0%Q) (snd r5)) = Spin.
Proof.
  cbv zeta. split; [vm_compute; reflexivity |].
  set (s5 := snd (run_calls (repeat acquire_now 5) _)).
  assert (H5 : RateLimiter.active_requests (snd s5) = 5 /\
               RateLimiter.max_concurrent (snd s5) = 5).
  { vm_compute. auto. }
  clearbody s5. unfold RateLimiter.acquire, bind at 1, time_time.
  assert (L : forall start s, RateLimiter.active_requests (snd s) = 5 ->
              RateLimiter.max_concurrent (snd s) = 5 ->
              fst (RateLimiter.slot_loop fuel (Some 0%Q) start s) = Spin).
  { clear. induction fuel as [| fuel IH]; intros start s Ha Hm; simpl.
    - reflexivity.
    - unfold bind at 1, get. rewrite Ha, Hm. simpl.
      unfold bind at 1, time_time. simpl.
      unfold bind at 1, time_sleep. simpl. apply IH; assumption. }
  unfold bind at 1. destruct H5 as [Ha Hm].
  specialize (L (fst s5) s5 Ha Hm).
  destruct (RateLimiter.slot_loop fuel (Some 0%Q) (fst s5) s5) as [r s'].
  simpl in L. subst r. reflexivity.
Qed.

(** ** The order of calls in [invoke_llm] *)

(** What has to come right after a denied [acquire] that left the counter
    at [a]: a [release], which leaves it at [max(0, a - 1)], and then the
    backoff sleep or nothing more (the last attempt re-raises). *)
Definition follows_denial (a : Z) (rest : list Event) : Prop :=
  match rest with
  | EvRelease a' :: rest' =>
      a' = Z.max 0 (a - 1) /\
      match rest' with
      | [] | EvSleep _ :: _ => True
      | _ => False
      end
  | _ => False
  end.

Fixpoint released_after_denial (tr : list Event) : Prop :=
  match tr with
  | [] => True
  | EvAcquire false a :: rest => follows_denial a rest /\ released_after_denial rest
  | _ :: rest => released_after_denial rest
  end.

Lemma released_after_denial_split (pre post : list Event) (a : Z) :
  released_after_denial (pre ++ EvAcquire false a :: post) ->
  follows_denial a post.
Proof.
  induction pre as [| ev pre IH]; simpl.
  - intros [H _]. exact H.
  - destruct ev as [[|] a0 | ok | a0 | d]; try exact IH.
    intros [_ H]. apply IH, H.
Qed.

(** The events of one round of the loop: [terminal] when the function is
    left in that round. *)
Definition round_ok (terminal : bool) (block : list Event) : Prop :=
  forall tl, (terminal = true -> tl = []) -> released_after_denial tl ->
             released_after_denial (block ++ tl).

Definition is_terminal (r : Res (option string)) : bool :=
  match r with
  | Ret None => false
  | _ => true
  end.

Ltac close_round :=
  eexists; split;
  [ rewrite <- ?app_assoc; reflexivity
  | let tl := fresh "tl" in
    let Htl := fresh "Htl" in
    let Hok := fresh "Hok" in
    intros tl Htl Hok; try rewrite (Htl eq_refl); cbn; auto ].

Lemma attempt_round (fuel : nat) (call : BaseAgent.LLMCall) (max_retries attempt : Z)
  (s : Timed BaseAgent.t) :
  let r := try_except
             (c <- BaseAgent.attempt_body fuel call ;; ret (Some c))%monad
             (BaseAgent.attempt_handler max_retries attempt) s in
  exists block,
    BaseAgent.trace (snd (snd r)) = (BaseAgent.trace (snd s) ++ block)%list /\
    round_ok (is_terminal (fst r)) block.
Proof.
  cbv zeta.
  unfold try_except, BaseAgent.attempt_body, BaseAgent.rate_limiter_acquire,
    BaseAgent.on_rate_limiter, BaseAgent.attempt_handler, BaseAgent.rate_limiter_release,
    BaseAgent.llm_invoke, BaseAgent.sleep, BaseAgent.log, BaseAgent.on_agent,
    BaseAgent.active_now, BaseAgent.on_rate_limiter, RateLimiter.release,
    RateLimiter.on_limiter, time_sleep, time_time, elapse, modify, zoom, bind, ret, raise.
  destruct (RateLimiter.acquire fuel _ _ _) as [[granted | e |] s1]; cbn.
  - destruct granted; cbn.
    + destruct (BaseAgent.outcome call) as [resp | msg]; cbn.
      * close_round.
      * destruct (attempt =? max_retries - 1); cbn; [close_round |].
        destruct (Qlt_bool _ _); cbn; close_round.
    + destruct (attempt =? max_retries - 1); cbn; [close_round |].
      destruct (Qlt_bool _ _); cbn; close_round.
  - destruct (attempt =? max_retries - 1); cbn; [close_round |].
    destruct (Qlt_bool _ _); cbn; close_round.
  - exists []. split; [now rewrite app_nil_r |].
    intros tl Htl _. now rewrite (Htl eq_refl).
Qed.

Lemma invoke_loop_trace (fuel : nat) (llm : Z -> BaseAgent.LLMCall) (max_retries : Z)
  (todo : list Z) (s : Timed BaseAgent.t) :
  exists new,
    BaseAgent.trace (snd (snd (BaseAgent.invoke_loop fuel llm max_retries todo s)))
    = (BaseAgent.trace (snd s) ++ new)%list /\
    released_after_denial new.
Proof.
  revert s. induction todo as [| attempt todo IH]; intros s; simpl.
  - exists []. split; [now rewrite app_nil_r | exact I].
  - unfold bind.
    destruct (attempt_round fuel (llm attempt) max_retries attempt s)
      as (block & Htr & Hok).
    cbv zeta in Htr, Hok.
    destruct (try_except _ _ s) as [[[c |] | e |] s1]; simpl in *.
    + exists block. split; [exact Htr |].
      specialize (Hok [] (fun _ => eq_refl) I). now rewrite app_nil_r in Hok.
    + destruct (IH s1) as (new & Hnew & Hok').
      exists (block ++ new)%list. split.
      * rewrite Hnew, Htr. now rewrite app_assoc.
      * apply Hok; [discriminate | exact Hok'].
    + exists block. split; [exact Htr |].
      specialize (Hok [] (fun _ => eq_refl) I). now rewrite app_nil_r in Hok.
    + exists block. split; [exact Htr |].
      specialize (Hok [] (fun _ => eq_refl) I). now rewrite app_nil_r in Hok.
Qed.

(** C9. Among the calls that one [invoke_llm] makes, every [acquire] that
    answered [False], leaving the counter at [a], is followed at once by a
    [release], which leaves the counter at [max(0, a - 1)]; after it comes
    the backoff sleep, or nothing when the attempt was the last and the
    error is re-raised. *)
Theorem denied_acquire_is_released (fuel : nat) (llm : Z -> BaseAgent.LLMCall)
  (max_retries : Z) (s : Timed BaseAgent.t) :
  exists new,
    BaseAgent.trace (snd (snd (BaseAgent.invoke_llm fuel llm max_retries s)))
    = (BaseAgent.trace (snd s) ++ new)%list /\
    forall pre a post,
      new = (pre ++ EvAcquire false a :: post)%list ->
      exists post',
        post = EvRelease (Z.max 0 (a - 1)) :: post' /\
        (post' = [] \/ exists d post'', post' = EvSleep d :: post'').
Proof.
  destruct (invoke_loop_trace fuel llm max_retries (BaseAgent.range max_retries) s)
    as (new & Htr & Hok).
  exists new. split; [exact Htr |].
  intros pre a post ->. apply released_after_denial_split in Hok.
  destruct post as [| [g a0 | ok | a' | d] post']; simpl in Hok; try contradiction.
  destruct Hok as [-> Hnext]. exists post'. split; [reflexivity |].
  destruct post' as [| [g a0 | ok | a0 | d] post'']; try contradiction; eauto.
Qed.

(** Two runs in which [acquire] is denied.  The agent has 1000 cost units
    per minute and has just spent them on a first call. *)
Definition answering : Z -> BaseAgent.LLMCall :=
  fun _ => BaseAgent.mk_call 1%Q (Returned (BaseAgent.mk_response "ok" (Some 800))).

Definition spent_agent : Timed BaseAgent.t :=
  snd (BaseAgent.invoke_llm 400 answering 3
         (0%Q, BaseAgent.init "supervisor" 60 1000 0%Q)).

(** The first attempt of the next call is denied after thirty seconds,
    [release] is called with no slot held, and the second attempt goes
    through. *)
Lemma denied_then_granted_run :
  let r := BaseAgent.invoke_llm 400 answering 3 spent_agent in
  fst r = Ret "ok"%string /\
  BaseAgent.trace (snd (snd r)) =
    (BaseAgent.trace (snd spent_agent) ++
     [ EvAcquire false 0; EvRelease 0; EvSleep 1%Q;
       EvAcquire true 1; EvInvoke true; EvRelease 0 ])%list.
Proof. vm_compute. split; reflexivity. Qed.

(** With two requests of other callers in flight on the same limiter, the
    denied attempt, which holds no slot, takes the counter from 2 to 1. *)
Definition shared_agent : Timed BaseAgent.t :=
  (fst spent_agent,
   BaseAgent.set_rate_limiter
     (RateLimiter.set_active_requests 2 (BaseAgent.rate_limiter (snd spent_agent)))
     (snd spent_agent)).

Lemma denied_acquire_decrements_shared_counter :
  let r := BaseAgent.invoke_llm 400 answering 1 shared_agent in
  fst r = Exn (RuntimeError "Rate limit exceeded") /\
  BaseAgent.trace (snd (snd r)) =
    (BaseAgent.trace (snd shared_agent) ++ [ EvAcquire false 2; EvRelease 1 ])%list /\
  RateLimiter.active_requests (BaseAgent.rate_limiter (snd (snd r))) = 1.
Proof. vm_compute. repeat split; reflexivity. Qed.

(** ** The reviewer's decision *)

Local Open Scope string_scope.

Lemma SF_0_4 : Prim2SF 0.4 = S754_finite false 7205759403792794 (-54).
Proof. vm_compute. reflexivity. Qed.

Lemma SF_0_75 : Prim2SF 0.75 = S754_finite false 6755399441055744 (-53).
Proof. vm_compute. reflexivity. Qed.

Lemma SF_0_85 : Prim2SF 0.85 = S754_finite false 7656119366529843 (-53).
Proof. vm_compute. reflexivity. Qed.

(** A score below 0.4 is below 0.75 and 0.85, as binary64 values compare. *)
Lemma low_score_is_not_high (score : float) :
  PrimFloat.ltb score 0.4 = true ->
  PrimFloat.leb 0.75 score = false /\ PrimFloat.leb 0.85 score = false.
Proof.
  rewrite ltb_spec, !leb_spec, SF_0_4, SF_0_75, SF_0_85.
  unfold SFltb, SFleb, SFcompare.
  destruct (Prim2SF score) as [sg | sg | | [|] m e]; try (intuition congruence).
  - destruct sg; intuition congruence.
  - destruct (Z.compare_spec e (-54)) as [-> | Hlt | Hgt]; try discriminate.
    + intros _. change (-53 ?= -54)%Z with Gt. auto.
    + intros _. destruct (Z.compare_spec (-53) e) as [E | E | E]; try lia; auto.
Qed.

Lemma has_critical_iff (issues : list string) :
  ReviewerAgent.has_critical issues = true <->
  exists issue kw,
    In issue issues /\ In kw ReviewerAgent.critical_keywords /\
    contains kw (lower issue) = true.
Proof.
  unfold ReviewerAgent.has_critical. rewrite existsb_exists. split.
  - intros (issue & Hin & H). apply existsb_exists in H as (kw & Hkw & Hc). eauto.
  - intros (issue & kw & Hin & Hkw & Hc). exists issue. split; [exact Hin |].
    apply existsb_exists. eauto.
Qed.

(** C5, as the code has it.  The decision is a function of the score and
    the issues alone.  An issue with a critical keyword means [reject],
    whatever the score.  Without one: a score of at least 0.85 with at
    most three issues, or of at least 0.75 with at most two, means
    [approve]; a score below 0.4 means [reject]; everything else means
    [request_revision]. *)
Theorem make_decision_table (score : float) (issues : list string)
  (llm_decision : string) :
  let d := ReviewerAgent._make_decision score issues llm_decision in
  (forall other : string, ReviewerAgent._make_decision score issues other = d) /\
  ((exists issue kw,
      In issue issues /\ In kw ReviewerAgent.critical_keywords /\
      contains kw (lower issue) = true) ->
   d = reject) /\
  (ReviewerAgent.has_critical issues = false ->
   (PrimFloat.leb 0.85 score = true -> (len issues <= 3)%Z -> d = approve) /\
   (PrimFloat.leb 0.75 score = true -> (len issues <= 2)%Z -> d = approve) /\
   (PrimFloat.ltb score 0.4 = true -> d = reject) /\
   (~ (PrimFloat.leb 0.85 score = true /\ (len issues <= 3)%Z) ->
    ~ (PrimFloat.leb 0.75 score = true /\ (len issues <= 2)%Z) ->
    PrimFloat.ltb score 0.4 = false ->
    d = request_revision)).
Proof.
  cbv zeta. unfold ReviewerAgent._make_decision. split; [reflexivity |]. split.
  - intros H. apply has_critical_iff in H. now rewrite H.
  - intros ->. repeat split.
    + intros -> H. apply Z.leb_le in H. now rewrite H.
    + intros H75 H. apply Z.leb_le in H. rewrite H75, H. simpl.
      now destruct (PrimFloat.leb 0.85 score && (len issues <=? 3)%Z).
    + intros H. destruct (low_score_is_not_high score H) as [-> ->].
      simpl. now rewrite H.
    + intros H85 H75 H04. rewrite H04.
      destruct (PrimFloat.leb 0.85 score) eqn:E85;
        destruct (len issues <=? 3)%Z eqn:L3;
        destruct (PrimFloat.leb 0.75 score) eqn:E75;
        destruct (len issues <=? 2)%Z eqn:L2; simpl; try reflexivity;
        try (exfalso; apply H85; split; [reflexivity | now apply Z.leb_le]);
        try (exfalso; apply H75; split; [reflexivity | now apply Z.leb_le]).
Qed.

(** C5, as stated, fails where an approving score meets a critical issue:
    the score is at least 0.85 and there is one issue, yet the decision is
    [reject], not [approve]. *)
Lemma high_score_with_critical_issue_is_rejected :
  let issues := ["Possible plagiarism in section 2"] in
  PrimFloat.leb 0.85 0.9 = true /\
  (len issues <= 3)%Z /\
  ReviewerAgent._make_decision 0.9 issues "approve" = reject /\
  ReviewerAgent._make_decision 0.9 issues "approve" <> approve.
Proof.
  cbv zeta. repeat split; try reflexivity; discriminate.
Qed.

(** The table at work on scores without critical issues. *)
Example make_decision_examples :
  ReviewerAgent._make_decision 0.9 [] "reject" = approve /\
  ReviewerAgent._make_decision 0.85 ["a"; "b"; "c"] "" = approve /\
  ReviewerAgent._make_decision 0.85 ["a"; "b"; "c"; "d"] "" = request_revision /\
  ReviewerAgent._make_decision 0.8 ["a"; "b"] "" = approve /\
  ReviewerAgent._make_decision 0.8 ["a"; "b"; "c"] "" = request_revision /\
  ReviewerAgent._make_decision 0.5 [] "approve" = request_revision /\
  ReviewerAgent._make_decision 0.39 [] "approve" = reject /\
  ReviewerAgent._make_decision 0.4 [] "approve" = request_revision /\
  ReviewerAgent._make_decision nan [] "approve" = request_revision /\
  ReviewerAgent._make_decision 0.2 ["The figures are FABRICATED"] "" = reject.
Proof. vm_compute. repeat split; reflexivity. Qed.

(** ** The fallback decision *)

(** What the table of the fallback is keyed on: which of the three
    outputs are there, and whether the review asked for a revision. *)
Definition populated_fields (st : AgentState.t) : bool * bool * bool * bool :=
  (nonempty (AgentState.research_findings st),
   nonempty (AgentState.content_draft st),
   nonempty (AgentState.review_feedback st),
   decision_eqb (AgentState.review_decision st) request_revision).

Lemma nonempty_false (s : string) : nonempty s = false <-> s = "".
Proof. destruct s; simpl; split; congruence. Qed.

Lemma nonempty_true (s : string) : nonempty s = true <-> s <> "".
Proof. destruct s; simpl; split; congruence. Qed.

Lemma decision_eqb_eq (a b : ReviewDecision) : decision_eqb a b = true <-> a = b.
Proof. destruct a, b; simpl; split; congruence. Qed.

(** The termination check of [execute], condition by condition. *)
Lemma should_finish_iff (max_iterations : Z) (st : AgentState.t) :
  SupervisorAgent.should_finish max_iterations st = true <->
  ((max_iterations <= AgentState.iteration_count st)%Z \/
   (max_revisions <= AgentState.revision_count st)%Z \/
   (AgentState.review_decision st = approve /\ AgentState.final_output st <> "")).
Proof.
  unfold SupervisorAgent.should_finish.
  rewrite !Bool.orb_true_iff, Bool.andb_true_iff, !Z.leb_le, decision_eqb_eq,
    nonempty_true.
  tauto.
Qed.

(** [execute] reaches [_make_routing_decision], the only caller of the
    fallback, when the termination check has failed: the state is then
    below the iteration bound and below the revision bound. *)
Lemma check_failed_below_the_bounds (max_iterations : Z) (st : AgentState.t) :
  SupervisorAgent.should_finish max_iterations st = false ->
  (AgentState.iteration_count st < max_iterations)%Z /\
  (AgentState.revision_count st < max_revisions)%Z.
Proof.
  intros H.
  destruct (Z_lt_le_dec (AgentState.iteration_count st) max_iterations) as [Hi | Hi];
    [| exfalso; assert (T : SupervisorAgent.should_finish max_iterations st = true)
         by (apply should_finish_iff; auto); congruence].
  destruct (Z_lt_le_dec (AgentState.revision_count st) max_revisions) as [Hr | Hr];
    [| exfalso; assert (T : SupervisorAgent.should_finish max_iterations st = true)
         by (apply should_finish_iff; auto); congruence].
  split; assumption.
Qed.

(** Below both bounds the next agent is read off the populated fields. *)
Lemma fallback_below_the_bounds (max_iterations : Z) (st : AgentState.t) :
  (AgentState.iteration_count st < max_iterations)%Z ->
  (AgentState.revision_count st < max_revisions)%Z ->
  SupervisorAgent._fallback_decision max_iterations st =
  match populated_fields st with
  | (false, _, _, _) =>
      mk_decision "researcher" "No research completed yet"
        ("Research the topic: " ++ AgentState.task st) 0.9%float
  | (true, false, _, _) =>
      mk_decision "content_creator" "Research complete, need content"
        "Create content based on research findings" 0.9%float
  | (true, true, false, _) =>
      mk_decision "reviewer" "Content created, needs review"
        "Review content quality and accuracy" 0.9%float
  | (true, true, true, true) =>
      mk_decision "content_creator" "Revision requested by reviewer"
        ("Revise content based on feedback: " ++
         take_string 200 (AgentState.review_feedback st)) 0.8%float
  | (true, true, true, false) =>
      mk_decision "finish" "Workflow complete or max revisions reached"
        "Finalize output" 0.7%float
  end.
Proof.
  intros Hi Hr. pose proof Hr as Hlt.
  apply Z.leb_gt in Hi, Hr. apply Z.ltb_lt in Hlt.
  unfold SupervisorAgent._fallback_decision, populated_fields.
  rewrite Hi, Hr, Hlt.
  destruct (nonempty (AgentState.research_findings st));
    destruct (nonempty (AgentState.content_draft st));
    destruct (nonempty (AgentState.review_feedback st));
    destruct (decision_eqb (AgentState.review_decision st) request_revision);
    reflexivity.
Qed.

(** C6. The fallback decides in one place: in [execute], after the
    termination check has failed and the router has raised.  There the
    state is below the iteration bound and below the revision bound, and
    the next agent is the one of the rule table: no research, researcher;
    research but no draft, content creator; draft but no review,
    reviewer; a review that asks for a revision, content creator;
    otherwise finish.  Below the bounds two states with the same
    populated fields get the same next agent, and the decision is a
    function of the state alone: it depends neither on the iteration bound
    nor on the router that failed. *)
Theorem fallback_decision_table (max_iterations : Z) (st : AgentState.t) :
  let d := SupervisorAgent._fallback_decision max_iterations st in
  let next := d_next_agent d in
  (SupervisorAgent.should_finish max_iterations st = false ->
   ((AgentState.iteration_count st < max_iterations)%Z /\
    (AgentState.revision_count st < max_revisions)%Z) /\
   forall router msg,
     router st = Raised msg ->
     SupervisorAgent._make_routing_decision max_iterations router st = d /\
     get_next_agent (SupervisorAgent.execute max_iterations router st) = Some next) /\
  ((AgentState.iteration_count st < max_iterations)%Z ->
   (AgentState.revision_count st < max_revisions)%Z ->
   (AgentState.research_findings st = "" -> next = "researcher") /\
   (AgentState.research_findings st <> "" ->
    AgentState.content_draft st = "" -> next = "content_creator") /\
   (AgentState.research_findings st <> "" ->
    AgentState.content_draft st <> "" ->
    AgentState.review_feedback st = "" -> next = "reviewer") /\
   (AgentState.research_findings st <> "" ->
    AgentState.content_draft st <> "" ->
    AgentState.review_feedback st <> "" ->
    (AgentState.review_decision st = request_revision -> next = "content_creator") /\
    (AgentState.review_decision st <> request_revision -> next = "finish")) /\
   (forall max_iterations2 st2,
      (AgentState.iteration_count st2 < max_iterations2)%Z ->
      (AgentState.revision_count st2 < max_revisions)%Z ->
      populated_fields st2 = populated_fields st ->
      d_next_agent (SupervisorAgent._fallback_decision max_iterations2 st2) = next) /\
   (forall max_iterations2,
      (AgentState.iteration_count st < max_iterations2)%Z ->
      SupervisorAgent._fallback_decision max_iterations2 st = d)).
Proof.
  cbv zeta. split.
  - intros Hsf. split; [apply check_failed_below_the_bounds; exact Hsf |].
    intros router msg Hr.
    unfold SupervisorAgent.execute, SupervisorAgent._make_routing_decision.
    rewrite Hsf, Hr. split; reflexivity.
  - intros Hi Hr. rewrite (fallback_below_the_bounds max_iterations st Hi Hr).
    split; [| split; [| split; [| split; [| split]]]].
    + intros R. apply nonempty_false in R. unfold populated_fields. rewrite R.
      reflexivity.
    + intros R D. apply nonempty_true in R. apply nonempty_false in D.
      unfold populated_fields. rewrite R, D. reflexivity.
    + intros R D F. apply nonempty_true in R, D. apply nonempty_false in F.
      unfold populated_fields. rewrite R, D, F. reflexivity.
    + intros R D F. apply nonempty_true in R, D, F.
      unfold populated_fields. rewrite R, D, F. split.
      * intros E. apply decision_eqb_eq in E. rewrite E. reflexivity.
      * intros E.
        destruct (decision_eqb (AgentState.review_decision st) request_revision) eqn:E';
          [apply decision_eqb_eq in E'; congruence | reflexivity].
    + intros max_iterations2 st2 Hi2 Hr2 K.
      rewrite (fallback_below_the_bounds max_iterations2 st2 Hi2 Hr2), K.
      destruct (populated_fields st) as [[[[] []] []] []]; reflexivity.
    + intros max_iterations2 Hi2.
      apply (fallback_below_the_bounds max_iterations2 st Hi2 Hr).
Qed.

(** The two guards at the head of the fallback repeat the termination
    check: called at or above a bound, as [execute] never does, it
    answers [finish]. *)
Lemma fallback_guards_repeat_the_check (max_iterations : Z) (st : AgentState.t) :
  (max_iterations <= AgentState.iteration_count st)%Z \/
  (max_revisions <= AgentState.revision_count st)%Z ->
  d_next_agent (SupervisorAgent._fallback_decision max_iterations st) = "finish".
Proof.
  unfold SupervisorAgent._fallback_decision.
  intros [H | H]; apply Z.leb_le in H; rewrite H;
    [| destruct (max_iterations <=? AgentState.iteration_count st)%Z];
    reflexivity.
Qed.

(** The table at work, below both bounds (15 iterations, 3 revisions). *)
Example fallback_decision_examples :
  let next st := d_next_agent (SupervisorAgent._fallback_decision 15 st) in
  let s0 := create_initial_state "History of tea" [] in
  let s1 := merge s0 [research_findings_ "Tea was first drunk in China."] in
  let s2 := merge s1 [content_draft_ "A short history of tea."] in
  let s3 := merge s2 [review_feedback_ "Needs sources."; review_decision_ request_revision;
                      revision_count_ 1] in
  let s4 := merge s2 [review_feedback_ "Good."; review_decision_ approve] in
  let s5 := merge s2 [review_feedback_ "Start over."; review_decision_ reject] in
  SupervisorAgent.should_finish 15 s0 = false /\
  SupervisorAgent.should_finish 15 s3 = false /\
  next s0 = "researcher" /\
  next s1 = "content_creator" /\
  next s2 = "reviewer" /\
  next s3 = "content_creator" /\
  next s4 = "finish" /\
  next s5 = "finish".
Proof. cbv zeta. repeat split; reflexivity. Qed.

(** ** The control loop *)

Local Open Scope Z_scope.
Local Open Scope string_scope.

Lemma supervisor_forced_by_count (w : World) (st : AgentState.t) :
  max_iterations w <= AgentState.iteration_count st ->
  let st1 := merge st (WorkflowBuilder._supervisor_node w st) in
  AgentState.next_agent st1 = "finish" /\
  AgentState.workflow_status st1 = completed /\
  AgentState.iteration_count st1 = AgentState.iteration_count st /\
  AgentState.messages st1 = AgentState.messages st /\
  AgentState.final_output st1 = AgentState.final_output st.
Proof.
  intros H. apply Z.leb_le in H. unfold WorkflowBuilder._supervisor_node.
  rewrite H. destruct st. cbn. repeat split.
Qed.

Lemma supervisor_forced_by_check (w : World) (st : AgentState.t) :
  AgentState.iteration_count st < max_iterations w ->
  SupervisorAgent.should_finish (max_iterations w) st = true ->
  let st1 := merge st (WorkflowBuilder._supervisor_node w st) in
  AgentState.next_agent st1 = "finish" /\
  AgentState.workflow_status st1 = completed /\
  AgentState.iteration_count st1 = AgentState.iteration_count st + 1 /\
  AgentState.messages st1 = AgentState.messages st /\
  AgentState.final_output st1 =
    (if nonempty (AgentState.content_draft st) && negb (nonempty (AgentState.final_output st))
     then AgentState.content_draft st else AgentState.final_output st).
Proof.
  intros H S. apply Z.leb_gt in H.
  unfold WorkflowBuilder._supervisor_node, SupervisorAgent.execute.
  rewrite H, S. destruct st. cbn.
  destruct (nonempty content_draft && negb (nonempty final_output)); cbn;
    repeat split.
Qed.

Lemma supervisor_routes (w : World) (st : AgentState.t) :
  AgentState.iteration_count st < max_iterations w ->
  SupervisorAgent.should_finish (max_iterations w) st = false ->
  let d := SupervisorAgent._make_routing_decision (max_iterations w) (routing_llm w) st in
  let st1 := merge st (WorkflowBuilder._supervisor_node w st) in
  st1 = merge st
    [ current_agent_ SupervisorAgent.name;
      next_agent_ (d_next_agent d);
      messages_ [mk_message SupervisorAgent.name (d_next_agent d) (instructions d) task_msg];
      iteration_count_ (AgentState.iteration_count st + 1) ].
Proof.
  intros H S. apply Z.leb_gt in H.
  unfold WorkflowBuilder._supervisor_node, SupervisorAgent.execute.
  rewrite H, S. destruct st. cbn. reflexivity.
Qed.

Lemma node_keeps_iteration_count (w : World) (n : Node) (st : AgentState.t) :
  AgentState.iteration_count (merge st (WorkflowBuilder.node w n st)) =
  AgentState.iteration_count st.
Proof.
  destruct n; unfold WorkflowBuilder.node, WorkflowBuilder._researcher_node,
    WorkflowBuilder._content_creator_node, WorkflowBuilder._reviewer_node,
    ResearcherAgent.execute, ContentCreatorAgent.execute, ReviewerAgent.execute.
  - destruct (do_research w _); destruct st; reflexivity.
  - destruct (_generate_content w _ _ _ _); destruct st; reflexivity.
  - destruct (ReviewerAgent._perform_review _ _ _ _) as [ro | msg];
      [destruct (decision_eqb (decision ro) approve) |]; destruct st; reflexivity.
  - reflexivity.
Qed.

Lemma route_finish (st : AgentState.t) :
  AgentState.next_agent st = "finish" -> WorkflowBuilder._route_from_supervisor st = END.
Proof. unfold WorkflowBuilder._route_from_supervisor. intros ->. reflexivity. Qed.

Lemma run_halts (w : World) (k : nat) :
  forall st,
    max_iterations w - AgentState.iteration_count st <= Z.of_nat k ->
    exists st' ns,
      WorkflowBuilder.run w (S k) st = Some (st', ns) /\
      (List.length ns <= k)%nat /\
      WorkflowBuilder._route_from_supervisor st' = END /\
      AgentState.iteration_count st' <=
        Z.max (max_iterations w) (AgentState.iteration_count st).
Proof.
  assert (Halt : forall k st,
    AgentState.next_agent (merge st (WorkflowBuilder._supervisor_node w st)) = "finish" ->
    AgentState.iteration_count (merge st (WorkflowBuilder._supervisor_node w st)) <=
      Z.max (max_iterations w) (AgentState.iteration_count st) ->
    exists st' ns,
      WorkflowBuilder.run w (S k) st = Some (st', ns) /\
      (List.length ns <= k)%nat /\
      WorkflowBuilder._route_from_supervisor st' = END /\
      AgentState.iteration_count st' <=
        Z.max (max_iterations w) (AgentState.iteration_count st)).
  { intros k0 st Hn Hi. cbn [WorkflowBuilder.run]. rewrite (route_finish _ Hn).
    eexists _, []. split; [reflexivity |]. split; [simpl; lia |].
    split; [apply route_finish, Hn | exact Hi]. }
  induction k as [| k IH]; intros st Hk.
  - assert (Hge : max_iterations w <= AgentState.iteration_count st) by lia.
    destruct (supervisor_forced_by_count w st Hge) as (Hn & _ & Hi & _).
    apply Halt; [exact Hn | rewrite Hi; lia].
  - destruct (Z_lt_le_dec (AgentState.iteration_count st) (max_iterations w)) as [Hlt | Hge].
    + destruct (SupervisorAgent.should_finish (max_iterations w) st) eqn:Hsf.
      * destruct (supervisor_forced_by_check w st Hlt Hsf) as (Hn & _ & Hi & _).
        apply Halt; [exact Hn | rewrite Hi; lia].
      * pose proof (supervisor_routes w st Hlt Hsf) as E. cbv zeta in E.
        assert (Hi : AgentState.iteration_count
                       (merge st (WorkflowBuilder._supervisor_node w st))
                     = AgentState.iteration_count st + 1).
        { rewrite E. destruct st. reflexivity. }
        clear E. remember (S k) as k1. cbn [WorkflowBuilder.run]. subst k1.
        set (st1 := merge st (WorkflowBuilder._supervisor_node w st)) in *.
        destruct (WorkflowBuilder._route_from_supervisor st1) eqn:R.
        4: { eexists st1, []. split; [reflexivity |]. split; [simpl; lia |].
             split; [exact R | lia]. }
        all: match goal with |- context [WorkflowBuilder.node ?w0 ?n ?s1] =>
            destruct (IH (merge s1 (WorkflowBuilder.node w0 n s1)))
              as (st' & ns & Hrun & Hlen & Hend & Hic);
            [ rewrite node_keeps_iteration_count; lia
            | rewrite Hrun; exists st', (n :: ns);
              rewrite node_keeps_iteration_count in Hic;
              split; [reflexivity |]; split; [simpl; lia |];
              split; [exact Hend | lia] ]
          end.
    + destruct (supervisor_forced_by_count w st Hge) as (Hn & _ & Hi & _).
      apply Halt; [exact Hn | rewrite Hi; lia].
Qed.

Lemma forced_finish_routes_to_end (w : World) (st : AgentState.t) :
  SupervisorAgent.should_finish (max_iterations w) st = true ->
  let st1 := merge st (WorkflowBuilder._supervisor_node w st) in
  WorkflowBuilder._route_from_supervisor st1 = END /\
  AgentState.workflow_status st1 = completed.
Proof.
  intros Hsf.
  destruct (Z_lt_le_dec (AgentState.iteration_count st) (max_iterations w)) as [Hlt | Hge].
  - destruct (supervisor_forced_by_check w st Hlt Hsf) as (Hn & Hs & _).
    split; [apply route_finish, Hn | exact Hs].
  - destruct (supervisor_forced_by_count w st Hge) as (Hn & Hs & _).
    split; [apply route_finish, Hn | exact Hs].
Qed.

Lemma forced_finish_ignores_router (max_iterations : Z)
  (router : AgentState.t -> Outcome DecisionData) (st : AgentState.t) :
  SupervisorAgent.should_finish max_iterations st = true ->
  get_next_agent (SupervisorAgent.execute max_iterations router st) = Some "finish".
Proof.
  intros Hsf. unfold SupervisorAgent.execute. rewrite Hsf.
  destruct (nonempty _ && negb _); reflexivity.
Qed.

Lemma forced_finish_without_router (max_iterations : Z)
  (router router' : AgentState.t -> Outcome DecisionData) (st : AgentState.t) :
  SupervisorAgent.should_finish max_iterations st = true ->
  SupervisorAgent.execute max_iterations router st =
  SupervisorAgent.execute max_iterations router' st.
Proof. intros Hsf. unfold SupervisorAgent.execute. rewrite Hsf. reflexivity. Qed.

Lemma node_keeps_workflow_status (w : World) (n : Node) (st : AgentState.t) :
  AgentState.workflow_status (merge st (WorkflowBuilder.node w n st)) =
  AgentState.workflow_status st.
Proof.
  destruct n; unfold WorkflowBuilder.node, WorkflowBuilder._researcher_node,
    WorkflowBuilder._content_creator_node, WorkflowBuilder._reviewer_node,
    ResearcherAgent.execute, ContentCreatorAgent.execute, ReviewerAgent.execute.
  - destruct (do_research w _); destruct st; reflexivity.
  - destruct (_generate_content w _ _ _ _); destruct st; reflexivity.
  - destruct (ReviewerAgent._perform_review _ _ _ _) as [ro | msg];
      [destruct (decision_eqb (decision ro) approve) |]; destruct st; reflexivity.
  - reflexivity.
Qed.

(** The supervisor writes [completed] when it forces the finish and
    leaves the status alone when it routes. *)
Lemma supervisor_status (w : World) (st : AgentState.t) :
  let st1 := merge st (WorkflowBuilder._supervisor_node w st) in
  AgentState.workflow_status st1 = completed \/
  AgentState.workflow_status st1 = AgentState.workflow_status st.
Proof.
  cbv zeta.
  destruct (Z_lt_le_dec (AgentState.iteration_count st) (max_iterations w)) as [Hlt | Hge].
  - destruct (SupervisorAgent.should_finish (max_iterations w) st) eqn:Hsf.
    + left. apply (supervisor_forced_by_check w st Hlt Hsf).
    + right. pose proof (supervisor_routes w st Hlt Hsf) as E. cbv zeta in E.
      rewrite E. destruct st. reflexivity.
  - left. apply (supervisor_forced_by_count w st Hge).
Qed.

Lemma run_status (w : World) (fuel : nat) :
  forall st st' ns,
    WorkflowBuilder.run w fuel st = Some (st', ns) ->
    AgentState.workflow_status st' = completed \/
    AgentState.workflow_status st' = AgentState.workflow_status st.
Proof.
  induction fuel as [| fuel IH]; intros st st' ns; [discriminate |].
  cbn [WorkflowBuilder.run].
  pose proof (supervisor_status w st) as Hs. cbv zeta in Hs.
  set (st1 := merge st (WorkflowBuilder._supervisor_node w st)) in *.
  destruct (WorkflowBuilder._route_from_supervisor st1) eqn:R.
  4: { intros E. injection E as <- <-. exact Hs. }
  all: match goal with |- context [WorkflowBuilder.node ?w0 ?n ?s1] =>
      destruct (WorkflowBuilder.run w0 fuel (merge s1 (WorkflowBuilder.node w0 n s1)))
        as [[st2 ns2] |] eqn:Hrun; [| discriminate];
      intros E; injection E as <- <-;
      destruct (IH _ _ _ Hrun) as [Hc | Hc]; [left; exact Hc |];
      rewrite node_keeps_workflow_status in Hc; rewrite Hc; exact Hs
    end.
Qed.

(** C1, as the code has it.  Whenever the iteration bound or the
    revision bound is reached, or the review approved and a final output
    is there, the supervisor answers [finish] and writes the status
    [completed] without consulting the router (its answer is the same for
    every router), and the graph goes to [END].  Consequently, for every
    router and every behaviour of the agents, the run from any state
    stops: at most [max_iterations - iteration_count] agents are
    dispatched, and one more visit of the supervisor ends the run; from
    the initial state that is at most [max_iterations] agents.  The state
    at the stop has the status [completed] or the status the run started
    with: nothing else is ever written. *)
Theorem control_loop_halts_within_max_iterations (w : World) :
  (forall st,
     max_iterations w <= AgentState.iteration_count st \/
     max_revisions <= AgentState.revision_count st \/
     (AgentState.review_decision st = approve /\ AgentState.final_output st <> "") ->
     (forall router,
        get_next_agent (SupervisorAgent.execute (max_iterations w) router st)
        = Some "finish" /\
        SupervisorAgent.execute (max_iterations w) router st =
        SupervisorAgent.execute (max_iterations w) (routing_llm w) st) /\
     WorkflowBuilder._route_from_supervisor
       (merge st (WorkflowBuilder._supervisor_node w st)) = END /\
     AgentState.workflow_status
       (merge st (WorkflowBuilder._supervisor_node w st)) = completed) /\
  (forall st,
     let bound := Z.to_nat (max_iterations w - AgentState.iteration_count st) in
     exists st' ns,
       WorkflowBuilder.run w (S bound) st = Some (st', ns) /\
       (List.length ns <= bound)%nat /\
       WorkflowBuilder._route_from_supervisor st' = END /\
       AgentState.iteration_count st' <=
         Z.max (max_iterations w) (AgentState.iteration_count st) /\
       (AgentState.workflow_status st' = completed \/
        AgentState.workflow_status st' = AgentState.workflow_status st)) /\
  (forall task context,
     exists st' ns,
       WorkflowBuilder.run w (S (Z.to_nat (max_iterations w)))
         (create_initial_state task context) = Some (st', ns) /\
       (List.length ns <= Z.to_nat (max_iterations w))%nat /\
       WorkflowBuilder._route_from_supervisor st' = END /\
       AgentState.iteration_count st' <= Z.max (max_iterations w) 0 /\
       (AgentState.workflow_status st' = completed \/
        AgentState.workflow_status st' = running)).
Proof.
  split; [| split].
  - intros st Hc. apply should_finish_iff in Hc. split; [| split].
    + intros router. split.
      * now apply forced_finish_ignores_router.
      * now apply forced_finish_without_router.
    + apply (forced_finish_routes_to_end w st Hc).
    + apply (forced_finish_routes_to_end w st Hc).
  - intros st bound.
    destruct (run_halts w bound st) as (st' & ns & Hrun & Hlen & Hend & Hic);
      [subst bound; lia |].
    exists st', ns. repeat split; try assumption.
    apply (run_status w _ _ _ _ Hrun).
  - intros task context.
    destruct (run_halts w (Z.to_nat (max_iterations w))
                (create_initial_state task context))
      as (st' & ns & Hrun & Hlen & Hend & Hic).
    + cbn [create_initial_state AgentState.iteration_count]. lia.
    + exists st', ns. repeat split; try assumption.
      apply (run_status w _ _ _ _ Hrun).
Qed.

(** A router that answers [finish], and one that answers
    [human_review]. *)
Definition always_finish : AgentState.t -> Outcome DecisionData :=
  fun _ => Returned (mk_decision_data (Some "finish") (Some "Nothing to do")
                       (Some "Stop") (Some 1.0%float)).

Definition always_human_review : AgentState.t -> Outcome DecisionData :=
  fun _ => Returned (mk_decision_data (Some "human_review") (Some "A person should look")
                       (Some "Wait for review") (Some 1.0%float)).

Definition routed_world (router : AgentState.t -> Outcome DecisionData) : World :=
  mk_world 5 router
    (fun _ => Returned (mk_research "Tea was first drunk in China."
                          ["https://example.org/tea"] 0.8%float [] ""))
    (fun _ _ _ _ => Returned (mk_content "A short history of tea." 5 [] 1))
    (fun _ _ => Raised "validator unavailable")
    (fun _ _ => Raised "model unavailable")
    (fun _ => "")
    (fun _ => "").

(** C1, as stated, fails on the terminal state: the run always stops,
    but where it is the router that answers [finish] (or a name that is
    no agent) below the bounds, nothing writes the status.  From the
    initial state, with [max_iterations = 5], the run stops at the first
    visit of the supervisor with the status [running], which is neither
    [completed] nor [failed]. *)
Lemma router_finish_stops_in_status_running :
  let st := create_initial_state "History of tea" [] in
  SupervisorAgent.should_finish 5 st = false /\
  (exists st',
     WorkflowBuilder.run (routed_world always_finish) 6 st = Some (st', []) /\
     WorkflowBuilder._route_from_supervisor st' = END /\
     AgentState.next_agent st' = "finish" /\
     AgentState.iteration_count st' = 1 /\
     AgentState.workflow_status st' = running /\
     AgentState.workflow_status st' <> completed /\
     AgentState.workflow_status st' <> failed) /\
  (exists st',
     WorkflowBuilder.run (routed_world always_human_review) 6 st = Some (st', []) /\
     WorkflowBuilder._route_from_supervisor st' = END /\
     AgentState.workflow_status st' = running /\
     AgentState.workflow_status st' <> completed /\
     AgentState.workflow_status st' <> failed).
Proof.
  cbv zeta. split; [reflexivity |].
  split; eexists; (split; [vm_compute; reflexivity |]);
    cbn; repeat split; discriminate.
Qed.

(** ** Scenario A: a router that always asks for a draft *)

Definition always_drafter : AgentState.t -> Outcome DecisionData :=
  fun _ => Returned (mk_decision_data (Some "content_creator")
                       (Some "A draft is needed") (Some "Write the draft")
                       (Some 1.0%float)).

Definition scenario_A (w : World) : World :=
  mk_world 5 always_drafter (do_research w) (_generate_content w) (validate w)
    (llm_review_call w) (format_feedback w) (format_2f w).

Definition sent_by (name : string) (m : AgentMessage) : bool :=
  String.eqb (sender m) name.

Definition scenario_A_inv (k : nat) (st : AgentState.t) : Prop :=
  AgentState.iteration_count st = Z.of_nat k /\
  AgentState.revision_count st = 0 /\
  AgentState.review_decision st = request_revision /\
  AgentState.workflow_status st = running /\
  AgentState.final_output st = "" /\
  List.length (filter (sent_by "supervisor") (AgentState.messages st)) = k /\
  (k <= List.length (AgentState.messages st) <= 2 * k)%nat.

Lemma scenario_A_round (w : World) (k : nat) (st : AgentState.t) :
  (k < 5)%nat ->
  scenario_A_inv k st ->
  let st1 := merge st (WorkflowBuilder._supervisor_node (scenario_A w) st) in
  WorkflowBuilder._route_from_supervisor st1 = content_creator /\
  scenario_A_inv (S k)
    (merge st1 (WorkflowBuilder.node (scenario_A w) content_creator st1)).
Proof.
  intros Hk (Hi & Hr & Hd & Hs & Hf & Hm & Hl).
  destruct st. cbn in Hi, Hr, Hd, Hs, Hf, Hm, Hl.
  subst iteration_count revision_count review_decision workflow_status final_output.
  unfold WorkflowBuilder._supervisor_node, SupervisorAgent.execute,
    SupervisorAgent.should_finish.
  cbn [max_iterations scenario_A AgentState.iteration_count AgentState.revision_count
       AgentState.review_decision AgentState.final_output].
  assert (E : (5 <=? Z.of_nat k)%Z = false) by (apply Z.leb_gt; lia).
  rewrite E. cbn.
  split; [reflexivity |].
  unfold WorkflowBuilder._content_creator_node, ContentCreatorAgent.execute. cbn.
  destruct (_generate_content w _ _ _ _) as [co | msg]; cbn;
    unfold scenario_A_inv; cbn;
    rewrite ?filter_app, ?length_app; cbn; repeat split; try lia.
Qed.

Lemma scenario_A_halts (w : World) (j : nat) :
  forall k st,
    (k + j = 5)%nat ->
    scenario_A_inv k st ->
    exists st',
      WorkflowBuilder.run (scenario_A w) (S j) st = Some (st', repeat content_creator j) /\
      AgentState.iteration_count st' = 5 /\
      AgentState.workflow_status st' = completed /\
      List.length (filter (sent_by "supervisor") (AgentState.messages st')) = 5%nat /\
      (5 <= List.length (AgentState.messages st') <= 10)%nat.
Proof.
  induction j as [| j IH]; intros k st Hk Hinv.
  - assert (k = 5%nat) by lia. subst k.
    destruct Hinv as (Hi & _ & _ & _ & _ & Hm & Hl).
    assert (Hge : max_iterations (scenario_A w) <= AgentState.iteration_count st).
    { rewrite Hi. simpl. lia. }
    destruct (supervisor_forced_by_count (scenario_A w) st Hge)
      as (Hn & Hs & Hi' & Hm' & _).
    cbn [WorkflowBuilder.run]. rewrite (route_finish _ Hn).
    eexists. split; [reflexivity |].
    rewrite Hi', Hm', Hi. repeat split; auto; lia.
  - assert (Hlt : (k < 5)%nat) by lia.
    destruct (scenario_A_round w k st Hlt Hinv) as (Hroute & Hinv').
    remember (S j) as j1. cbn [WorkflowBuilder.run]. subst j1.
    rewrite Hroute.
    destruct (IH (S k) _ ltac:(lia) Hinv') as (st' & Hrun & Hrest).
    rewrite Hrun. exists st'. split; [reflexivity | exact Hrest].
Qed.

Lemma initial_state_inv (task : string) (context : list (string * string)) :
  scenario_A_inv 0 (create_initial_state task context).
Proof. unfold scenario_A_inv. cbn. repeat split; lia. Qed.

(** C2, as the code has it.  A finish forced by the termination check
    sets the status to [completed], whether or not there is a final
    output or a draft to derive one from.  In particular, with
    [max_iterations = 5] and a router that always answers
    [content_creator] with confidence 1.0, whatever the agents do, the run
    dispatches the content creator five times and halts with
    [iteration_count = 5] and status [completed]; the five routing
    messages of the supervisor have accumulated, and at most one further
    message per draft. *)
Theorem forced_finish_is_completed (w : World) :
  (forall st,
     SupervisorAgent.should_finish (max_iterations w) st = true ->
     let st1 := merge st (WorkflowBuilder._supervisor_node w st) in
     WorkflowBuilder._route_from_supervisor st1 = END /\
     AgentState.workflow_status st1 = completed) /\
  (forall task context,
     exists st',
       WorkflowBuilder.run (scenario_A w) 6 (create_initial_state task context)
       = Some (st', repeat content_creator 5) /\
       AgentState.iteration_count st' = 5 /\
       AgentState.workflow_status st' = completed /\
       List.length (filter (sent_by "supervisor") (AgentState.messages st')) = 5%nat /\
       (5 <= List.length (AgentState.messages st') <= 10)%nat).
Proof.
  split.
  - intros st Hsf. apply (forced_finish_routes_to_end w st Hsf).
  - intros task context.
    apply (scenario_A_halts w 5 0 (create_initial_state task context) eq_refl).
    apply initial_state_inv.
Qed.

(** A world in which every collaborator of the agents fails. *)
Definition failing_world (router : AgentState.t -> Outcome DecisionData) : World :=
  mk_world 5 router
    (fun _ => Raised "search unavailable")
    (fun _ _ _ _ => Raised "model unavailable")
    (fun _ _ => Raised "validator unavailable")
    (fun _ _ => Raised "model unavailable")
    (fun _ => "")
    (fun _ => "").

Definition always_researcher : AgentState.t -> Outcome DecisionData :=
  fun _ => Returned (mk_decision_data (Some "researcher") None None (Some 1.0%float)).

(** C2, as stated, fails.  In Scenario A the run halts at iteration 5 with
    5 messages, but the status is [completed], not [failed].  With a
    router that always asks for research the run ends with no final
    output and no draft at all, and the status is [completed] all the
    same. *)
Lemma scenario_A_ends_completed_not_failed :
  (exists st',
     WorkflowBuilder.run (failing_world always_drafter) 6
       (create_initial_state "History of tea" [])
     = Some (st', repeat content_creator 5) /\
     AgentState.iteration_count st' = 5 /\
     List.length (AgentState.messages st') = 5%nat /\
     AgentState.review_feedback st' = "" /\
     AgentState.workflow_status st' = completed /\
     AgentState.workflow_status st' <> failed) /\
  (exists st',
     WorkflowBuilder.run (failing_world always_researcher) 6
       (create_initial_state "History of tea" [])
     = Some (st', repeat researcher 5) /\
     AgentState.final_output st' = "" /\
     AgentState.content_draft st' = "" /\
     AgentState.workflow_status st' = completed /\
     AgentState.workflow_status st' <> failed).
Proof.
  split; eexists; (split; [vm_compute; reflexivity |]);
    cbn; repeat split; discriminate.
Qed.

(** The termination check at work: at the revision bound the supervisor
    answers [finish] although the router would send the work to the
    researcher, the draft becomes the final output, and the run ends at
    the first visit. *)
Example forced_finish_overrides_router :
  let st := merge (create_initial_state "History of tea" [])
              [ research_findings_ "Tea was first drunk in China.";
                content_draft_ "A short history of tea.";
                review_feedback_ "Needs sources."; revision_count_ 3 ] in
  let w := failing_world always_researcher in
  SupervisorAgent.should_finish (max_iterations w) st = true /\
  d_next_agent (SupervisorAgent._make_routing_decision (max_iterations w)
                  (routing_llm w) st) = "researcher" /\
  exists st',
    WorkflowBuilder.run w 1 st = Some (st', []) /\
    AgentState.next_agent st' = "finish" /\
    AgentState.workflow_status st' = completed /\
    AgentState.final_output st' = "A short history of tea." /\
    AgentState.iteration_count st' = 1.
Proof.
  cbv zeta. split; [reflexivity |]. split; [reflexivity |].
  eexists. split; [vm_compute; reflexivity |]. repeat split.
Qed.

(* ================================================================== *)
(** * Part III: further properties of the code                         *)
(* ================================================================== *)

(** ** The token bucket *)

Local Close Scope string_scope.
Local Open Scope Q_scope.

(** A [consume] made at the instant of the last refill sees the stored
    count. *)
Lemma refill_same_instant (s : Timed TokenBucket.t) :
  TokenBucket.last_refill (snd s) = fst s ->
  TokenBucket.tokens (snd s) <= inject_Z (TokenBucket.capacity (snd s)) ->
  TokenBucket.tokens (TokenBucket._refill (fst s) (snd s)) == TokenBucket.tokens (snd s).
Proof.
  intros E H. rewrite refill_tokens, E.
  rewrite Q.min_r; [ring | ].
  assert (Z0 : (fst s - fst s) * TokenBucket.refill_rate (snd s) == 0) by ring.
  rewrite Z0. lra.
Qed.

Lemma burst_served (k : nat) :
  forall s : Timed TokenBucket.t,
    TokenBucket.last_refill (snd s) = fst s ->
    TokenBucket.tokens (snd s) == inject_Z (Z.of_nat k) ->
    (Z.of_nat k <= TokenBucket.capacity (snd s))%Z ->
    exists s',
      run_calls (repeat (TokenBucket.consume 1) k) s = (Ret (repeat true k), s') /\
      fst s' = fst s /\
      TokenBucket.last_refill (snd s') = fst s' /\
      TokenBucket.capacity (snd s') = TokenBucket.capacity (snd s) /\
      TokenBucket.tokens (snd s') == 0.
Proof.
  induction k as [| k IH]; intros s E T C.
  - exists s. cbn. repeat split; auto.
  - assert (Hc : TokenBucket.tokens (snd s) <= inject_Z (TokenBucket.capacity (snd s))).
    { rewrite T. rewrite <- Zle_Qle. exact C. }
    pose proof (refill_same_instant s E Hc) as R.
    assert (K : inject_Z (Z.of_nat (S k)) == inject_Z (Z.of_nat k) + 1).
    { rewrite Nat2Z.inj_succ. unfold Z.succ. rewrite inject_Z_plus. reflexivity. }
    assert (G : Qle_bool (inject_Z 1)
                  (TokenBucket.tokens (TokenBucket._refill (fst s) (snd s))) = true).
    { apply Qle_bool_iff. rewrite R, T, K.
      assert (0 <= inject_Z (Z.of_nat k)) by (apply inject_Z_nonneg; lia).
      change (inject_Z 1) with 1. lra. }
    set (s1 := (fst s,
                TokenBucket.set_tokens
                  (TokenBucket.tokens (TokenBucket._refill (fst s) (snd s)) - inject_Z 1)
                  (TokenBucket._refill (fst s) (snd s)))).
    assert (C1 : TokenBucket.consume 1 s = (Ret true, s1)).
    { unfold TokenBucket.consume. rewrite G. reflexivity. }
    destruct (IH s1) as (s' & Hrun & Hclk & Hlast & Hcap & Htok).
    + reflexivity.
    + cbn [s1 snd TokenBucket.set_tokens TokenBucket.tokens]. rewrite R, T, K.
      change (inject_Z 1) with 1. ring.
    + cbn [s1 snd TokenBucket.set_tokens TokenBucket.capacity TokenBucket._refill]. lia.
    + exists s'. cbn [repeat run_calls]. unfold bind at 1. rewrite C1.
      unfold bind at 1. rewrite Hrun. cbn [ret].
      repeat split; auto.
Qed.

(** X2. Burst capacity: a fresh bucket of capacity [c] grants exactly [c]
    unit requests made at one instant, whatever the refill rate; the next
    one is refused. *)
Theorem fresh_bucket_serves_exactly_capacity (c : nat) (refill_rate now : Q) :
  let fresh := (now, TokenBucket.init (Z.of_nat c) refill_rate now) in
  let r := run_calls (repeat (TokenBucket.consume 1) c) fresh in
  fst r = Ret (repeat true c) /\
  fst (TokenBucket.consume 1 (snd r)) = Ret false /\
  fst (snd r) = now.
Proof.
  cbv zeta.
  destruct (burst_served c (now, TokenBucket.init (Z.of_nat c) refill_rate now))
    as (s' & Hrun & Hclk & Hlast & Hcap & Htok).
  - reflexivity.
  - reflexivity.
  - cbn. lia.
  - rewrite Hrun. cbn [fst snd]. split; [reflexivity |]. split; [| exact Hclk].
    unfold TokenBucket.consume.
    assert (Hc : TokenBucket.tokens (snd s') <= inject_Z (TokenBucket.capacity (snd s'))).
    { rewrite Htok, Hcap. cbn. apply inject_Z_nonneg. lia. }
    pose proof (refill_same_instant s' Hlast Hc) as R.
    assert (G : Qle_bool (inject_Z 1)
                  (TokenBucket.tokens (TokenBucket._refill (fst s') (snd s'))) = false).
    { apply Qle_bool_false_iff. rewrite R, Htok. reflexivity. }
    rewrite G. reflexivity.
Qed.

(** *** Requests larger than the bucket *)

Definition oversized (n : Z) (s : Timed TokenBucket.t) : Prop :=
  bucket_inv s /\ (TokenBucket.capacity (snd s) < n)%Z.

Lemma oversized_nonneg (n : Z) (s : Timed TokenBucket.t) :
  oversized n s -> (0 <= n)%Z.
Proof.
  intros [(_ & _ & H0 & H1) Hn].
  assert (H : 0 <= inject_Z (TokenBucket.capacity (snd s))) by lra.
  change 0 with (inject_Z 0) in H. rewrite <- Zle_Qle in H. lia.
Qed.

Lemma consume_oversized (n : Z) (s : Timed TokenBucket.t) :
  oversized n s ->
  TokenBucket.consume n s = (Ret false, (fst s, TokenBucket._refill (fst s) (snd s))).
Proof.
  intros [_ Hn]. unfold TokenBucket.consume.
  assert (G : Qle_bool (inject_Z n)
                (TokenBucket.tokens (TokenBucket._refill (fst s) (snd s))) = false).
  { apply Qle_bool_false_iff.
    apply Qle_lt_trans with (inject_Z (TokenBucket.capacity (snd s))).
    - exact (refill_never_exceeds_capacity (fst s) (snd s)).
    - rewrite <- Zlt_Qlt. exact Hn. }
  rewrite G. reflexivity.
Qed.

Lemma preserves_oversized_consume (n : Z) :
  preserves (oversized n) (TokenBucket.consume n).
Proof.
  intros s H. pose proof (oversized_nonneg n s H) as H0. destruct H as [HI Hn].
  split.
  - apply preserves_consume; assumption.
  - rewrite consume_capacity. exact Hn.
Qed.

Lemma preserves_oversized_wait_step (n : Z) :
  preserves (oversized n) (TokenBucket.wait_step n).
Proof.
  intros s [HI Hn]. split.
  - apply preserves_wait_step; assumption.
  - rewrite wait_step_capacity. exact Hn.
Qed.

Lemma wait_loop_oversized (n : Z) (timeout : option Q) (start : Q) (fuel : nat) :
  forall s, oversized n s ->
    fst (TokenBucket.wait_loop fuel n timeout start s) <> Ret true.
Proof.
  induction fuel as [| fuel IH]; intros s H; cbn [TokenBucket.wait_loop].
  - discriminate.
  - unfold bind at 1. rewrite (consume_oversized n s H).
    pose proof (preserves_oversized_consume n s H) as H1.
    rewrite (consume_oversized n s H) in H1. cbn [snd] in H1.
    set (s1 := (fst s, TokenBucket._refill (fst s) (snd s))) in *.
    unfold bind at 1, time_time at 1. cbn [fst snd].
    destruct (timed_out timeout (fst s1 - start)); [cbn; discriminate |].
    unfold bind at 1.
    pose proof (preserves_oversized_wait_step n s1 H1) as H2.
    destruct (TokenBucket.wait_step n s1) as [[[] | e |] s2]; cbn [snd] in H2.
    + apply IH. exact H2.
    + cbn; discriminate.
    + cbn; discriminate.
Qed.

(** One round of the wait for an oversized request when the timeout is
    falsy and the rate positive: nothing is raised, the clock moves on. *)
Lemma wait_round_oversized (n : Z) (timeout : option Q) (start : Q)
  (s : Timed TokenBucket.t) :
  oversized n s ->
  0 < TokenBucket.refill_rate (snd s) ->
  truthy timeout = false ->
  exists s2,
    (forall fuel, TokenBucket.wait_loop (S fuel) n timeout start s =
                  TokenBucket.wait_loop fuel n timeout start s2) /\
    oversized n s2 /\
    TokenBucket.refill_rate (snd s2) = TokenBucket.refill_rate (snd s).
Proof.
  intros H Hr Ht.
  pose proof (preserves_oversized_consume n s H) as H1.
  rewrite (consume_oversized n s H) in H1. cbn [snd] in H1.
  set (s1 := (fst s, TokenBucket._refill (fst s) (snd s))) in *.
  pose proof (preserves_oversized_wait_step n s1 H1) as H2.
  set (b := TokenBucket._refill (fst s1) (snd s1)).
  set (d := Qmin ((inject_Z n - TokenBucket.tokens b) / TokenBucket.refill_rate b)
                 (1 # 10)).
  assert (Hd : 0 < d).
  { unfold d. apply Q.min_glb_lt; [| reflexivity].
    apply Qlt_shift_div_l; [exact Hr |].
    assert (L : TokenBucket.tokens b < inject_Z n).
    { apply Qle_lt_trans with (inject_Z (TokenBucket.capacity (snd s1))).
      - exact (refill_never_exceeds_capacity (fst s1) (snd s1)).
      - rewrite <- Zlt_Qlt. exact (proj2 H1). }
    lra. }
  assert (W : TokenBucket.wait_step n s1 = (Ret tt, (later (fst s1) d, b))).
  { unfold TokenBucket.wait_step, TokenBucket.refill, bind, get. cbn [fst snd].
    fold b.
    assert (Z0 : Qeq_bool (TokenBucket.refill_rate b) 0 = false).
    { destruct (Qeq_bool (TokenBucket.refill_rate b) 0) eqn:E0; [| reflexivity].
      apply Qeq_bool_eq in E0. change (TokenBucket.refill_rate b)
        with (TokenBucket.refill_rate (snd s)) in E0. lra. }
    rewrite Z0. unfold time_sleep. cbn [fst snd]. fold d.
    assert (Z1 : Qlt_bool d 0 = false) by (apply Qlt_bool_false_iff; lra).
    rewrite Z1. reflexivity. }
  rewrite W in H2. cbn [snd] in H2.
  exists (later (fst s1) d, b). split; [| split; [exact H2 | reflexivity]].
  intro fuel. cbn [TokenBucket.wait_loop].
  unfold bind at 1. rewrite (consume_oversized n s H). fold s1.
  unfold bind at 1, time_time at 1. cbn [fst snd].
  rewrite (timed_out_falsy timeout _ Ht).
  unfold bind at 1. rewrite W. reflexivity.
Qed.

(** X3. A request for more tokens than the bucket can ever hold is never
    granted; when the timeout is falsy ([None] or [0]) and the rate
    positive, the wait does not end, however many rounds are run. *)
Theorem oversized_request_never_granted (fuel : nat) (n : Z) (timeout : option Q)
  (s : Timed TokenBucket.t) :
  bucket_inv s ->
  (TokenBucket.capacity (snd s) < n)%Z ->
  fst (TokenBucket.wait_for_tokens fuel n timeout s) <> Ret true /\
  (truthy timeout = false -> 0 < TokenBucket.refill_rate (snd s) ->
   fst (TokenBucket.wait_for_tokens fuel n timeout s) = Spin).
Proof.
  intros HI Hn. assert (H : oversized n s) by (split; assumption).
  unfold TokenBucket.wait_for_tokens, bind, time_time. cbn [fst snd].
  split.
  - apply wait_loop_oversized. exact H.
  - intros Ht. clear HI Hn. generalize (fst s) at 1 as start. revert s H.
    induction fuel as [| fuel IH]; intros s H start Hr.
    + reflexivity.
    + destruct (wait_round_oversized n timeout start s H Hr Ht) as (s2 & E & H2 & R2).
      rewrite E. apply IH; [exact H2 | rewrite R2; exact Hr].
Qed.

Lemma oversized_request_never_granted_witness :
  fst (TokenBucket.wait_for_tokens 25 2000 None (0, TokenBucket.init 1000 (50 # 3) 0))
    <> Ret true /\
  (truthy None = false -> 0 < 50 # 3 ->
   fst (TokenBucket.wait_for_tokens 25 2000 None (0, TokenBucket.init 1000 (50 # 3) 0))
     = Spin).
Proof.
  apply (oversized_request_never_granted 25 2000 None
           (0, TokenBucket.init 1000 (50 # 3) 0)).
  - unfold bucket_inv, within_capacity. cbn. repeat split; unfold Qle; cbn; lia.
  - cbn. lia.
Defined.

(** ** The limiter *)

Local Open Scope Z_scope.

(** In a run of calls made one after another, the slot loop answers
    [True] only when it found a free slot. *)
Lemma slot_loop_free (fuel : nat) (timeout : option Q) (start : Q)
  (s s1 : Timed RateLimiter.t) :
  RateLimiter.slot_loop fuel timeout start s = (Ret true, s1) ->
  RateLimiter.active_requests (snd s) < RateLimiter.max_concurrent (snd s).
Proof.
  revert s. induction fuel as [| fuel IH]; intros s; simpl.
  - discriminate.
  - unfold bind at 1, get.
    destruct (RateLimiter.active_requests (snd s) <? RateLimiter.max_concurrent (snd s))
      eqn:E.
    + intros _. apply Z.ltb_lt. exact E.
    + unfold bind at 1, time_time.
      destruct (timed_out timeout _).
      * cbn. discriminate.
      * unfold bind at 1, time_sleep.
        destruct (Qlt_bool _ _); [discriminate |].
        intros H. apply IH in H. exact H.
Qed.

(** What the answer of [acquire] says about the limiter. *)
Lemma acquire_result (fuel : nat) (n : Z) (timeout : option Q)
  (s s' : Timed RateLimiter.t) (ok : bool) :
  RateLimiter.acquire fuel n timeout s = (Ret ok, s') ->
  RateLimiter.config (snd s') = RateLimiter.config (snd s) /\
  RateLimiter.max_concurrent (snd s') = RateLimiter.max_concurrent (snd s) /\
  RateLimiter.active_requests (snd s') =
    RateLimiter.active_requests (snd s) + (if ok then 1 else 0) /\
  RateLimiter.request_history (snd s') =
    (if ok
     then RateLimiter.deque_append 1000 (RateLimiter.mk_entry (fst s') n)
            (RateLimiter.request_history (snd s))
     else RateLimiter.request_history (snd s)) /\
  (ok = true ->
   RateLimiter.active_requests (snd s) < RateLimiter.max_concurrent (snd s)).
Proof.
  unfold RateLimiter.acquire. unfold bind at 1, time_time at 1.
  unfold bind at 1.
  destruct (RateLimiter.slot_loop fuel timeout (fst s) s) as [[claimed | e |] s1] eqn:E1;
    try discriminate.
  pose proof (slot_loop_result _ _ _ _ _ _ E1) as R1.
  destruct claimed; cbn [negb].
  2:{ intros H. injection H as <- <-. rewrite R1. repeat split; try lia; try discriminate. }
  pose proof (slot_loop_free _ _ _ _ _ E1) as F1.
  unfold bind at 1.
  destruct (RateLimiter.on_request_bucket _ s1) as [[ra | e |] s2] eqn:E2;
    try discriminate.
  apply on_request_bucket_result in E2. destruct E2 as (t2 & _ & ->).
  unfold bind at 1.
  destruct (RateLimiter.on_token_bucket _ _) as [[ta | e |] s3] eqn:E3;
    try discriminate.
  apply on_token_bucket_result in E3. destruct E3 as (t3 & _ & ->).
  cbn [fst snd] in *.
  destruct (ra && ta); cbn [negb].
  - intros H. injection H as <- <-. cbn. rewrite R1. cbn.
    repeat split; auto.
  - intros H. injection H as <- <-. cbn. rewrite R1. cbn.
    repeat split; try lia; try discriminate.
Qed.

(** X4. A granted [acquire] claims one slot and records exactly one history
    entry, stamped with the time of return and the estimate; a denied one
    leaves counter and history as they were.  The configuration and
    [max_concurrent] never change, and [True] is only answered when a slot
    was free. *)
Theorem acquire_answer_tells_the_state (fuel : nat) (n : Z) (timeout : option Q)
  (s : Timed RateLimiter.t) (ok : bool) :
  fst (RateLimiter.acquire fuel n timeout s) = Ret ok ->
  let s' := snd (RateLimiter.acquire fuel n timeout s) in
  RateLimiter.config (snd s') = RateLimiter.config (snd s) /\
  RateLimiter.max_concurrent (snd s') = RateLimiter.max_concurrent (snd s) /\
  RateLimiter.active_requests (snd s') =
    RateLimiter.active_requests (snd s) + (if ok then 1 else 0) /\
  RateLimiter.request_history (snd s') =
    (if ok
     then RateLimiter.deque_append 1000 (RateLimiter.mk_entry (fst s') n)
            (RateLimiter.request_history (snd s))
     else RateLimiter.request_history (snd s)) /\
  (ok = true ->
   RateLimiter.active_requests (snd s) < RateLimiter.max_concurrent (snd s)).
Proof.
  intros H. cbv zeta.
  apply (acquire_result fuel n timeout s _ ok).
  destruct (RateLimiter.acquire fuel n timeout s) as [r s']. cbn in H. subst r.
  reflexivity.
Qed.

Lemma acquire_answer_tells_the_state_witness :
  let s := (0%Q, RateLimiter.init (RateLimitConfig.mk 60 150000 5) 0%Q) in
  let s' := snd (RateLimiter.acquire 50 1000 (Some 30%Q) s) in
  RateLimiter.config (snd s') = RateLimiter.config (snd s) /\
  RateLimiter.max_concurrent (snd s') = RateLimiter.max_concurrent (snd s) /\
  RateLimiter.active_requests (snd s') =
    RateLimiter.active_requests (snd s) + (if true then 1 else 0) /\
  RateLimiter.request_history (snd s') =
    (if true
     then RateLimiter.deque_append 1000 (RateLimiter.mk_entry (fst s') 1000)
            (RateLimiter.request_history (snd s))
     else RateLimiter.request_history (snd s)) /\
  (true = true ->
   RateLimiter.active_requests (snd s) < RateLimiter.max_concurrent (snd s)).
Proof.
  apply (acquire_answer_tells_the_state 50 1000 (Some 30%Q)
           (0%Q, RateLimiter.init (RateLimitConfig.mk 60 150000 5) 0%Q) true).
  vm_compute. reflexivity.
Defined.

(** *** The context manager *)

(** X5. [__enter__] claims one slot or raises with the counter where it was;
    [__exit__] after a successful [__enter__] puts the counter back. *)
Theorem enter_exit_balance (fuel : nat) (s : Timed RateLimiter.t) :
  0 <= RateLimiter.active_requests (snd s) ->
  let r := RateLimiter.acquire fuel 1000 (Some 30%Q) s in
  let entered := RateLimiter.__enter__ fuel s in
  (fst r = Ret true ->
   fst entered = Ret tt /\
   RateLimiter.active_requests (snd (snd entered)) =
     RateLimiter.active_requests (snd s) + 1 /\
   RateLimiter.active_requests (snd (snd (RateLimiter.__exit__ (snd entered)))) =
     RateLimiter.active_requests (snd s)) /\
  (fst r = Ret false ->
   fst entered = Exn (RuntimeError "Failed to acquire rate limit within timeout") /\
   RateLimiter.active_requests (snd (snd entered)) =
     RateLimiter.active_requests (snd s)).
Proof.
  intros H0. cbv zeta.
  unfold RateLimiter.__enter__, RateLimiter.default_estimated_tokens,
    RateLimiter.default_timeout. unfold bind.
  destruct (RateLimiter.acquire fuel 1000 (Some 30%Q) s) as [r s1] eqn:E.
  cbn [fst]. split; intros ->.
  - destruct (acquire_result _ _ _ _ _ _ E) as (_ & _ & A & _).
    cbn. rewrite A. repeat split; lia.
  - destruct (acquire_result _ _ _ _ _ _ E) as (_ & _ & A & _).
    cbn. rewrite A. repeat split; lia.
Qed.

Lemma enter_exit_balance_witness :
  let s := (0%Q, RateLimiter.init (RateLimitConfig.mk 60 150000 5) 0%Q) in
  let r := RateLimiter.acquire 50 1000 (Some 30%Q) s in
  let entered := RateLimiter.__enter__ 50 s in
  (fst r = Ret true ->
   fst entered = Ret tt /\
   RateLimiter.active_requests (snd (snd entered)) =
     RateLimiter.active_requests (snd s) + 1 /\
   RateLimiter.active_requests (snd (snd (RateLimiter.__exit__ (snd entered)))) =
     RateLimiter.active_requests (snd s)) /\
  (fst r = Ret false ->
   fst entered = Exn (RuntimeError "Failed to acquire rate limit within timeout") /\
   RateLimiter.active_requests (snd (snd entered)) =
     RateLimiter.active_requests (snd s)).
Proof.
  apply (enter_exit_balance 50
           (0%Q, RateLimiter.init (RateLimitConfig.mk 60 150000 5) 0%Q)).
  cbn. lia.
Defined.

(** *** A rate of zero *)

Lemma not_timed_out_at_start (timeout : option Q) (now : Q) :
  (forall t, timeout = Some t -> (0 <= t)%Q) ->
  timed_out timeout (now - now) = false.
Proof.
  intros H. unfold timed_out. destruct timeout as [t |].
  - specialize (H t eq_refl).
    assert (E : Qlt_bool t (now - now) = false).
    { apply Qlt_bool_false_iff. lra. }
    rewrite E. apply andb_false_r.
  - reflexivity.
Qed.

(** A bucket that does not refill and holds too little does not wait and
    does not time out: the division by the rate raises. *)
Lemma wait_for_tokens_zero_rate (fuel : nat) (n : Z) (timeout : option Q)
  (s : Timed TokenBucket.t) :
  (TokenBucket.refill_rate (snd s) == 0)%Q ->
  (TokenBucket.tokens (TokenBucket._refill (fst s) (snd s)) < inject_Z n)%Q ->
  (forall t, timeout = Some t -> (0 <= t)%Q) ->
  TokenBucket.wait_for_tokens (S fuel) n timeout s =
  (Exn ZeroDivisionError,
   (fst s, TokenBucket._refill (fst s) (TokenBucket._refill (fst s) (snd s)))).
Proof.
  intros Hr Hn Ht.
  unfold TokenBucket.wait_for_tokens. unfold bind at 1, time_time at 1.
  cbn [TokenBucket.wait_loop]. unfold bind at 1. unfold TokenBucket.consume.
  apply Qle_bool_false_iff in Hn. rewrite Hn.
  unfold bind at 1, time_time at 1. cbn [fst snd].
  rewrite (not_timed_out_at_start timeout (fst s) Ht).
  unfold bind at 1.
  unfold TokenBucket.wait_step, TokenBucket.refill, bind, get. cbn [fst snd].
  assert (Z0 : Qeq_bool
                 (TokenBucket.refill_rate
                    (TokenBucket._refill (fst s) (TokenBucket._refill (fst s) (snd s))))
                 0 = true).
  { apply Qeq_bool_iff. exact Hr. }
  rewrite Z0. reflexivity.
Qed.

(** X6. A limiter configured with [requests_per_minute = 0] does not deny:
    the first [acquire] claims a slot and then raises
    [ZeroDivisionError] out of the call-rate bucket, leaving the slot
    claimed; the caller has to release it. *)
Theorem zero_request_rate_raises_holding_the_slot (fuel : nat) (n : Z)
  (timeout : option Q) (config : RateLimitConfig.t) (now : Q) :
  RateLimitConfig.requests_per_minute config = 0 ->
  0 < RateLimitConfig.max_concurrent config ->
  (forall t, timeout = Some t -> (0 <= t)%Q) ->
  let r := RateLimiter.acquire (S fuel) n timeout (now, RateLimiter.init config now) in
  fst r = Exn ZeroDivisionError /\
  RateLimiter.active_requests (snd (snd r)) = 1 /\
  RateLimiter.request_history (snd (snd r)) = [] /\
  fst (snd r) = now.
Proof.
  intros Hrpm Hmc Ht. cbv zeta.
  destruct config as [rpm tpm mc]. cbn in Hrpm, Hmc. subst rpm.
  set (s0 := (now, RateLimiter.init (RateLimitConfig.mk 0 tpm mc) now)).
  assert (R : exists b,
             RateLimiter.acquire (S fuel) n timeout s0 =
             (Exn ZeroDivisionError,
              (now, RateLimiter.set_request_bucket b
                      (RateLimiter.set_active_requests 1 (snd s0))))).
  { unfold RateLimiter.acquire. unfold bind at 1, time_time at 1.
    cbn [RateLimiter.slot_loop]. unfold bind at 1.
    unfold bind at 1, get at 1.
    assert (E : (RateLimiter.active_requests (snd s0) <?
                 RateLimiter.max_concurrent (snd s0)) = true)
      by (apply Z.ltb_lt; exact Hmc).
    rewrite E.
    unfold bind at 1, RateLimiter.on_limiter at 1, modify at 1. unfold ret at 1.
    cbn [negb]. unfold bind at 1. unfold RateLimiter.on_request_bucket, zoom.
    rewrite wait_for_tokens_zero_rate.
    - eexists. reflexivity.
    - reflexivity.
    - apply Qle_lt_trans with (inject_Z 0).
      + exact (refill_never_exceeds_capacity now
                 (TokenBucket.init 0 (inject_Z 0 / 60) now)).
      + reflexivity.
    - exact Ht. }
  destruct R as [b R]. rewrite R. cbn. repeat split.
Qed.

Lemma zero_request_rate_raises_holding_the_slot_witness :
  let r := RateLimiter.acquire 3 1000 (Some 30%Q)
             (0%Q, RateLimiter.init (RateLimitConfig.mk 0 150000 5) 0%Q) in
  fst r = Exn ZeroDivisionError /\
  RateLimiter.active_requests (snd (snd r)) = 1 /\
  RateLimiter.request_history (snd (snd r)) = [] /\
  fst (snd r) = 0%Q.
Proof.
  apply (zero_request_rate_raises_holding_the_slot 2 1000 (Some 30%Q)
           (RateLimitConfig.mk 0 150000 5) 0%Q).
  - reflexivity.
  - cbn. lia.
  - intros t E. injection E as <-. unfold Qle. cbn. lia.
Defined.

(** *** Both buckets of a limiter, and [get_stats] *)

Lemma preserves_and {S A : Type} (I J : S -> Prop) (m : M S A) :
  preserves I m -> preserves J m -> preserves (fun s => I s /\ J s) m.
Proof. intros HI HJ s [H1 H2]. split; [apply HI | apply HJ]; assumption. Qed.

(** [preserves_zoom] with an invariant of the component that may mention
    the state the call started from. *)
Lemma preserves_zoom_from {S T A : Type} (I : S -> Prop) (J : S -> T -> Prop)
  (proj : S -> T) (inj : T -> S -> S) (m : M T A) :
  (forall s, I s -> J s (proj s)) ->
  (forall s t', I s -> J s t' -> I (inj t' s)) ->
  (forall s, I s -> preserves (J s) m) ->
  preserves I (zoom proj inj m).
Proof.
  intros H1 H2 H3 s Hs. unfold zoom.
  pose proof (H3 s Hs (proj s) (H1 s Hs)) as H.
  destruct (m (proj s)) as [r t']. cbn in *. apply H2; assumption.
Qed.

(** The clock of a bucket does not run backwards and its capacity is
    fixed. *)
Definition clock_cap (c0 : Q) (k : Z) (t : Timed TokenBucket.t) : Prop :=
  (c0 <= fst t)%Q /\ TokenBucket.capacity (snd t) = k.

Lemma clock_cap_refill (c0 : Q) (k : Z) : preserves (clock_cap c0 k) TokenBucket.refill.
Proof. intros s H. exact H. Qed.

Lemma clock_cap_consume (c0 : Q) (k : Z) (n : Z) :
  preserves (clock_cap c0 k) (TokenBucket.consume n).
Proof.
  intros s H. unfold TokenBucket.consume. destruct (Qle_bool _ _); exact H.
Qed.

Lemma clock_cap_sleep (c0 : Q) (k : Z) (d : Q) :
  preserves (clock_cap c0 k) (time_sleep d).
Proof.
  apply preserves_time_sleep. intros s Hd [H1 H2]. split; [| exact H2].
  cbn [fst]. rewrite later_correct. lra.
Qed.

#[local] Hint Resolve clock_cap_refill clock_cap_consume clock_cap_sleep : pres.

Lemma clock_cap_wait_step (c0 : Q) (k : Z) (n : Z) :
  preserves (clock_cap c0 k) (TokenBucket.wait_step n).
Proof. unfold TokenBucket.wait_step. auto 7 with pres. Qed.

#[local] Hint Resolve clock_cap_wait_step : pres.

Lemma clock_cap_wait_loop (c0 : Q) (k : Z) (fuel : nat) (n : Z)
  (timeout : option Q) (start : Q) :
  preserves (clock_cap c0 k) (TokenBucket.wait_loop fuel n timeout start).
Proof.
  induction fuel as [| fuel IH]; simpl.
  - apply preserves_spin.
  - apply preserves_bind; [auto with pres | intros ok].
    destruct ok; auto 7 with pres.
Qed.

Lemma clock_cap_wait_for_tokens (c0 : Q) (k : Z) (fuel : nat) (n : Z)
  (timeout : option Q) :
  preserves (clock_cap c0 k) (TokenBucket.wait_for_tokens fuel n timeout).
Proof.
  unfold TokenBucket.wait_for_tokens.
  auto using clock_cap_wait_loop with pres.
Qed.

Lemma clock_cap_available_tokens (c0 : Q) (k : Z) :
  preserves (clock_cap c0 k) TokenBucket.available_tokens.
Proof. unfold TokenBucket.available_tokens. auto 7 with pres. Qed.

(** The part of a limiter's state that the counter does not cover. *)
Definition limiter_inv (cfg : RateLimitConfig.t) (s : Timed RateLimiter.t) : Prop :=
  RateLimiter.config (snd s) = cfg /\
  bucket_inv (fst s, RateLimiter.request_bucket (snd s)) /\
  TokenBucket.capacity (RateLimiter.request_bucket (snd s)) =
    RateLimitConfig.requests_per_minute cfg /\
  bucket_inv (fst s, RateLimiter.token_bucket (snd s)) /\
  TokenBucket.capacity (RateLimiter.token_bucket (snd s)) =
    RateLimitConfig.tokens_per_minute cfg /\
  (List.length (RateLimiter.request_history (snd s)) <= 1000)%nat.

Lemma bucket_inv_clock (c c' : Q) (b : TokenBucket.t) :
  (c <= c')%Q -> bucket_inv (c, b) -> bucket_inv (c', b).
Proof.
  unfold bucket_inv. cbn. intros H (H1 & H2 & H3). repeat split; try tauto.
  - lra.
  - apply H3.
  - apply H3.
Qed.

Lemma limiter_inv_later (cfg : RateLimitConfig.t) (s : Timed RateLimiter.t) (d : Q) :
  (0 <= d)%Q -> limiter_inv cfg s -> limiter_inv cfg (later (fst s) d, snd s).
Proof.
  intros Hd (H1 & H2 & H3 & H4 & H5 & H6).
  assert (L : (fst s <= later (fst s) d)%Q) by (rewrite later_correct; lra).
  repeat split; auto; cbn [fst snd];
    try (eapply bucket_inv_clock; [exact L |]; assumption).
  all: try apply H2; try apply H4.
  all: eapply bucket_inv_clock; [exact L |]; assumption.
Qed.

Lemma limiter_inv_counter (cfg : RateLimitConfig.t) (s : Timed RateLimiter.t) (a : Z) :
  limiter_inv cfg s -> limiter_inv cfg (fst s, RateLimiter.set_active_requests a (snd s)).
Proof. intros H. exact H. Qed.

Lemma limiter_inv_on_request_bucket {A : Type} (cfg : RateLimitConfig.t)
  (m : M (Timed TokenBucket.t) A) :
  preserves bucket_inv m ->
  (forall c0 k, preserves (clock_cap c0 k) m) ->
  preserves (limiter_inv cfg) (RateLimiter.on_request_bucket m).
Proof.
  intros Hb Hc. unfold RateLimiter.on_request_bucket.
  apply (preserves_zoom_from (limiter_inv cfg)
           (fun s t => bucket_inv t /\
                       clock_cap (fst s) (RateLimitConfig.requests_per_minute cfg) t)).
  - intros s (H1 & H2 & H3 & H4 & H5 & H6). split; [exact H2 |].
    split; [cbn; lra | exact H3].
  - intros s [c' b'] (H1 & H2 & H3 & H4 & H5 & H6) (J1 & J2 & J3). cbn in J2, J3.
    unfold limiter_inv. cbn. repeat split; auto; try apply J1; try apply H4.
    all: try (apply (bucket_inv_clock (fst s) c'); assumption).
    all: destruct (bucket_inv_clock (fst s) c' _ J2 H4) as (K1 & K2 & K3 & K4);
      assumption.
  - intros s _. apply preserves_and; [exact Hb | apply Hc].
Qed.

Lemma limiter_inv_on_token_bucket {A : Type} (cfg : RateLimitConfig.t)
  (m : M (Timed TokenBucket.t) A) :
  preserves bucket_inv m ->
  (forall c0 k, preserves (clock_cap c0 k) m) ->
  preserves (limiter_inv cfg) (RateLimiter.on_token_bucket m).
Proof.
  intros Hb Hc. unfold RateLimiter.on_token_bucket.
  apply (preserves_zoom_from (limiter_inv cfg)
           (fun s t => bucket_inv t /\
                       clock_cap (fst s) (RateLimitConfig.tokens_per_minute cfg) t)).
  - intros s (H1 & H2 & H3 & H4 & H5 & H6). split; [exact H4 |].
    split; [cbn; lra | exact H5].
  - intros s [c' b'] (H1 & H2 & H3 & H4 & H5 & H6) (J1 & J2 & J3). cbn in J2, J3.
    unfold limiter_inv. cbn. repeat split; auto; try apply J1; try apply H2.
    all: try (apply (bucket_inv_clock (fst s) c'); assumption).
    all: destruct (bucket_inv_clock (fst s) c' _ J2 H2) as (K1 & K2 & K3 & K4);
      assumption.
  - intros s _. apply preserves_and; [exact Hb | apply Hc].
Qed.

Lemma deque_append_length {A : Type} (maxlen : nat) (x : A) (l : list A) :
  (List.length (RateLimiter.deque_append maxlen x l) <= maxlen)%nat.
Proof.
  unfold RateLimiter.deque_append. rewrite length_skipn. lia.
Qed.

Lemma limiter_inv_slot_loop (cfg : RateLimitConfig.t) (fuel : nat)
  (timeout : option Q) (start : Q) :
  preserves (limiter_inv cfg) (RateLimiter.slot_loop fuel timeout start).
Proof.
  induction fuel as [| fuel IH]; simpl.
  - apply preserves_spin.
  - apply preserves_bind; [apply preserves_get | intros s0].
    apply preserves_if.
    + apply preserves_bind; [| intros; apply preserves_ret].
      apply preserves_modify. intros s H. exact H.
    + apply preserves_bind; [apply preserves_time_time | intros now].
      apply preserves_if; [apply preserves_ret |].
      apply preserves_bind; [| intros; exact IH].
      apply preserves_time_sleep. intros s Hd H.
      apply limiter_inv_later; assumption.
Qed.

Lemma limiter_inv_acquire (cfg : RateLimitConfig.t) (fuel : nat) (n : Z)
  (timeout : option Q) :
  0 <= n ->
  preserves (limiter_inv cfg) (RateLimiter.acquire fuel n timeout).
Proof.
  intros Hn. unfold RateLimiter.acquire.
  apply preserves_bind; [apply preserves_time_time | intros start].
  apply preserves_bind; [apply limiter_inv_slot_loop | intros claimed].
  apply preserves_if; [apply preserves_ret |].
  apply preserves_bind; [| intros ra].
  { apply limiter_inv_on_request_bucket.
    - apply preserves_wait_for_tokens. lia.
    - intros c0 k. apply clock_cap_wait_for_tokens. }
  apply preserves_bind; [| intros ta].
  { apply limiter_inv_on_token_bucket.
    - apply preserves_wait_for_tokens. exact Hn.
    - intros c0 k. apply clock_cap_wait_for_tokens. }
  apply preserves_if.
  - apply preserves_bind; [| intros; apply preserves_ret].
    apply preserves_modify. intros s H. exact H.
  - apply preserves_bind; [apply preserves_time_time | intros now].
    apply preserves_bind; [| intros; apply preserves_ret].
    apply preserves_modify. intros s (H1 & H2 & H3 & H4 & H5 & H6).
    unfold limiter_inv. cbn [fst snd RateLimiter.set_request_history
      RateLimiter.config RateLimiter.request_bucket RateLimiter.token_bucket
      RateLimiter.request_history].
    repeat split; auto; try apply H2; try apply H4.
    apply deque_append_length.
Qed.

(** The calls a caller can make: estimates and waits are not negative. *)
Definition limiter_op_ok (op : LimiterOp) : Prop :=
  match op with
  | OpAcquire n _ => 0 <= n
  | OpRelease _ => True
  | OpPass d => (0 <= d)%Q
  end.

Lemma limiter_inv_op (cfg : RateLimitConfig.t) (fuel : nat) (op : LimiterOp) :
  limiter_op_ok op -> preserves (limiter_inv cfg) (limiter_op fuel op).
Proof.
  destruct op as [n timeout | a | d]; simpl; intros Hop.
  - apply preserves_bind; [apply limiter_inv_acquire; exact Hop |
                           intros; apply preserves_ret].
  - apply preserves_modify. intros s H. exact H.
  - apply preserves_modify. intros s H. apply limiter_inv_later; assumption.
Qed.

Lemma limiter_inv_init (config : RateLimitConfig.t) (now : Q) :
  0 <= RateLimitConfig.requests_per_minute config ->
  0 <= RateLimitConfig.tokens_per_minute config ->
  limiter_inv config (now, RateLimiter.init config now).
Proof.
  intros Hr Ht.
  assert (P : forall c : Z, 0 <= c -> bucket_inv (now, TokenBucket.init c (inject_Z c / 60) now)).
  { intros c Hc. pose proof (inject_Z_nonneg c Hc) as Q0.
    unfold bucket_inv, within_capacity. cbn. repeat split; try lra.
    apply Qle_shift_div_l; [reflexivity | lra]. }
  split; [reflexivity |]. split; [apply P; assumption |].
  split; [reflexivity |]. split; [apply P; assumption |].
  split; [reflexivity | cbn; lia].
Qed.

(** [int(q)] of a count between [0] and the capacity. *)
Lemma truncate_within (q : Q) (c : Z) :
  (0 <= q)%Q -> (q <= inject_Z c)%Q ->
  0 <= Z.quot (Qnum q) (Zpos (Qden q)) <= c.
Proof.
  destruct q as [a b]. unfold Qle. cbn. intros H0 H1.
  rewrite Z.quot_div_nonneg by lia. split.
  - apply Z.div_pos; lia.
  - apply Z.div_le_upper_bound; lia.
Qed.

Lemma available_tokens_result (t : Timed TokenBucket.t) :
  bucket_inv t ->
  exists z,
    TokenBucket.available_tokens t =
      (Ret z, (fst t, TokenBucket._refill (fst t) (snd t))) /\
    0 <= z <= TokenBucket.capacity (snd t).
Proof.
  intros H. eexists. split; [reflexivity |].
  pose proof (bucket_inv_refill t H) as (_ & _ & W0 & W1). cbn [snd] in W0, W1.
  apply truncate_within; assumption.
Qed.

(** X7. Whatever calls were made before, [get_stats] returns (it never
    raises) and reports numbers within their limits: the counter between
    [0] and [max_concurrent], at most 1000 recent requests, and whole
    token counts between [0] and the configured rates.  It changes neither
    the counter nor the history. *)
Theorem get_stats_reports_within_limits (fuel : nat) (config : RateLimitConfig.t)
  (now : Q) (ops : list LimiterOp) :
  0 <= RateLimitConfig.requests_per_minute config ->
  0 <= RateLimitConfig.tokens_per_minute config ->
  0 <= RateLimitConfig.max_concurrent config ->
  Forall limiter_op_ok ops ->
  let s := snd (run_ops (limiter_op fuel) ops (now, RateLimiter.init config now)) in
  exists st,
    fst (get_stats s) = Ret st /\
    stats_max_concurrent st = RateLimitConfig.max_concurrent config /\
    0 <= stats_active_requests st <= stats_max_concurrent st /\
    0 <= requests_last_minute st <= 1000 /\
    requests_per_minute_limit st = RateLimitConfig.requests_per_minute config /\
    tokens_per_minute_limit st = RateLimitConfig.tokens_per_minute config /\
    0 <= available_request_tokens st <= requests_per_minute_limit st /\
    0 <= available_api_tokens st <= tokens_per_minute_limit st /\
    RateLimiter.active_requests (snd (snd (get_stats s))) =
      RateLimiter.active_requests (snd s) /\
    RateLimiter.request_history (snd (snd (get_stats s))) =
      RateLimiter.request_history (snd s).
Proof.
  intros Hr Ht Hm Hops. cbv zeta.
  set (s := snd (run_ops (limiter_op fuel) ops (now, RateLimiter.init config now))).
  assert (HI : limiter_inv config s).
  { apply preserves_run_ops.
    - intros op Hin. apply limiter_inv_op.
      rewrite Forall_forall in Hops. apply Hops. exact Hin.
    - apply limiter_inv_init; assumption. }
  assert (HC : counter_in_bounds (RateLimitConfig.max_concurrent config) s).
  { apply preserves_run_ops.
    - intros op _. apply preserves_limiter_op.
    - unfold counter_in_bounds. cbn. lia. }
  clearbody s. destruct HI as (H1 & H2 & H3 & H4 & H5 & H6).
  destruct HC as [C1 C2].
  destruct (available_tokens_result _ H2) as (z1 & E1 & B1).
  assert (H4' : bucket_inv
                  (fst s, RateLimiter.token_bucket
                            (RateLimiter.set_request_bucket
                               (TokenBucket._refill (fst s)
                                  (RateLimiter.request_bucket (snd s))) (snd s))))
    by exact H4.
  destruct (available_tokens_result _ H4') as (z2 & E2 & B2).
  cbn [fst snd RateLimiter.token_bucket RateLimiter.set_request_bucket]
    in E1, E2, B1, B2.
  assert (G : exists s',
             get_stats s =
             (Ret (mk_stats
                     (RateLimiter.active_requests (snd s))
                     (RateLimiter.max_concurrent (snd s))
                     (Z.of_nat (List.length
                        (filter (fun e => Qlt_bool (fst s - 60) (RateLimiter.timestamp e))
                                (RateLimiter.request_history (snd s)))))
                     (RateLimitConfig.requests_per_minute (RateLimiter.config (snd s)))
                     z1 z2
                     (RateLimitConfig.tokens_per_minute (RateLimiter.config (snd s)))),
              s') /\
             RateLimiter.active_requests (snd s') = RateLimiter.active_requests (snd s) /\
             RateLimiter.request_history (snd s') = RateLimiter.request_history (snd s)).
  { unfold get_stats. unfold bind at 1, time_time at 1.
    unfold bind at 1, get at 1. unfold bind at 1.
    unfold RateLimiter.on_request_bucket at 1, zoom at 1. rewrite E1.
    unfold bind at 1.
    unfold RateLimiter.on_token_bucket at 1, zoom at 1.
    cbn [fst snd RateLimiter.token_bucket RateLimiter.set_request_bucket].
    rewrite E2. eexists. split; [reflexivity |]. split; reflexivity. }
  destruct G as (s' & G & A & Hh). rewrite G. cbn [fst snd].
  eexists. split; [reflexivity |]. cbn.
  pose proof (filter_length_le
                (fun e => Qlt_bool (fst s - 60) (RateLimiter.timestamp e))
                (RateLimiter.request_history (snd s))) as FL.
  rewrite H1. rewrite H3 in B1. rewrite H5 in B2.
  repeat split; auto; try lia.
Qed.

Lemma get_stats_reports_within_limits_witness :
  let s := snd (run_ops (limiter_op 400) limiter_ops_example
                  (0%Q, RateLimiter.init (RateLimitConfig.mk 60 3000 2) 0%Q)) in
  exists st,
    fst (get_stats s) = Ret st /\
    stats_max_concurrent st = 2 /\
    0 <= stats_active_requests st <= stats_max_concurrent st /\
    0 <= requests_last_minute st <= 1000 /\
    requests_per_minute_limit st = 60 /\
    tokens_per_minute_limit st = 3000 /\
    0 <= available_request_tokens st <= requests_per_minute_limit st /\
    0 <= available_api_tokens st <= tokens_per_minute_limit st /\
    RateLimiter.active_requests (snd (snd (get_stats s))) =
      RateLimiter.active_requests (snd s) /\
    RateLimiter.request_history (snd (snd (get_stats s))) =
      RateLimiter.request_history (snd s).
Proof.
  apply (get_stats_reports_within_limits 400 (RateLimitConfig.mk 60 3000 2) 0%Q
           limiter_ops_example).
  - cbn. lia.
  - cbn. lia.
  - cbn. lia.
  - unfold limiter_ops_example.
    repeat (apply Forall_cons; [cbn; try lia; try exact I; unfold Qle; cbn; lia |]).
    apply Forall_nil.
Defined.

(** ** [BaseAgent.invoke_llm]: attempts, backoff and bookkeeping *)

(** The backoff sleeps of a call trace, in order, and the number of
    [acquire] and model calls in it. *)
Definition sleeps (tr : list Event) : list Q :=
  flat_map (fun ev => match ev with EvSleep d => [d] | _ => [] end) tr.

Definition acquires (tr : list Event) : nat :=
  List.length (filter (fun ev => match ev with EvAcquire _ _ => true | _ => false end) tr).

Definition invokes (tr : list Event) : nat :=
  List.length (filter (fun ev => match ev with EvInvoke _ => true | _ => false end) tr).

Lemma sleeps_app (l1 l2 : list Event) : sleeps (l1 ++ l2) = (sleeps l1 ++ sleeps l2)%list.
Proof. apply flat_map_app. Qed.

Lemma acquires_app (l1 l2 : list Event) :
  acquires (l1 ++ l2) = (acquires l1 + acquires l2)%nat.
Proof. unfold acquires. rewrite filter_app, length_app. reflexivity. Qed.

Lemma invokes_app (l1 l2 : list Event) :
  invokes (l1 ++ l2) = (invokes l1 + invokes l2)%nat.
Proof. unfold invokes. rewrite filter_app, length_app. reflexivity. Qed.

Lemma backoff_length_ok (attempt : Z) : Qlt_bool (inject_Z (2 ^ attempt)) 0 = false.
Proof.
  apply Qlt_bool_false_iff. apply inject_Z_nonneg. apply Z.pow_nonneg. lia.
Qed.

(** What one round of the [for] loop does to the agent. *)
Definition attempt_post (max_retries attempt : Z) (s : Timed BaseAgent.t)
  (r : Res (option string) * Timed BaseAgent.t) : Prop :=
  let a := snd s in
  let a1 := snd (snd r) in
  (acquires (BaseAgent.trace a1) <= acquires (BaseAgent.trace a) + 1)%nat /\
  (invokes (BaseAgent.trace a1) <= invokes (BaseAgent.trace a) + 1)%nat /\
  match fst r with
  | Ret (Some c) =>
      BaseAgent.total_requests a1 = BaseAgent.total_requests a + 1 /\
      BaseAgent.errors a1 = BaseAgent.errors a /\
      sleeps (BaseAgent.trace a1) = sleeps (BaseAgent.trace a)
  | Ret None =>
      attempt <> max_retries - 1 /\
      BaseAgent.total_requests a1 = BaseAgent.total_requests a /\
      BaseAgent.errors a1 = BaseAgent.errors a /\
      sleeps (BaseAgent.trace a1) =
        (sleeps (BaseAgent.trace a) ++ [inject_Z (2 ^ attempt)])%list
  | Exn e =>
      attempt = max_retries - 1 /\
      BaseAgent.total_requests a1 = BaseAgent.total_requests a /\
      BaseAgent.errors a1 =
        (BaseAgent.errors a ++
         [BaseAgent.mk_error (fst (snd r)) (exn_str e) (exn_type_name e)])%list /\
      sleeps (BaseAgent.trace a1) = sleeps (BaseAgent.trace a)
  | Spin =>
      BaseAgent.total_requests a1 = BaseAgent.total_requests a /\
      BaseAgent.errors a1 = BaseAgent.errors a /\
      sleeps (BaseAgent.trace a1) = sleeps (BaseAgent.trace a)
  end.

Ltac close_attempt :=
  unfold attempt_post; cbn -[acquires invokes sleeps];
  rewrite ?sleeps_app, ?acquires_app, ?invokes_app; cbn;
  rewrite ?app_nil_r;
  repeat split; auto; try lia.

Lemma attempt_summary (fuel : nat) (call : BaseAgent.LLMCall) (max_retries attempt : Z)
  (s : Timed BaseAgent.t) :
  attempt_post max_retries attempt s
    (try_except
       (c <- BaseAgent.attempt_body fuel call ;; ret (Some c))%monad
       (BaseAgent.attempt_handler max_retries attempt) s).
Proof.
  unfold try_except, BaseAgent.attempt_body, BaseAgent.rate_limiter_acquire,
    BaseAgent.on_rate_limiter, BaseAgent.attempt_handler, BaseAgent.rate_limiter_release,
    BaseAgent.llm_invoke, BaseAgent.sleep, BaseAgent.log, BaseAgent.on_agent,
    BaseAgent.active_now, BaseAgent.on_rate_limiter, RateLimiter.release,
    RateLimiter.on_limiter, time_sleep, time_time, elapse, modify, zoom, bind, ret, raise.
  rewrite !backoff_length_ok.
  destruct (RateLimiter.acquire fuel _ _ _) as [[granted | e |] s1]; cbn.
  - destruct granted; cbn.
    + destruct (BaseAgent.outcome call) as [resp | msg]; cbn.
      * close_attempt.
      * destruct (attempt =? max_retries - 1) eqn:E; cbn;
          [apply Z.eqb_eq in E | apply Z.eqb_neq in E]; close_attempt.
    + destruct (attempt =? max_retries - 1) eqn:E; cbn;
        [apply Z.eqb_eq in E | apply Z.eqb_neq in E]; close_attempt.
  - destruct (attempt =? max_retries - 1) eqn:E; cbn;
      [apply Z.eqb_eq in E | apply Z.eqb_neq in E]; close_attempt.
  - close_attempt.
Qed.

(** The sleep before the retry that follows attempt number [k]. *)
Definition backoff (k : Z) : Q := inject_Z (2 ^ k).

Definition loop_post (max_retries : Z) (rest : list Z) (s : Timed BaseAgent.t)
  (r : Res string * Timed BaseAgent.t) : Prop :=
  let a := snd s in
  let a1 := snd (snd r) in
  match fst r with
  | Ret c =>
      rest <> [] /\
      BaseAgent.total_requests a1 = BaseAgent.total_requests a + 1 /\
      BaseAgent.errors a1 = BaseAgent.errors a
  | Exn e =>
      BaseAgent.total_requests a1 = BaseAgent.total_requests a /\
      ((rest = [] /\ e = RuntimeError (BaseAgent.failed_after max_retries) /\
        BaseAgent.errors a1 = BaseAgent.errors a) \/
       (exists rest', rest = (max_retries - 1) :: rest' /\
          BaseAgent.errors a1 =
            (BaseAgent.errors a ++
             [BaseAgent.mk_error (fst (snd r)) (exn_str e) (exn_type_name e)])%list))
  | Spin =>
      rest <> [] /\
      BaseAgent.total_requests a1 = BaseAgent.total_requests a /\
      BaseAgent.errors a1 = BaseAgent.errors a
  end.

Lemma invoke_loop_summary (fuel : nat) (llm : Z -> BaseAgent.LLMCall) (max_retries : Z)
  (todo : list Z) :
  forall s : Timed BaseAgent.t,
    let r := BaseAgent.invoke_loop fuel llm max_retries todo s in
    (acquires (BaseAgent.trace (snd (snd r))) <=
     acquires (BaseAgent.trace (snd s)) + List.length todo)%nat /\
    (invokes (BaseAgent.trace (snd (snd r))) <=
     invokes (BaseAgent.trace (snd s)) + List.length todo)%nat /\
    exists done rest,
      todo = (done ++ rest)%list /\
      sleeps (BaseAgent.trace (snd (snd r))) =
        (sleeps (BaseAgent.trace (snd s)) ++ map backoff done)%list /\
      ~ In (max_retries - 1) done /\
      loop_post max_retries rest s r.
Proof.
  induction todo as [| attempt todo IH]; intros s; cbv zeta.
  - cbn [BaseAgent.invoke_loop]. unfold raise. cbn [fst snd List.length].
    split; [apply Nat.le_add_r |]. split; [apply Nat.le_add_r |].
    exists [], []. unfold loop_post. cbn [fst snd app map].
    rewrite app_nil_r. repeat split; auto.
  - cbn [BaseAgent.invoke_loop].
    pose proof (attempt_summary fuel (llm attempt) max_retries attempt s) as H.
    unfold bind in *.
    destruct (try_except _ _ s) as [[[c |] | e |] s1];
      unfold attempt_post in H; cbn [fst snd] in H.
    + destruct H as (Ha & Hi & Hq & He & Hs). cbn [ret fst snd List.length].
      split; [lia |]. split; [lia |].
      exists [], (attempt :: todo). cbn [app map]. rewrite app_nil_r.
      repeat split; auto. discriminate.
    + destruct H as (Ha & Hi & Hne & Hq & He & Hs).
      destruct (IH s1) as (Ha' & Hi' & done & rest & Htodo & Hs' & Hnot & Hpost).
      cbv zeta in Ha', Hi', Hs', Hpost. cbn [List.length].
      split; [lia |]. split; [lia |].
      exists (attempt :: done), rest. split; [cbn; rewrite Htodo; reflexivity |].
      split; [rewrite Hs', Hs, <- app_assoc; reflexivity |].
      split; [intros [F | F]; [congruence | exact (Hnot F)] |].
      unfold loop_post in *.
      destruct (fst (BaseAgent.invoke_loop fuel llm max_retries todo s1)) as [c | e |];
        rewrite <- Hq, <- He; exact Hpost.
    + destruct H as (Ha & Hi & Hlast & Hq & He & Hs). cbn [fst snd List.length].
      split; [lia |]. split; [lia |].
      exists [], (attempt :: todo). cbn [app map]. rewrite app_nil_r.
      repeat split; auto. right. exists todo. subst attempt. split; [reflexivity | exact He].
    + destruct H as (Ha & Hi & Hq & He & Hs). cbn [fst snd List.length].
      split; [lia |]. split; [lia |].
      exists [], (attempt :: todo). cbn [app map]. rewrite app_nil_r.
      repeat split; auto. discriminate.
Qed.

Lemma range_length (n : Z) : List.length (BaseAgent.range n) = Z.to_nat n.
Proof. unfold BaseAgent.range. rewrite length_map, length_seq. reflexivity. Qed.

Lemma firstn_seq_le (a k n : nat) :
  (k <= n)%nat -> firstn k (seq a n) = seq a k.
Proof.
  intros H. replace n with (k + (n - k))%nat by lia.
  rewrite seq_app, firstn_app, length_seq, Nat.sub_diag, firstn_O, app_nil_r.
  apply firstn_all2. rewrite length_seq. lia.
Qed.

Lemma range_prefix (n : Z) (done rest : list Z) :
  BaseAgent.range n = (done ++ rest)%list ->
  done = BaseAgent.range (Z.of_nat (List.length done)).
Proof.
  unfold BaseAgent.range. rewrite Nat2Z.id. intros H.
  assert (L : (List.length done <= Z.to_nat n)%nat).
  { apply (f_equal (@List.length Z)) in H.
    rewrite length_map, length_seq, length_app in H. lia. }
  apply (f_equal (firstn (List.length done))) in H.
  rewrite firstn_app, firstn_all, Nat.sub_diag, firstn_O, app_nil_r in H.
  rewrite <- H at 1. rewrite firstn_map, firstn_seq_le by lia. reflexivity.
Qed.

Lemma range_last (n : Z) (done rest : list Z) :
  BaseAgent.range n = (done ++ (n - 1) :: rest)%list ->
  Z.of_nat (List.length done) = n - 1.
Proof.
  intros H. pose proof H as H'. apply range_prefix in H'.
  assert (E : nth (List.length done) (BaseAgent.range n) (-1) = n - 1).
  { rewrite H. rewrite app_nth2 by lia. rewrite Nat.sub_diag. reflexivity. }
  assert (L : (List.length done < Z.to_nat n)%nat).
  { apply (f_equal (@List.length Z)) in H.
    rewrite range_length, length_app in H. cbn in H. lia. }
  unfold BaseAgent.range in E.
  rewrite (nth_indep _ (-1) (Z.of_nat 0)) in E by (rewrite length_map, length_seq; lia).
  rewrite map_nth in E. rewrite seq_nth in E by lia. lia.
Qed.

(** X9. Attempts and backoff.  [invoke_llm] asks the limiter and the model at
    most [max_retries] times each.  Between attempts it sleeps 1, 2, 4,
    ... seconds: the sleeps are [2^0 .. 2^(j-1)] for the [j] attempts that
    failed before the function was left, with no sleep after the last
    attempt; when all attempts failed, [j = max_retries - 1]. *)
Theorem invoke_llm_attempts_and_backoff (fuel : nat) (llm : Z -> BaseAgent.LLMCall)
  (max_retries : Z) (s : Timed BaseAgent.t) :
  let r := BaseAgent.invoke_llm fuel llm max_retries s in
  let before := BaseAgent.trace (snd s) in
  let after := BaseAgent.trace (snd (snd r)) in
  (acquires after <= acquires before + Z.to_nat max_retries)%nat /\
  (invokes after <= invokes before + Z.to_nat max_retries)%nat /\
  exists j : Z,
    0 <= j <= Z.max 0 (max_retries - 1) /\
    sleeps after = (sleeps before ++ map backoff (BaseAgent.range j))%list /\
    (forall e, fst r = Exn e -> 1 <= max_retries -> j = max_retries - 1).
Proof.
  cbv zeta. unfold BaseAgent.invoke_llm.
  destruct (invoke_loop_summary fuel llm max_retries (BaseAgent.range max_retries) s)
    as (Ha & Hi & done & rest & Htodo & Hs & Hnot & Hpost).
  cbv zeta in Ha, Hi, Hs, Hpost. rewrite range_length in Ha, Hi.
  split; [exact Ha |]. split; [exact Hi |].
  exists (Z.of_nat (List.length done)).
  pose proof (range_prefix _ _ _ Htodo) as Hd.
  assert (L : (List.length done + List.length rest = Z.to_nat max_retries)%nat).
  { apply (f_equal (@List.length Z)) in Htodo.
    rewrite range_length, length_app in Htodo. lia. }
  split; [| split].
  - unfold loop_post in Hpost.
    destruct (fst (BaseAgent.invoke_loop fuel llm max_retries
                     (BaseAgent.range max_retries) s)) as [c | e |].
    + destruct Hpost as (Hne & _). destruct rest; [congruence |]. cbn in L. lia.
    + destruct Hpost as (_ & [(-> & _) | (rest' & -> & _)]).
      * destruct (Z.le_gt_cases max_retries 0) as [Hm | Hm].
        -- cbn in L. lia.
        -- exfalso. apply Hnot. rewrite app_nil_r in Htodo. rewrite <- Htodo.
           unfold BaseAgent.range. apply in_map_iff.
           exists (Z.to_nat (max_retries - 1)). split; [lia |].
           apply in_seq. lia.
      * cbn in L. lia.
    + destruct Hpost as (Hne & _). destruct rest; [congruence |]. cbn in L. lia.
  - rewrite <- Hd. exact Hs.
  - intros e He Hm. unfold loop_post in Hpost. rewrite He in Hpost.
    destruct Hpost as (_ & [(-> & _) | (rest' & -> & _)]).
    + exfalso. apply Hnot. rewrite app_nil_r in Htodo. rewrite <- Htodo.
      unfold BaseAgent.range. apply in_map_iff.
      exists (Z.to_nat (max_retries - 1)). split; [lia |].
      apply in_seq. lia.
    + apply range_last in Htodo. exact Htodo.
Qed.

(** X10. Bookkeeping.  A call that returns has counted exactly one request
    and recorded no error; a call that raises after at least one attempt
    has counted none and has appended exactly one error record, which
    describes the exception raised and carries the time of the raise.
    With [max_retries <= 0] nothing is attempted: the call raises
    [RuntimeError "Failed after N attempts"] and the agent is untouched. *)
Theorem invoke_llm_bookkeeping (fuel : nat) (llm : Z -> BaseAgent.LLMCall)
  (max_retries : Z) (s : Timed BaseAgent.t) :
  let r := BaseAgent.invoke_llm fuel llm max_retries s in
  let a := snd s in
  let a1 := snd (snd r) in
  (forall c, fst r = Ret c ->
     1 <= max_retries /\
     BaseAgent.total_requests a1 = BaseAgent.total_requests a + 1 /\
     BaseAgent.errors a1 = BaseAgent.errors a) /\
  (forall e, fst r = Exn e -> 1 <= max_retries ->
     BaseAgent.total_requests a1 = BaseAgent.total_requests a /\
     BaseAgent.errors a1 =
       (BaseAgent.errors a ++
        [BaseAgent.mk_error (fst (snd r)) (exn_str e) (exn_type_name e)])%list) /\
  (max_retries <= 0 ->
     r = (Exn (RuntimeError (BaseAgent.failed_after max_retries)), s)).
Proof.
  cbv zeta. unfold BaseAgent.invoke_llm.
  destruct (invoke_loop_summary fuel llm max_retries (BaseAgent.range max_retries) s)
    as (_ & _ & done & rest & Htodo & _ & Hnot & Hpost).
  cbv zeta in Hpost. unfold loop_post in Hpost.
  assert (L : (List.length done + List.length rest = Z.to_nat max_retries)%nat).
  { apply (f_equal (@List.length Z)) in Htodo.
    rewrite range_length, length_app in Htodo. lia. }
  split; [| split].
  - intros c Hc. rewrite Hc in Hpost. destruct Hpost as (Hne & Hq & He).
    split; [| split; assumption]. destruct rest; [congruence |]. cbn in L. lia.
  - intros e He Hm. rewrite He in Hpost.
    destruct Hpost as (Hq & [(-> & _) | (rest' & -> & Herr)]).
    + exfalso. apply Hnot. rewrite app_nil_r in Htodo. rewrite <- Htodo.
      unfold BaseAgent.range. apply in_map_iff.
      exists (Z.to_nat (max_retries - 1)). split; [lia |].
      apply in_seq. lia.
    + split; assumption.
  - intros Hm. unfold BaseAgent.range.
    replace (Z.to_nat max_retries) with 0%nat by lia. reflexivity.
Qed.

(** *** The slot is given back *)

Lemma slot_loop_state (fuel : nat) (timeout : option Q) (start : Q) :
  forall (s s1 : Timed RateLimiter.t) (r : Res bool),
    RateLimiter.slot_loop fuel timeout start s = (r, s1) ->
    snd s1 =
    match r with
    | Ret true =>
        RateLimiter.set_active_requests (RateLimiter.active_requests (snd s) + 1) (snd s)
    | _ => snd s
    end.
Proof.
  induction fuel as [| fuel IH]; intros s s1 r; simpl.
  - intros H. injection H as <- <-. reflexivity.
  - unfold bind at 1, get.
    destruct (RateLimiter.active_requests (snd s) <? RateLimiter.max_concurrent (snd s)).
    + cbn. intros H. injection H as <- <-. reflexivity.
    + unfold bind at 1, time_time.
      destruct (timed_out timeout _).
      * cbn. intros H. injection H as <- <-. reflexivity.
      * unfold bind at 1, time_sleep.
        destruct (Qlt_bool _ _).
        -- intros H. injection H as <- <-. reflexivity.
        -- intros H. apply IH in H. exact H.
Qed.

(** The counter after [acquire], however the call ends. *)
Lemma acquire_counter_any (fuel : nat) (n : Z) (timeout : option Q)
  (s : Timed RateLimiter.t) :
  let r := RateLimiter.acquire fuel n timeout s in
  let a := RateLimiter.active_requests (snd s) in
  let a' := RateLimiter.active_requests (snd (snd r)) in
  RateLimiter.max_concurrent (snd (snd r)) = RateLimiter.max_concurrent (snd s) /\
  match fst r with
  | Ret ok => a' = a + (if ok then 1 else 0)
  | _ => a <= a' <= a + 1
  end.
Proof.
  cbv zeta.
  destruct (RateLimiter.acquire fuel n timeout s) as [r s'] eqn:E. cbn [fst snd].
  destruct r as [ok | e |].
  { destruct (acquire_result _ _ _ _ _ _ E) as (_ & M & A & _). split; assumption. }
  all: revert E; unfold RateLimiter.acquire;
    unfold bind at 1, time_time at 1; unfold bind at 1;
    destruct (RateLimiter.slot_loop fuel timeout (fst s) s) as [[claimed | e1 |] s1]
      eqn:E1;
    pose proof (slot_loop_state _ _ _ _ _ _ E1) as R1;
    try discriminate;
    try (intros H; inversion H; subst; rewrite R1; split; [reflexivity | lia]).
  all: destruct claimed; cbn [negb]; try discriminate;
    unfold bind at 1;
    destruct (RateLimiter.on_request_bucket _ s1) as [[ra | e2 |] s2] eqn:E2;
    apply on_request_bucket_result in E2; destruct E2 as (t2 & _ & ->);
    try discriminate;
    try (intros H; inversion H; subst; cbn; rewrite R1; cbn;
         split; [reflexivity | lia]).
  all: unfold bind at 1;
    destruct (RateLimiter.on_token_bucket _ _) as [[ta | e3 |] s3] eqn:E3;
    apply on_token_bucket_result in E3; destruct E3 as (t3 & _ & ->);
    try discriminate;
    try (intros H; inversion H; subst; cbn; rewrite R1; cbn;
         split; [reflexivity | lia]).
  all: destruct (ra && ta); cbn; discriminate.
Qed.

Definition slot_given_back (a : Z) (s1 : Timed BaseAgent.t) : Prop :=
  0 <= RateLimiter.active_requests (BaseAgent.rate_limiter (snd s1)) <= a.

Lemma attempt_gives_slot_back (fuel : nat) (call : BaseAgent.LLMCall)
  (max_retries attempt : Z) (s : Timed BaseAgent.t) :
  0 <= RateLimiter.active_requests (BaseAgent.rate_limiter (snd s)) ->
  let r := try_except
             (c <- BaseAgent.attempt_body fuel call ;; ret (Some c))%monad
             (BaseAgent.attempt_handler max_retries attempt) s in
  fst r <> Spin ->
  slot_given_back (RateLimiter.active_requests (BaseAgent.rate_limiter (snd s))) (snd r).
Proof.
  intros H0. cbv zeta.
  pose proof (acquire_counter_any fuel RateLimiter.default_estimated_tokens
                RateLimiter.default_timeout
                (fst s, BaseAgent.rate_limiter (snd s))) as C.
  cbv zeta in C. cbn [fst snd] in C. revert C.
  unfold slot_given_back.
  unfold try_except, BaseAgent.attempt_body, BaseAgent.rate_limiter_acquire,
    BaseAgent.on_rate_limiter, BaseAgent.attempt_handler, BaseAgent.rate_limiter_release,
    BaseAgent.llm_invoke, BaseAgent.sleep, BaseAgent.log, BaseAgent.on_agent,
    BaseAgent.active_now, BaseAgent.on_rate_limiter, RateLimiter.release,
    RateLimiter.on_limiter, time_sleep, time_time, elapse, modify, zoom, bind, ret, raise.
  rewrite !backoff_length_ok.
  destruct (RateLimiter.acquire fuel _ _ _) as [[granted | e |] s1]; cbn.
  - destruct granted; cbn.
    + destruct (BaseAgent.outcome call) as [resp | msg]; cbn.
      * intros [_ C] _. lia.
      * destruct (attempt =? max_retries - 1); cbn; intros [_ C] _; lia.
    + destruct (attempt =? max_retries - 1); cbn; intros [_ C] _; lia.
  - destruct (attempt =? max_retries - 1); cbn; intros [_ C] _; lia.
  - intros _ F. congruence.
Qed.

(** X11. No leak: when [invoke_llm] returns or raises, the counter of
    requests in flight is not above what it was at the call, however the
    attempts went; a limiter that was idle is idle again. *)
Theorem invoke_llm_gives_the_slot_back (fuel : nat) (llm : Z -> BaseAgent.LLMCall)
  (max_retries : Z) (s : Timed BaseAgent.t) :
  0 <= RateLimiter.active_requests (BaseAgent.rate_limiter (snd s)) ->
  let r := BaseAgent.invoke_llm fuel llm max_retries s in
  fst r <> Spin ->
  0 <= RateLimiter.active_requests (BaseAgent.rate_limiter (snd (snd r)))
    <= RateLimiter.active_requests (BaseAgent.rate_limiter (snd s)).
Proof.
  cbv zeta. unfold BaseAgent.invoke_llm.
  generalize (BaseAgent.range max_retries) as todo. intros todo. revert s.
  induction todo as [| attempt todo IH]; intros s H0; cbn [BaseAgent.invoke_loop].
  - cbn. lia.
  - pose proof (attempt_gives_slot_back fuel (llm attempt) max_retries attempt s H0) as H.
    cbv zeta in H. unfold bind in *. unfold slot_given_back in H.
    destruct (try_except _ _ s) as [[[c |] | e |] s1]; cbn [fst snd] in *.
    + intros _. apply H. discriminate.
    + intros Hr. assert (H1 : 0 <= RateLimiter.active_requests
                                     (BaseAgent.rate_limiter (snd s1)) <=
                               RateLimiter.active_requests
                                     (BaseAgent.rate_limiter (snd s)))
        by (apply H; discriminate).
      specialize (IH s1 (proj1 H1) Hr). lia.
    + intros _. apply H. discriminate.
    + intros F. congruence.
Qed.

Lemma invoke_llm_gives_the_slot_back_witness :
  let r := BaseAgent.invoke_llm 400 answering 3 spent_agent in
  0 <= RateLimiter.active_requests (BaseAgent.rate_limiter (snd (snd r)))
    <= RateLimiter.active_requests (BaseAgent.rate_limiter (snd spent_agent)).
Proof.
  apply (invoke_llm_gives_the_slot_back 400 answering 3 spent_agent).
  - vm_compute. discriminate.
  - vm_compute. discriminate.
Defined.

(** ** The control loop: what a run does to the state *)

Local Open Scope Z_scope.
Local Open Scope string_scope.

(** The name an agent signs its updates with. *)
Definition node_name (n : Node) : string :=
  match n with
  | researcher => ResearcherAgent.name
  | content_creator => ContentCreatorAgent.name
  | reviewer => ReviewerAgent.name
  | END => ""
  end.

(** One run of an agent node. *)
Lemma worker_step (w : World) (n : Node) (st : AgentState.t) :
  n <> END ->
  let st' := merge st (WorkflowBuilder.node w n st) in
  AgentState.task st' = AgentState.task st /\
  AgentState.user_context st' = AgentState.user_context st /\
  AgentState.next_agent st' = AgentState.next_agent st /\
  AgentState.iteration_count st' = AgentState.iteration_count st /\
  AgentState.workflow_status st' = AgentState.workflow_status st /\
  AgentState.warnings st' = AgentState.warnings st /\
  AgentState.current_agent st' = node_name n /\
  ((exists text,
      AgentState.messages st' =
        (AgentState.messages st ++
         [mk_message (node_name n) "supervisor" text result_msg])%list /\
      AgentState.errors st' = AgentState.errors st) \/
   (exists text,
      AgentState.messages st' = AgentState.messages st /\
      AgentState.errors st' = (AgentState.errors st ++ [text])%list)).
Proof.
  intros Hn. cbv zeta.
  destruct n; try congruence;
    unfold WorkflowBuilder.node, WorkflowBuilder._researcher_node,
      WorkflowBuilder._content_creator_node, WorkflowBuilder._reviewer_node,
      ResearcherAgent.execute, ContentCreatorAgent.execute, ReviewerAgent.execute.
  - destruct (do_research w _); destruct st; cbn; repeat split; eauto.
  - destruct (_generate_content w _ _ _ _); destruct st; cbn; repeat split; eauto.
  - destruct (ReviewerAgent._perform_review _ _ _ _) as [ro | msg];
      [destruct (decision_eqb (decision ro) approve) |]; destruct st; cbn;
      repeat split; eauto.
Qed.

(** X12. An agent node writes its own outputs only: the task, the routing
    fields ([next_agent], [iteration_count], [workflow_status]) and the
    warnings are left alone, [current_agent] becomes the agent's name, and
    the run leaves exactly one trace: a result message to the supervisor
    when it succeeded, an error entry when it failed, never both. *)
Theorem agent_nodes_leave_routing_fields_alone (w : World) (n : Node)
  (st : AgentState.t) :
  n <> END ->
  let st' := merge st (WorkflowBuilder.node w n st) in
  AgentState.task st' = AgentState.task st /\
  AgentState.user_context st' = AgentState.user_context st /\
  AgentState.next_agent st' = AgentState.next_agent st /\
  AgentState.iteration_count st' = AgentState.iteration_count st /\
  AgentState.workflow_status st' = AgentState.workflow_status st /\
  AgentState.warnings st' = AgentState.warnings st /\
  AgentState.current_agent st' = node_name n /\
  ((exists text,
      AgentState.messages st' =
        (AgentState.messages st ++
         [mk_message (node_name n) "supervisor" text result_msg])%list /\
      AgentState.errors st' = AgentState.errors st) \/
   (exists text,
      AgentState.messages st' = AgentState.messages st /\
      AgentState.errors st' = (AgentState.errors st ++ [text])%list)).
Proof. exact (worker_step w n st). Qed.

Lemma agent_nodes_leave_routing_fields_alone_witness :
  let w := failing_world always_researcher in
  let st := create_initial_state "History of tea" [] in
  let st' := merge st (WorkflowBuilder.node w reviewer st) in
  AgentState.task st' = AgentState.task st /\
  AgentState.user_context st' = AgentState.user_context st /\
  AgentState.next_agent st' = AgentState.next_agent st /\
  AgentState.iteration_count st' = AgentState.iteration_count st /\
  AgentState.workflow_status st' = AgentState.workflow_status st /\
  AgentState.warnings st' = AgentState.warnings st /\
  AgentState.current_agent st' = node_name reviewer /\
  ((exists text,
      AgentState.messages st' =
        (AgentState.messages st ++
         [mk_message (node_name reviewer) "supervisor" text result_msg])%list /\
      AgentState.errors st' = AgentState.errors st) \/
   (exists text,
      AgentState.messages st' = AgentState.messages st /\
      AgentState.errors st' = (AgentState.errors st ++ [text])%list)).
Proof.
  apply (agent_nodes_leave_routing_fields_alone (failing_world always_researcher)
           reviewer (create_initial_state "History of tea" [])).
  discriminate.
Defined.

(** One visit of the supervisor node: it is forced to finish, or it
    routes. *)
Lemma supervisor_step (w : World) (st : AgentState.t) :
  let st1 := merge st (WorkflowBuilder._supervisor_node w st) in
  let d := SupervisorAgent._make_routing_decision (max_iterations w) (routing_llm w) st in
  AgentState.task st1 = AgentState.task st /\
  AgentState.revision_count st1 = AgentState.revision_count st /\
  AgentState.review_decision st1 = AgentState.review_decision st /\
  AgentState.content_draft st1 = AgentState.content_draft st /\
  AgentState.errors st1 = AgentState.errors st /\
  ((AgentState.next_agent st1 = "finish" /\
    AgentState.workflow_status st1 = completed /\
    AgentState.messages st1 = AgentState.messages st /\
    AgentState.iteration_count st <= AgentState.iteration_count st1
      <= AgentState.iteration_count st + 1 /\
    (AgentState.warnings st1 = AgentState.warnings st \/
     AgentState.warnings st1 =
       (AgentState.warnings st ++ ["Max iterations reached"])%list) /\
    (max_iterations w <= AgentState.iteration_count st \/
     SupervisorAgent.should_finish (max_iterations w) st = true)) \/
   (AgentState.iteration_count st < max_iterations w /\
    SupervisorAgent.should_finish (max_iterations w) st = false /\
    AgentState.next_agent st1 = d_next_agent d /\
    AgentState.workflow_status st1 = AgentState.workflow_status st /\
    AgentState.final_output st1 = AgentState.final_output st /\
    AgentState.warnings st1 = AgentState.warnings st /\
    AgentState.iteration_count st1 = AgentState.iteration_count st + 1 /\
    AgentState.messages st1 =
      (AgentState.messages st ++
       [mk_message SupervisorAgent.name (d_next_agent d) (instructions d) task_msg])%list)).
Proof.
  cbv zeta. unfold WorkflowBuilder._supervisor_node, SupervisorAgent.execute.
  destruct (max_iterations w <=? AgentState.iteration_count st)%Z eqn:G.
  - apply Z.leb_le in G. destruct st; cbn in *. repeat split; auto.
    left. repeat split; auto; try lia.
  - apply Z.leb_gt in G.
    destruct (SupervisorAgent.should_finish (max_iterations w) st) eqn:Hsf.
    + destruct (nonempty (AgentState.content_draft st) &&
                negb (nonempty (AgentState.final_output st)));
        destruct st; cbn in *; repeat split; auto; left; repeat split; auto; try lia.
    + destruct st; cbn in *. repeat split; auto. right. repeat split; auto.
Qed.

(** Induction over a run: [R st st' k] holds of every run from [st] that
    ends in [st'] after [k] agents. *)
Lemma run_induction (w : World) (R : AgentState.t -> AgentState.t -> nat -> Prop) :
  (forall st,
     let st1 := merge st (WorkflowBuilder._supervisor_node w st) in
     WorkflowBuilder._route_from_supervisor st1 = END -> R st st1 0%nat) ->
  (forall st st' k,
     let st1 := merge st (WorkflowBuilder._supervisor_node w st) in
     let n := WorkflowBuilder._route_from_supervisor st1 in
     n <> END ->
     R (merge st1 (WorkflowBuilder.node w n st1)) st' k ->
     R st st' (S k)) ->
  forall fuel st st' ns,
    WorkflowBuilder.run w fuel st = Some (st', ns) ->
    R st st' (List.length ns).
Proof.
  intros Hend Hstep. induction fuel as [| fuel IH]; intros st st' ns; cbn [WorkflowBuilder.run].
  - discriminate.
  - specialize (Hend st). specialize (Hstep st). cbv zeta in Hend, Hstep.
    set (st1 := merge st (WorkflowBuilder._supervisor_node w st)) in *.
    destruct (WorkflowBuilder._route_from_supervisor st1) eqn:Rt.
    4: { intros H. injection H as <- <-. apply Hend. reflexivity. }
    all: match goal with
         | |- context [WorkflowBuilder.run ?w0 ?f ?s2] =>
             destruct (WorkflowBuilder.run w0 f s2) as [[st2 ns2] |] eqn:Hrun;
             [| discriminate];
             intros H; injection H as <- <-; cbn [List.length];
             apply Hstep; [discriminate | apply (IH _ _ _ Hrun)]
         end.
Qed.

Lemma worker_revision (w : World) (n : Node) (st : AgentState.t) :
  let st' := merge st (WorkflowBuilder.node w n st) in
  AgentState.revision_count st' = AgentState.revision_count st \/
  (n = reviewer /\
   AgentState.review_decision st' = request_revision /\
   AgentState.revision_count st' = AgentState.revision_count st + 1).
Proof.
  cbv zeta.
  destruct n;
    unfold WorkflowBuilder.node, WorkflowBuilder._researcher_node,
      WorkflowBuilder._content_creator_node, WorkflowBuilder._reviewer_node,
      ResearcherAgent.execute, ContentCreatorAgent.execute, ReviewerAgent.execute.
  - destruct (do_research w _); destruct st; cbn; auto.
  - destruct (_generate_content w _ _ _ _); destruct st; cbn; auto.
  - destruct (ReviewerAgent._perform_review _ _ _ _) as [ro | msg].
    + destruct (decision ro) eqn:D; destruct st; cbn; rewrite ?D; cbn; auto.
      * left. lia.
      * left. lia.
    + destruct st; cbn; auto.
  - destruct st; cbn; auto.
Qed.

(** X13. The histories are append-only over a whole run: whatever the router
    and the agents do, the messages, errors and warnings at the end start
    with those at the beginning, and the task is the one given. *)
Theorem run_histories_are_append_only (w : World) (fuel : nat)
  (st st' : AgentState.t) (ns : list Node) :
  WorkflowBuilder.run w fuel st = Some (st', ns) ->
  AgentState.task st' = AgentState.task st /\
  (exists ms, AgentState.messages st' = (AgentState.messages st ++ ms)%list) /\
  (exists es, AgentState.errors st' = (AgentState.errors st ++ es)%list) /\
  (exists ws, AgentState.warnings st' = (AgentState.warnings st ++ ws)%list).
Proof.
  intros H.
  apply (run_induction w
           (fun st st' _ =>
              AgentState.task st' = AgentState.task st /\
              (exists ms, AgentState.messages st' = (AgentState.messages st ++ ms)%list) /\
              (exists es, AgentState.errors st' = (AgentState.errors st ++ es)%list) /\
              (exists ws, AgentState.warnings st' = (AgentState.warnings st ++ ws)%list))
           ) with (fuel := fuel) (ns := ns); [| | exact H].
  - intros s0 s1 _. subst s1.
    destruct (supervisor_step w s0) as (Ht & _ & _ & _ & He & Hc). cbv zeta in *.
    split; [exact Ht |]. split; [| split].
    + destruct Hc as [(_ & _ & Hm & _) | (_ & _ & _ & _ & _ & _ & _ & Hm)];
        rewrite Hm; [exists []; now rewrite app_nil_r | eauto].
    + exists []. now rewrite app_nil_r.
    + destruct Hc as [(_ & _ & _ & _ & [Hw | Hw] & _) | (_ & _ & _ & _ & _ & Hw & _)];
        rewrite Hw; eauto; exists []; now rewrite app_nil_r.
  - intros s0 s' k s1 n Hn (IHt & (ms & IHm) & (es & IHe) & (ws & IHw)).
    destruct (supervisor_step w s0) as (Ht & _ & _ & _ & He & Hc). cbv zeta in *.
    fold s1 in Ht, He, Hc.
    assert (Hr : WorkflowBuilder._route_from_supervisor s1 <> END) by exact Hn.
    destruct Hc as [(Hf & _) | (_ & _ & _ & _ & _ & Hw & _ & Hm)].
    { exfalso. apply Hr. apply route_finish. exact Hf. }
    destruct (worker_step w n s1 Hn) as (Wt & _ & _ & _ & _ & Ww & _ & Wc).
    cbv zeta in *.
    split; [congruence |]. split; [| split].
    + destruct Wc as [(text & Wm & _) | (text & Wm & _)];
        rewrite IHm, Wm, Hm, <- ?app_assoc; eauto.
    + destruct Wc as [(text & _ & We) | (text & _ & We)];
        rewrite IHe, We, He, <- ?app_assoc; eauto.
    + rewrite IHw, Ww, Hw. eauto.
Qed.

Lemma run_histories_are_append_only_witness :
  let st := create_initial_state "History of tea" [] in
  let r := WorkflowBuilder.run (failing_world always_drafter) 6 st in
  let st' := match r with Some (s, _) => s | None => st end in
  AgentState.task st' = AgentState.task st /\
  (exists ms, AgentState.messages st' = (AgentState.messages st ++ ms)%list) /\
  (exists es, AgentState.errors st' = (AgentState.errors st ++ es)%list) /\
  (exists ws, AgentState.warnings st' = (AgentState.warnings st ++ ws)%list).
Proof.
  apply (run_histories_are_append_only (failing_world always_drafter) 6
           (create_initial_state "History of tea" []) _
           (repeat content_creator 5)).
  vm_compute. reflexivity.
Defined.

(** X14. Book-keeping of a run that dispatched [n] agents: [iteration_count]
    has grown by [n] or [n + 1] (one per routing decision), messages and
    errors together have grown by [2n] or [2n + 1] entries (one per
    routing decision, one per agent run), and at most [n] of them are
    errors. *)
Theorem run_bookkeeping (w : World) (fuel : nat) (st st' : AgentState.t)
  (ns : list Node) :
  WorkflowBuilder.run w fuel st = Some (st', ns) ->
  let n := Z.of_nat (List.length ns) in
  let grown := len (AgentState.messages st') + len (AgentState.errors st')
               - (len (AgentState.messages st) + len (AgentState.errors st)) in
  AgentState.iteration_count st + n <= AgentState.iteration_count st'
    <= AgentState.iteration_count st + n + 1 /\
  2 * n <= grown <= 2 * n + 1 /\
  len (AgentState.errors st) <= len (AgentState.errors st')
    <= len (AgentState.errors st) + n.
Proof.
  intros H. cbv zeta.
  apply (run_induction w
           (fun st st' k =>
              let n := Z.of_nat k in
              let grown := len (AgentState.messages st') + len (AgentState.errors st')
                           - (len (AgentState.messages st) + len (AgentState.errors st)) in
              AgentState.iteration_count st + n <= AgentState.iteration_count st'
                <= AgentState.iteration_count st + n + 1 /\
              2 * n <= grown <= 2 * n + 1 /\
              len (AgentState.errors st) <= len (AgentState.errors st')
                <= len (AgentState.errors st) + n))
    with (fuel := fuel) (ns := ns); [| | exact H].
  - intros s0 s1 _. subst s1. cbv zeta.
    destruct (supervisor_step w s0) as (_ & _ & _ & _ & He & Hc). cbv zeta in *.
    rewrite He.
    destruct Hc as [(_ & _ & Hm & Hi & _) | (_ & _ & _ & _ & _ & _ & Hi & Hm)];
      rewrite Hm; unfold len; rewrite ?length_app; cbn [List.length]; lia.
  - intros s0 s' k s1 n Hn. cbv zeta. intros IH.
    destruct (supervisor_step w s0) as (_ & _ & _ & _ & He & Hc). cbv zeta in *.
    fold s1 in He, Hc.
    assert (Hr : WorkflowBuilder._route_from_supervisor s1 <> END) by exact Hn.
    destruct Hc as [(Hf & _) | (_ & _ & _ & _ & _ & _ & Hi & Hm)].
    { exfalso. apply Hr. apply route_finish. exact Hf. }
    destruct (worker_step w n s1 Hn) as (_ & _ & _ & Wi & _ & _ & _ & Wc).
    cbv zeta in *. rewrite Wi, Hi in IH.
    destruct Wc as [(text & Wm & We) | (text & Wm & We)];
      rewrite Wm, We, Hm, He in IH; unfold len in *;
      rewrite ?length_app in IH; cbn [List.length] in IH; lia.
Qed.

Lemma run_bookkeeping_witness :
  let st := create_initial_state "History of tea" [] in
  let r := WorkflowBuilder.run (failing_world always_drafter) 6 st in
  let st' := match r with Some (s, _) => s | None => st end in
  let n := Z.of_nat (List.length (repeat content_creator 5)) in
  let grown := len (AgentState.messages st') + len (AgentState.errors st')
               - (len (AgentState.messages st) + len (AgentState.errors st)) in
  AgentState.iteration_count st + n <= AgentState.iteration_count st'
    <= AgentState.iteration_count st + n + 1 /\
  2 * n <= grown <= 2 * n + 1 /\
  len (AgentState.errors st) <= len (AgentState.errors st')
    <= len (AgentState.errors st) + n.
Proof.
  apply (run_bookkeeping (failing_world always_drafter) 6
           (create_initial_state "History of tea" []) _
           (repeat content_creator 5)).
  vm_compute. reflexivity.
Defined.

(** X15. At most three revisions: whatever the router answers, a run never
    takes [revision_count] above [3] (or above the value it started
    with). *)
Theorem run_keeps_revisions_bounded (w : World) (fuel : nat)
  (st st' : AgentState.t) (ns : list Node) :
  WorkflowBuilder.run w fuel st = Some (st', ns) ->
  AgentState.revision_count st' <= Z.max max_revisions (AgentState.revision_count st).
Proof.
  intros H.
  apply (run_induction w
           (fun st st' _ =>
              AgentState.revision_count st' <=
              Z.max max_revisions (AgentState.revision_count st)))
    with (fuel := fuel) (ns := ns); [| | exact H].
  - intros s0 s1 _. subst s1.
    destruct (supervisor_step w s0) as (_ & Hrc & _). cbv zeta in *. lia.
  - intros s0 s' k s1 n Hn IH.
    destruct (supervisor_step w s0) as (_ & Hrc & _ & _ & _ & Hc). cbv zeta in *.
    fold s1 in Hrc, Hc.
    assert (Hr : WorkflowBuilder._route_from_supervisor s1 <> END) by exact Hn.
    destruct Hc as [(Hf & _) | (_ & Hsf & _)].
    { exfalso. apply Hr. apply route_finish. exact Hf. }
    unfold SupervisorAgent.should_finish in Hsf.
    apply orb_false_iff in Hsf. destruct Hsf as [Hsf _].
    apply orb_false_iff in Hsf. destruct Hsf as [_ Hsf].
    apply Z.leb_gt in Hsf.
    destruct (worker_revision w n s1) as [Wr | (_ & _ & Wr)]; cbv zeta in *;
      rewrite Wr in IH; lia.
Qed.

Lemma run_keeps_revisions_bounded_witness :
  let st := create_initial_state "History of tea" [] in
  let r := WorkflowBuilder.run (failing_world always_drafter) 6 st in
  let st' := match r with Some (s, _) => s | None => st end in
  AgentState.revision_count st' <= Z.max max_revisions (AgentState.revision_count st).
Proof.
  apply (run_keeps_revisions_bounded (failing_world always_drafter) 6
           (create_initial_state "History of tea" []) _
           (repeat content_creator 5)).
  vm_compute. reflexivity.
Defined.

(** *** A finish chosen by the router *)

(** X16. When it is the router (the model, or the fallback rules) that
    answers [finish], or any name that is not one of the three agents,
    such as [human_review], the run ends at once but nothing marks it as
    finished: [workflow_status] stays what it was and no final output is
    taken from the draft.  Only the forced finish writes [completed]. *)
Theorem finish_chosen_by_router_is_not_completed (w : World) (fuel : nat)
  (st : AgentState.t) :
  AgentState.iteration_count st < max_iterations w ->
  SupervisorAgent.should_finish (max_iterations w) st = false ->
  let d := SupervisorAgent._make_routing_decision (max_iterations w) (routing_llm w) st in
  d_next_agent d <> "researcher" ->
  d_next_agent d <> "content_creator" ->
  d_next_agent d <> "reviewer" ->
  exists st1,
    WorkflowBuilder.run w (S fuel) st = Some (st1, []) /\
    AgentState.next_agent st1 = d_next_agent d /\
    AgentState.workflow_status st1 = AgentState.workflow_status st /\
    AgentState.final_output st1 = AgentState.final_output st /\
    AgentState.iteration_count st1 = AgentState.iteration_count st + 1.
Proof.
  intros Hlt Hsf d H1 H2 H3.
  destruct (supervisor_step w st) as (_ & _ & _ & _ & _ & Hc). cbv zeta in Hc.
  destruct Hc as [(_ & _ & _ & _ & _ & [Hge | Hsf']) | (_ & _ & Hn & Hs & Hf & _ & Hi & _)];
    [lia | congruence |].
  fold d in Hn.
  exists (merge st (WorkflowBuilder._supervisor_node w st)).
  split; [| repeat split; assumption].
  cbn [WorkflowBuilder.run].
  assert (R : WorkflowBuilder._route_from_supervisor
                (merge st (WorkflowBuilder._supervisor_node w st)) = END).
  { unfold WorkflowBuilder._route_from_supervisor. rewrite Hn.
    apply String.eqb_neq in H1, H2, H3. rewrite H1, H2, H3. reflexivity. }
  rewrite R. reflexivity.
Qed.

Definition asks_for_human_review : AgentState.t -> Outcome DecisionData :=
  fun _ => Returned (mk_decision_data (Some "human_review") None None None).

Lemma finish_chosen_by_router_is_not_completed_witness :
  let w := failing_world asks_for_human_review in
  let st := create_initial_state "History of tea" [] in
  exists st1,
    WorkflowBuilder.run w 1 st = Some (st1, []) /\
    AgentState.next_agent st1 = "human_review" /\
    AgentState.workflow_status st1 = running /\
    AgentState.final_output st1 = "" /\
    AgentState.iteration_count st1 = 0 + 1.
Proof.
  apply (finish_chosen_by_router_is_not_completed
           (failing_world asks_for_human_review) 0
           (create_initial_state "History of tea" [])).
  - cbn. lia.
  - reflexivity.
  - cbn. discriminate.
  - cbn. discriminate.
  - cbn. discriminate.
Defined.

(** *** The reviewer's combined verdict *)

Definition router_down : AgentState.t -> Outcome DecisionData :=
  fun _ => Raised "router unavailable".

Definition working_world : World :=
  mk_world 15 router_down
    (fun _ => Returned (mk_research "Tea was first drunk in China."
                          ["https://example.org/tea"] 0.8%float [] ""))
    (fun _ _ _ _ => Returned (mk_content "A short history of tea." 5 [] 0))
    (fun _ _ => Returned (mk_validation true 1.0%float [] [] []))
    (fun _ _ => Returned (mk_llm_review (Some 9%float) (Some 9%float) (Some 9%float)
                            (Some 9%float) (Some 9%float) (Some []) (Some [])
                            (Some []) (Some "approve")))
    (fun _ => "Approved.")
    (fun _ => "0.98").

(** The review shows at most five issues, the first ones, but the
    verdict is taken on all of them. *)
Lemma combined_review_shape (validation_result : ValidationResult)
  (llm_review : LLMReview) :
  let ro := ReviewerAgent._combine_reviews validation_result llm_review in
  let all_issues :=
    (v_issues validation_result ++ get_or (l_issues llm_review) [])%list in
  issues ro = firstn 5 all_issues /\
  (ReviewerAgent.has_critical all_issues = true -> decision ro = reject).
Proof.
  cbv zeta. unfold ReviewerAgent._combine_reviews. cbn [issues decision]. unfold take.
  split; [reflexivity |].
  intros C. unfold ReviewerAgent._make_decision. rewrite C. reflexivity.
Qed.

(** X17. A critical keyword in any issue, of the validator or of the model
    (of the stand-in review when the model call failed), also in an issue
    beyond the five that the feedback shows, makes the reviewer node
    reject whatever the scores are: the decision written to the state is
    [reject], no revision is counted, no final output is written, and the
    result message is sent as after any other review. *)
Theorem critical_issue_is_rejected_whatever_the_scores (w : World)
  (st : AgentState.t) (validation_result : ValidationResult) :
  validate w (AgentState.content_draft st) (AgentState.research_findings st)
    = Returned validation_result ->
  let llm_review :=
    ReviewerAgent._llm_review (llm_review_call w)
      (AgentState.content_draft st) (AgentState.research_findings st) in
  let all_issues :=
    (v_issues validation_result ++ get_or (l_issues llm_review) [])%list in
  (exists issue kw,
     In issue all_issues /\ In kw ReviewerAgent.critical_keywords /\
     contains kw (lower issue) = true) ->
  let ro := ReviewerAgent._combine_reviews validation_result llm_review in
  let st' := merge st (WorkflowBuilder._reviewer_node w st) in
  AgentState.review_decision st' = reject /\
  AgentState.review_score st' = overall_score ro /\
  AgentState.review_feedback st' = format_feedback w ro /\
  issues ro = firstn 5 all_issues /\
  AgentState.revision_count st' = AgentState.revision_count st /\
  AgentState.final_output st' = AgentState.final_output st /\
  AgentState.errors st' = AgentState.errors st /\
  exists text,
    AgentState.messages st' =
      (AgentState.messages st ++
       [mk_message ReviewerAgent.name "supervisor" text result_msg])%list.
Proof.
  intros Hv llm_review all_issues Hc ro.
  destruct (combined_review_shape validation_result llm_review) as (Hi & Hd).
  cbv zeta in Hi, Hd. fold all_issues in Hi, Hd. fold ro in Hi, Hd.
  assert (D : decision ro = reject).
  { apply Hd. apply has_critical_iff. exact Hc. }
  cbv zeta.
  unfold WorkflowBuilder._reviewer_node, ReviewerAgent.execute,
    ReviewerAgent._perform_review.
  rewrite Hv. fold llm_review. fold ro.
  clearbody ro. clear Hd Hc Hv.
  rewrite D. destruct st. cbn. rewrite Z.add_0_r.
  repeat split; eauto.
Qed.

Definition plagiarism_found : ValidationResult :=
  mk_validation false 0.9%float
    ["Intro is thin"; "No sources"; "Too short"; "No conclusion"; "Long sentences";
     "Possible plagiarism in section 2"]
    [] [].

Lemma critical_issue_is_rejected_whatever_the_scores_witness :
  let w := mk_world 15 router_down (do_research working_world)
             (_generate_content working_world)
             (fun _ _ => Returned plagiarism_found)
             (llm_review_call working_world)
             (format_feedback working_world) (format_2f working_world) in
  let st := merge (create_initial_state "History of tea" [])
              [content_draft_ "A short history of tea."] in
  let llm_review :=
    ReviewerAgent._llm_review (llm_review_call w)
      (AgentState.content_draft st) (AgentState.research_findings st) in
  let all_issues := (v_issues plagiarism_found ++ get_or (l_issues llm_review) [])%list in
  let ro := ReviewerAgent._combine_reviews plagiarism_found llm_review in
  let st' := merge st (WorkflowBuilder._reviewer_node w st) in
  AgentState.review_decision st' = reject /\
  AgentState.review_score st' = overall_score ro /\
  AgentState.review_feedback st' = format_feedback w ro /\
  issues ro = firstn 5 all_issues /\
  AgentState.revision_count st' = AgentState.revision_count st /\
  AgentState.final_output st' = AgentState.final_output st /\
  AgentState.errors st' = AgentState.errors st /\
  exists text,
    AgentState.messages st' =
      (AgentState.messages st ++
       [mk_message ReviewerAgent.name "supervisor" text result_msg])%list.
Proof.
  apply (critical_issue_is_rejected_whatever_the_scores
           (mk_world 15 router_down (do_research working_world)
              (_generate_content working_world)
              (fun _ _ => Returned plagiarism_found)
              (llm_review_call working_world)
              (format_feedback working_world) (format_2f working_world))
           (merge (create_initial_state "History of tea" [])
              [content_draft_ "A short history of tea."])
           plagiarism_found).
  - reflexivity.
  - exists "Possible plagiarism in section 2", "plagiarism".
    split; [cbn; tauto |]. split; [cbn; tauto | reflexivity].
Defined.

(** *** Runs under the fallback rules *)

Lemma fallback_visit (w : World) (st : AgentState.t) :
  (exists msg, routing_llm w st = Raised msg) ->
  AgentState.iteration_count st < max_iterations w ->
  SupervisorAgent.should_finish (max_iterations w) st = false ->
  let d := SupervisorAgent._fallback_decision (max_iterations w) st in
  merge st (WorkflowBuilder._supervisor_node w st) =
  merge st
    [ current_agent_ SupervisorAgent.name;
      next_agent_ (d_next_agent d);
      messages_ [mk_message SupervisorAgent.name (d_next_agent d) (instructions d) task_msg];
      iteration_count_ (AgentState.iteration_count st + 1) ].
Proof.
  intros [msg E] Hlt Hsf. cbv zeta.
  rewrite (supervisor_routes w st Hlt Hsf).
  unfold SupervisorAgent._make_routing_decision. rewrite E. reflexivity.
Qed.

Lemma run_step (w : World) (fuel : nat) (st st1 st2 : AgentState.t) (n : Node) :
  merge st (WorkflowBuilder._supervisor_node w st) = st1 ->
  WorkflowBuilder._route_from_supervisor st1 = n ->
  n <> END ->
  merge st1 (WorkflowBuilder.node w n st1) = st2 ->
  WorkflowBuilder.run w (S fuel) st =
  match WorkflowBuilder.run w fuel st2 with
  | Some (st', ns) => Some (st', n :: ns)
  | None => None
  end.
Proof.
  intros <- <- Hn <-. cbn [WorkflowBuilder.run].
  destruct (WorkflowBuilder._route_from_supervisor _); try reflexivity. congruence.
Qed.

Lemma run_end (w : World) (fuel : nat) (st st1 : AgentState.t) :
  merge st (WorkflowBuilder._supervisor_node w st) = st1 ->
  WorkflowBuilder._route_from_supervisor st1 = END ->
  WorkflowBuilder.run w (S fuel) st = Some (st1, []).
Proof.
  intros <- H. cbn [WorkflowBuilder.run]. rewrite H. reflexivity.
Qed.

(** X18. With the router down and working agents, the fallback rules run the
    pipeline in order: researcher, content creator, reviewer.  When the
    reviewer approves, the fourth visit of the supervisor is a forced
    finish: the run ends [completed] with the approved draft as final
    output, after four routing decisions and without an error. *)
Theorem fallback_pipeline_with_approval (w : World) (task : string)
  (context : list (string * string)) :
  (forall st, exists msg, routing_llm w st = Raised msg) ->
  (forall q, exists r, do_research w q = Returned r /\ nonempty (findings r) = true) ->
  (forall a b c d, exists o,
      _generate_content w a b c d = Returned o /\ nonempty (co_content o) = true) ->
  (forall c r, exists ro,
      ReviewerAgent._perform_review (validate w) (llm_review_call w) c r = Returned ro /\
      decision ro = approve) ->
  4 <= max_iterations w ->
  exists st',
    WorkflowBuilder.run w 4 (create_initial_state task context) =
      Some (st', [researcher; content_creator; reviewer]) /\
    AgentState.workflow_status st' = completed /\
    AgentState.review_decision st' = approve /\
    AgentState.final_output st' = AgentState.content_draft st' /\
    nonempty (AgentState.final_output st') = true /\
    AgentState.iteration_count st' = 4 /\
    AgentState.revision_count st' = 0 /\
    AgentState.errors st' = [] /\
    List.length (AgentState.messages st') = 6%nat.
Proof.
  intros Hrouter Hres Hgen Hrev Hmax.
  assert (L : forall k, k < 4 -> (max_iterations w <=? k)%Z = false)
    by (intros; apply Z.leb_gt; lia).
  destruct (Hres task) as (r & Er & Nr).
  destruct (Hgen (findings r) "blog post" "" false) as (o & Eo & No).
  destruct (Hrev (co_content o) (findings r)) as (ro & Ero & Dro).
  erewrite run_step with (n := researcher);
    [ | rewrite fallback_visit;
        [ unfold SupervisorAgent._fallback_decision; cbn; rewrite !L by lia; cbn;
          reflexivity
        | apply Hrouter | cbn; lia
        | unfold SupervisorAgent.should_finish; cbn; rewrite L by lia; reflexivity ]
      | reflexivity | discriminate
      | unfold WorkflowBuilder.node, WorkflowBuilder._researcher_node,
          ResearcherAgent.execute; cbn; rewrite Er; cbn; reflexivity ].
  erewrite run_step with (n := content_creator);
    [ | rewrite fallback_visit;
        [ unfold SupervisorAgent._fallback_decision; cbn; rewrite !L by lia;
          rewrite ?Nr; cbn; reflexivity
        | apply Hrouter | cbn; lia
        | unfold SupervisorAgent.should_finish; cbn; rewrite L by lia; reflexivity ]
      | reflexivity | discriminate
      | unfold WorkflowBuilder.node, WorkflowBuilder._content_creator_node,
          ContentCreatorAgent.execute; cbn; rewrite Eo; cbn; reflexivity ].
  erewrite run_step with (n := reviewer);
    [ | rewrite fallback_visit;
        [ unfold SupervisorAgent._fallback_decision; cbn; rewrite !L by lia;
          rewrite ?Nr, ?No; cbn; reflexivity
        | apply Hrouter | cbn; lia
        | unfold SupervisorAgent.should_finish; cbn; rewrite L by lia; reflexivity ]
      | reflexivity | discriminate
      | unfold WorkflowBuilder.node, WorkflowBuilder._reviewer_node,
          ReviewerAgent.execute; cbn; rewrite Ero, Dro; cbn; reflexivity ].
  erewrite run_end;
    [ | unfold WorkflowBuilder._supervisor_node, SupervisorAgent.execute,
          SupervisorAgent.should_finish; cbn; rewrite !L by lia;
        rewrite ?Dro, ?No; cbn; reflexivity
      | reflexivity ].
  eexists. split; [reflexivity |]. cbn. repeat split; auto.
Qed.

Lemma fallback_pipeline_with_approval_witness :
  exists st',
    WorkflowBuilder.run working_world 4 (create_initial_state "History of tea" []) =
      Some (st', [researcher; content_creator; reviewer]) /\
    AgentState.workflow_status st' = completed /\
    AgentState.review_decision st' = approve /\
    AgentState.final_output st' = AgentState.content_draft st' /\
    nonempty (AgentState.final_output st') = true /\
    AgentState.iteration_count st' = 4 /\
    AgentState.revision_count st' = 0 /\
    AgentState.errors st' = [] /\
    List.length (AgentState.messages st') = 6%nat.
Proof.
  apply (fallback_pipeline_with_approval working_world "History of tea" []).
  - intros st. eexists. reflexivity.
  - intros q. eexists. split; reflexivity.
  - intros a b c d. eexists. split; reflexivity.
  - intros c r. eexists. split; [reflexivity | vm_compute; reflexivity].
  - cbn. lia.
Defined.

(** A failing search and a failing model never make the research raise:
    both failures are caught where they happen.  Only the local analysis
    can take [execute] to its handler. *)
Lemma research_survives_search_and_model (Findings : Type)
  (web_search_tool : string -> Z -> Outcome string)
  (analyze : string -> string -> Outcome Findings)
  (build : Findings -> Outcome string)
  (synthesis : string -> string -> Findings -> string -> Outcome ResearchOutput)
  (query : string) :
  (forall sr q, exists f, analyze sr q = Returned f) ->
  (forall f, exists c, build f = Returned c) ->
  (exists ro,
     ResearchSteps.do_research Findings web_search_tool analyze build synthesis query
     = Returned ro) /\
  ((forall q c f sr, exists msg, synthesis q c f sr = Raised msg) ->
   exists msg,
     ResearchSteps.do_research Findings web_search_tool analyze build synthesis query
     = Returned (mk_research ("Synthesis failed: " ++ msg) [] 0.0%float [] "")).
Proof.
  intros Han Hbuild.
  unfold ResearchSteps.do_research, ResearchSteps._synthesize_research.
  destruct (Han (ResearchSteps._perform_search web_search_tool query 5) query) as (f & Ef).
  rewrite Ef. destruct (Hbuild f) as (c & Ec). rewrite Ec.
  split; [eexists; reflexivity |].
  intros Hsyn.
  destruct (Hsyn query c f (ResearchSteps._perform_search web_search_tool query 5))
    as (msg & Em).
  rewrite Em. exists msg. reflexivity.
Qed.

(** X19. With everything down (router, search, model, validator) the run
    still goes through the three agents and ends at the fourth visit.
    The researcher does not fail: the failures of the search and of the
    model are caught inside its steps, and the stand-in text
    [Synthesis failed: ...] becomes the findings, with the message of a
    completed research.  The content creator and the reviewer fail and
    write their error texts into draft and feedback, which the fallback
    rules take for outputs.  The run ends with two errors, five
    messages, the decision [reject], no final output and
    [workflow_status] still [running]. *)
Theorem fallback_pipeline_in_total_outage (w : World) (Findings : Type)
  (web_search_tool : string -> Z -> Outcome string)
  (analyze : string -> string -> Outcome Findings)
  (build : Findings -> Outcome string)
  (synthesis : string -> string -> Findings -> string -> Outcome ResearchOutput)
  (task : string) (context : list (string * string)) :
  (forall q,
     do_research w q =
     ResearchSteps.do_research Findings web_search_tool analyze build synthesis q) ->
  (forall st, exists msg, routing_llm w st = Raised msg) ->
  (forall q n, exists msg, web_search_tool q n = Raised msg) ->
  (forall sr q, exists f, analyze sr q = Returned f) ->
  (forall f, exists c, build f = Returned c) ->
  (forall q c f sr, exists msg, synthesis q c f sr = Raised msg) ->
  (forall a b c d, exists msg, _generate_content w a b c d = Raised msg) ->
  (forall c r, exists msg, validate w c r = Raised msg) ->
  4 <= max_iterations w ->
  exists st',
    WorkflowBuilder.run w 4 (create_initial_state task context) =
      Some (st', [researcher; content_creator; reviewer]) /\
    AgentState.workflow_status st' = running /\
    AgentState.next_agent st' = "finish" /\
    AgentState.review_decision st' = reject /\
    AgentState.final_output st' = "" /\
    List.length (AgentState.errors st') = 2%nat /\
    List.length (AgentState.messages st') = 5%nat /\
    (exists msg, AgentState.research_findings st' = "Synthesis failed: " ++ msg) /\
    (exists msg, AgentState.content_draft st' = "Content creation failed: " ++ msg) /\
    (exists msg, AgentState.review_feedback st' = "Review failed: " ++ msg) /\
    AgentState.iteration_count st' = 4.
Proof.
  intros Hdo Hrouter Hsearch Han Hbuild Hsyn Hgen Hval Hmax.
  assert (L : forall k, k < 4 -> (max_iterations w <=? k)%Z = false)
    by (intros; apply Z.leb_gt; lia).
  destruct (research_survives_search_and_model Findings web_search_tool analyze build
              synthesis task Han Hbuild) as (_ & Hstand).
  destruct (Hstand Hsyn) as (m1 & E1). rewrite <- Hdo in E1. clear Hstand.
  destruct (Hgen ("Synthesis failed: " ++ m1) "blog post" "" false) as (m2 & E2).
  destruct (Hval ("Content creation failed: " ++ m2) ("Synthesis failed: " ++ m1))
    as (m3 & E3).
  cbn in E1, E2, E3.
  erewrite run_step with (n := researcher);
    [ | rewrite fallback_visit;
        [ unfold SupervisorAgent._fallback_decision; cbn; rewrite !L by lia; cbn;
          reflexivity
        | apply Hrouter | cbn; lia
        | unfold SupervisorAgent.should_finish; cbn; rewrite L by lia; reflexivity ]
      | reflexivity | discriminate
      | unfold WorkflowBuilder.node, WorkflowBuilder._researcher_node,
          ResearcherAgent.execute; cbn; rewrite E1; cbn; reflexivity ].
  erewrite run_step with (n := content_creator);
    [ | rewrite fallback_visit;
        [ unfold SupervisorAgent._fallback_decision; cbn; rewrite !L by lia;
          cbn; reflexivity
        | apply Hrouter | cbn; lia
        | unfold SupervisorAgent.should_finish; cbn; rewrite L by lia; reflexivity ]
      | reflexivity | discriminate
      | unfold WorkflowBuilder.node, WorkflowBuilder._content_creator_node,
          ContentCreatorAgent.execute; cbn; rewrite E2; cbn; reflexivity ].
  erewrite run_step with (n := reviewer);
    [ | rewrite fallback_visit;
        [ unfold SupervisorAgent._fallback_decision; cbn; rewrite !L by lia;
          cbn; reflexivity
        | apply Hrouter | cbn; lia
        | unfold SupervisorAgent.should_finish; cbn; rewrite L by lia; reflexivity ]
      | reflexivity | discriminate
      | unfold WorkflowBuilder.node, WorkflowBuilder._reviewer_node,
          ReviewerAgent.execute, ReviewerAgent._perform_review;
        cbn [AgentState.content_draft AgentState.research_findings];
        rewrite E3; cbn; reflexivity ].
  erewrite run_end;
    [ | rewrite fallback_visit;
        [ unfold SupervisorAgent._fallback_decision; cbn; rewrite !L by lia;
          cbn; reflexivity
        | apply Hrouter | cbn; lia
        | unfold SupervisorAgent.should_finish; cbn; rewrite L by lia; reflexivity ]
      | reflexivity ].
  eexists. split; [reflexivity |]. cbn. repeat split; eauto.
Qed.

(** Everything is down; the analysis of the text finds nothing. *)
Definition outage_world : World :=
  mk_world 5 router_down
    (ResearchSteps.do_research unit
       (fun _ _ => Raised "search unavailable")
       (fun _ _ => Returned tt)
       (fun _ => Returned "")
       (fun _ _ _ _ => Raised "model unavailable"))
    (fun _ _ _ _ => Raised "model unavailable")
    (fun _ _ => Raised "validator unavailable")
    (fun _ _ => Raised "model unavailable")
    (fun _ => "")
    (fun _ => "0.00").

Lemma fallback_pipeline_in_total_outage_witness :
  exists st',
    WorkflowBuilder.run outage_world 4 (create_initial_state "History of tea" []) =
      Some (st', [researcher; content_creator; reviewer]) /\
    AgentState.workflow_status st' = running /\
    AgentState.next_agent st' = "finish" /\
    AgentState.review_decision st' = reject /\
    AgentState.final_output st' = "" /\
    List.length (AgentState.errors st') = 2%nat /\
    List.length (AgentState.messages st') = 5%nat /\
    (exists msg, AgentState.research_findings st' = "Synthesis failed: " ++ msg) /\
    (exists msg, AgentState.content_draft st' = "Content creation failed: " ++ msg) /\
    (exists msg, AgentState.review_feedback st' = "Review failed: " ++ msg) /\
    AgentState.iteration_count st' = 4.
Proof.
  apply (fallback_pipeline_in_total_outage outage_world unit
           (fun _ _ => Raised "search unavailable")
           (fun _ _ => Returned tt)
           (fun _ => Returned "")
           (fun _ _ _ _ => Raised "model unavailable")
           "History of tea" []).
  - intros q. reflexivity.
  - intros st. eexists. reflexivity.
  - intros q n. eexists. reflexivity.
  - intros sr q. eexists. reflexivity.
  - intros f. eexists. reflexivity.
  - intros q c f sr. eexists. reflexivity.
  - intros a b c d. eexists. reflexivity.
  - intros c r. eexists. reflexivity.
  - cbn. lia.
Defined.

(** ** [MemoryManager]: the sliding window and the summary *)

Local Close Scope string_scope.
Local Open Scope Z_scope.

(** The last [n] elements of a list. *)
Definition window {A : Type} (n : nat) (l : list A) : list A :=
  skipn (List.length l - n) l.

Lemma window_length {A : Type} (n : nat) (l : list A) :
  List.length (window n l) = Nat.min (List.length l) n.
Proof. unfold window. rewrite length_skipn. lia. Qed.

Lemma deque_append_window {A : Type} (n : nat) (x : A) (l : list A) :
  RateLimiter.deque_append n x (window n l) = window n (l ++ [x]).
Proof.
  unfold RateLimiter.deque_append, window.
  rewrite !length_app, length_skipn. cbn [List.length].
  destruct (Nat.le_gt_cases (List.length l) n) as [H | H].
  - replace (List.length l - n)%nat with 0%nat by lia. cbn [skipn].
    f_equal. lia.
  - assert (E : skipn (List.length l - n) l ++ [x] =
                skipn (List.length l - n) (l ++ [x])).
    { rewrite skipn_app.
      replace (List.length l - n - List.length l)%nat with 0%nat by lia.
      reflexivity. }
    rewrite E, skipn_skipn. f_equal. lia.
Qed.

(** All the messages of a list, added one after the other. *)
Definition add_all (msgs : list AgentMessage) (m : MemoryManager.t) : MemoryManager.t :=
  fold_left (fun acc message => MemoryManager.add_message message acc) msgs m.

Lemma add_all_snoc (msgs : list AgentMessage) (x : AgentMessage) (m : MemoryManager.t) :
  add_all (msgs ++ [x]) m = MemoryManager.add_message x (add_all msgs m).
Proof. unfold add_all. rewrite fold_left_app. reflexivity. Qed.

Lemma summarize_frame (m : MemoryManager.t) :
  let m' := MemoryManager._summarize_old_messages m in
  MemoryManager.max_messages m' = MemoryManager.max_messages m /\
  MemoryManager.max_summary_length m' = MemoryManager.max_summary_length m /\
  MemoryManager.message_buffer m' = MemoryManager.message_buffer m /\
  MemoryManager.total_messages m' = MemoryManager.total_messages m /\
  MemoryManager.summarization_count m' =
    MemoryManager.summarization_count m +
    (if len (MemoryManager.message_buffer m) <? 10 then 0 else 1).
Proof.
  cbv zeta. unfold MemoryManager._summarize_old_messages.
  destruct (len (MemoryManager.message_buffer m) <? 10); cbn; repeat split; lia.
Qed.

Lemma add_message_frame (x : AgentMessage) (m : MemoryManager.t) :
  let m' := MemoryManager.add_message x m in
  let buffer :=
    RateLimiter.deque_append (Z.to_nat (MemoryManager.max_messages m)) x
      (MemoryManager.message_buffer m) in
  MemoryManager.max_messages m' = MemoryManager.max_messages m /\
  MemoryManager.max_summary_length m' = MemoryManager.max_summary_length m /\
  MemoryManager.message_buffer m' = buffer /\
  MemoryManager.total_messages m' = MemoryManager.total_messages m + 1 /\
  MemoryManager.summarization_count m' =
    MemoryManager.summarization_count m +
    (if (MemoryManager.max_messages m <=? len buffer) && negb (len buffer <? 10)
     then 1 else 0).
Proof.
  cbv zeta. unfold MemoryManager.add_message.
  cbn [MemoryManager.max_messages MemoryManager.message_buffer].
  destruct (MemoryManager.max_messages m <=? _) eqn:E.
  - match goal with |- context [MemoryManager._summarize_old_messages ?m1] =>
      destruct (summarize_frame m1) as (H1 & H2 & H3 & H4 & H5) end.
    cbv zeta in *. rewrite H1, H2, H3, H4, H5.
    cbn [MemoryManager.max_messages MemoryManager.max_summary_length
         MemoryManager.message_buffer MemoryManager.total_messages
         MemoryManager.summarization_count].
    repeat split.
    destruct (len _ <? 10); reflexivity.
  - cbn. repeat split. lia.
Qed.

(** The manager after [k] messages on a fresh memory. *)
Lemma adds_from_init (max_messages max_summary_length : Z) (m0 : MemoryManager.t)
  (msgs : list AgentMessage) :
  MemoryManager.init max_messages max_summary_length = inr m0 ->
  let m := add_all msgs m0 in
  0 <= max_messages /\
  MemoryManager.max_messages m = max_messages /\
  MemoryManager.max_summary_length m = max_summary_length /\
  MemoryManager.message_buffer m = window (Z.to_nat max_messages) msgs /\
  MemoryManager.total_messages m = len msgs /\
  MemoryManager.summarization_count m =
    (if 10 <=? max_messages then Z.max 0 (len msgs - max_messages + 1) else 0).
Proof.
  unfold MemoryManager.init. destruct (max_messages <? 0) eqn:E; [discriminate |].
  apply Z.ltb_ge in E. intros H. injection H as <-. cbv zeta.
  induction msgs as [| x msgs IH] using rev_ind.
  - cbn. repeat split; auto. destruct (10 <=? max_messages) eqn:E10; [| reflexivity].
    apply Z.leb_le in E10. lia.
  - rewrite add_all_snoc.
    destruct IH as (_ & I1 & I2 & I3 & I4 & I5).
    destruct (add_message_frame x (add_all msgs
                (MemoryManager.mk max_messages max_summary_length [] [] 0 false 0)))
      as (H1 & H2 & H3 & H4 & H5).
    cbv zeta in *. rewrite I1, I3, deque_append_window in H3, H5.
    rewrite H1, H2, H3, H4, H5, I1, I2, I4, I5.
    repeat split; auto.
    + unfold len. rewrite length_app. cbn [List.length]. lia.
    + unfold len. rewrite window_length, length_app. cbn [List.length].
      set (n := Z.of_nat (Nat.min (List.length msgs + 1) (Z.to_nat max_messages))).
      assert (Hn : n = Z.min (Z.of_nat (List.length msgs) + 1) max_messages)
        by (unfold n; lia).
      clearbody n.
      destruct (Z.leb_spec 10 max_messages); destruct (Z.leb_spec max_messages n);
        destruct (Z.ltb_spec n 10); cbn [andb negb]; lia.
Qed.

(** X20. The buffer is a sliding window: after any messages were added to a
    fresh memory, it holds the last [max_messages] of them, in order.
    Summarization never takes a message out of the buffer; the counter of
    processed messages counts every message added.  [clear] gives the
    fresh memory back. *)
Theorem memory_buffer_is_a_sliding_window (max_messages max_summary_length : Z)
  (m0 : MemoryManager.t) (msgs : list AgentMessage) :
  MemoryManager.init max_messages max_summary_length = inr m0 ->
  let m := add_all msgs m0 in
  let stats := MemoryManager.get_statistics m in
  MemoryManager.message_buffer m =
    skipn (List.length msgs - Z.to_nat max_messages) msgs /\
  MemoryManager.current_messages stats = Z.min (len msgs) max_messages /\
  MemoryManager.total_processed stats = len msgs /\
  MemoryManager.stat_max_messages stats = max_messages /\
  MemoryManager.init max_messages max_summary_length = inr (MemoryManager.clear m).
Proof.
  intros H. destruct (adds_from_init _ _ _ msgs H) as (H0 & H1 & H2 & H3 & H4 & _).
  cbv zeta in *. unfold MemoryManager.get_statistics, MemoryManager.clear. cbn.
  rewrite H1, H2, H3, H4. repeat split.
  - unfold len. rewrite window_length. lia.
  - unfold MemoryManager.init.
    destruct (max_messages <? 0) eqn:E; [apply Z.ltb_lt in E; lia | reflexivity].
Qed.

Definition three_messages : list AgentMessage :=
  [ mk_message "supervisor" "researcher" "Research the topic" task_msg;
    mk_message "researcher" "supervisor" "Research completed" result_msg;
    mk_message "supervisor" "content_creator" "Write the draft" task_msg ].

Lemma memory_buffer_is_a_sliding_window_witness :
  let m := add_all three_messages
             (MemoryManager.mk 2 500 [] [] 0 false 0) in
  let stats := MemoryManager.get_statistics m in
  MemoryManager.message_buffer m =
    skipn (List.length three_messages - Z.to_nat 2) three_messages /\
  MemoryManager.current_messages stats = Z.min (len three_messages) 2 /\
  MemoryManager.total_processed stats = len three_messages /\
  MemoryManager.stat_max_messages stats = 2 /\
  MemoryManager.init 2 500 = inr (MemoryManager.clear m).
Proof.
  apply (memory_buffer_is_a_sliding_window 2 500
           (MemoryManager.mk 2 500 [] [] 0 false 0) three_messages).
  reflexivity.
Defined.

(** X21. Summarization starts when the buffer is full and then runs again on
    every message added, each time over the first half of the same
    window: after [k] messages a memory of [max_messages >= 10] has
    summarized [k - max_messages + 1] times.  A memory of fewer than ten
    messages never summarizes: what leaves its window is lost. *)
Theorem memory_summarizes_on_every_add_once_full (max_messages max_summary_length : Z)
  (m0 : MemoryManager.t) (msgs : list AgentMessage) :
  MemoryManager.init max_messages max_summary_length = inr m0 ->
  let m := add_all msgs m0 in
  (10 <= max_messages ->
   MemoryManager.summarization_count m = Z.max 0 (len msgs - max_messages + 1)) /\
  (max_messages < 10 ->
   MemoryManager.summarization_count m = 0 /\
   MemoryManager.summarized_context m = []).
Proof.
  intros H. destruct (adds_from_init _ _ _ msgs H) as (H0 & _ & _ & _ & _ & H5).
  cbv zeta in *. split.
  - intros G. apply Z.leb_le in G. rewrite G in H5. exact H5.
  - intros G. split.
    + apply Z.leb_gt in G. rewrite G in H5. exact H5.
    + clear H5. unfold MemoryManager.init in H.
      destruct (max_messages <? 0); [discriminate |]. injection H as <-.
      induction msgs as [| x msgs IH] using rev_ind; [reflexivity |].
      rewrite add_all_snoc.
      destruct (adds_from_init max_messages max_summary_length
                  (MemoryManager.mk max_messages max_summary_length [] [] 0 false 0)
                  msgs) as (_ & I1 & _ & I3 & _).
      { unfold MemoryManager.init.
        destruct (max_messages <? 0) eqn:E; [apply Z.ltb_lt in E; lia | reflexivity]. }
      cbv zeta in *. unfold MemoryManager.add_message.
      cbn [MemoryManager.max_messages MemoryManager.message_buffer].
      rewrite I1, I3, deque_append_window.
      destruct (max_messages <=? _); [| exact IH].
      unfold MemoryManager._summarize_old_messages.
      cbn [MemoryManager.message_buffer MemoryManager.summarized_context].
      assert (L : (len (window (Z.to_nat max_messages) (msgs ++ [x])) <? 10) = true).
      { apply Z.ltb_lt. unfold len. rewrite window_length. lia. }
      rewrite L. exact IH.
Qed.

Lemma memory_summarizes_on_every_add_once_full_witness :
  let m := add_all three_messages (MemoryManager.mk 2 500 [] [] 0 false 0) in
  (10 <= 2 ->
   MemoryManager.summarization_count m = Z.max 0 (len three_messages - 2 + 1)) /\
  (2 < 10 ->
   MemoryManager.summarization_count m = 0 /\
   MemoryManager.summarized_context m = []).
Proof.
  apply (memory_summarizes_on_every_add_once_full 2 500
           (MemoryManager.mk 2 500 [] [] 0 false 0) three_messages).
  reflexivity.
Defined.

(** *** The length of the summary *)

Lemma slice_last_length {A : Type} (n : Z) (xs : list A) :
  1 <= n -> len (slice_last n xs) <= n.
Proof.
  intros H. unfold slice_last.
  destruct (n =? 0) eqn:E; [apply Z.eqb_eq in E; lia |].
  destruct (0 <? n) eqn:P; [| apply Z.ltb_ge in P; lia].
  unfold len. rewrite length_skipn. lia.
Qed.

Lemma summarize_context (m : MemoryManager.t) :
  let m' := MemoryManager._summarize_old_messages m in
  (1 <= MemoryManager.max_summary_length m ->
   len (MemoryManager.summarized_context m) <= MemoryManager.max_summary_length m ->
   len (MemoryManager.summarized_context m') <= MemoryManager.max_summary_length m) /\
  (MemoryManager.max_summary_length m = 0 ->
   exists more,
     MemoryManager.summarized_context m' =
     (MemoryManager.summarized_context m ++ more)%list).
Proof.
  cbv zeta. unfold MemoryManager._summarize_old_messages.
  destruct (len (MemoryManager.message_buffer m) <? 10).
  { split; [auto | intros _; exists []; now rewrite app_nil_r]. }
  cbn [MemoryManager.summarized_context].
  set (new_summary := join newline _).
  set (context := match MemoryManager.summarized_context m with
                  | [] => new_summary
                  | _ :: _ => _
                  end).
  split.
  - intros H1 _. destruct (MemoryManager.max_summary_length m <? len context) eqn:E.
    + apply slice_last_length. exact H1.
    + apply Z.ltb_ge in E. exact E.
  - intros H0. rewrite H0. unfold slice_last. cbn [Z.eqb].
    assert (P : exists more, context = (MemoryManager.summarized_context m ++ more)%list).
    { unfold context. destruct (MemoryManager.summarized_context m);
        [exists new_summary; reflexivity | eexists; reflexivity]. }
    destruct (0 <? len context); exact P.
Qed.

Lemma add_message_context (x : AgentMessage) (m : MemoryManager.t) :
  let m' := MemoryManager.add_message x m in
  MemoryManager.max_summary_length m' = MemoryManager.max_summary_length m /\
  (1 <= MemoryManager.max_summary_length m ->
   len (MemoryManager.summarized_context m) <= MemoryManager.max_summary_length m ->
   len (MemoryManager.summarized_context m') <= MemoryManager.max_summary_length m) /\
  (MemoryManager.max_summary_length m = 0 ->
   exists more,
     MemoryManager.summarized_context m' =
     (MemoryManager.summarized_context m ++ more)%list).
Proof.
  cbv zeta.
  destruct (add_message_frame x m) as (_ & F2 & _). cbv zeta in F2.
  split; [exact F2 |]. clear F2.
  unfold MemoryManager.add_message.
  cbn [MemoryManager.max_messages MemoryManager.message_buffer].
  destruct (MemoryManager.max_messages m <=? _).
  - match goal with |- context [MemoryManager._summarize_old_messages ?m1] =>
      destruct (summarize_context m1) as (S1 & S0) end.
    cbv zeta in S1, S0.
    cbn [MemoryManager.max_summary_length MemoryManager.summarized_context] in S1, S0.
    split; [exact S1 | exact S0].
  - cbn [MemoryManager.summarized_context].
    split; [intros A B; exact B | intros _; exists []; now rewrite app_nil_r].
Qed.

(** X22. With [max_summary_length >= 1] the summary never exceeds it, however
    many messages are added.  With [max_summary_length = 0] the trimming
    slice [s[-0:]] is the whole string: the summary is never shortened
    and only grows. *)
Theorem memory_summary_length (msgs : list AgentMessage) (m : MemoryManager.t) :
  let m' := add_all msgs m in
  (1 <= MemoryManager.max_summary_length m ->
   len (MemoryManager.summarized_context m) <= MemoryManager.max_summary_length m ->
   MemoryManager.summary_length (MemoryManager.get_statistics m')
     <= MemoryManager.max_summary_length m) /\
  (MemoryManager.max_summary_length m = 0 ->
   exists more,
     MemoryManager.summarized_context m' =
     (MemoryManager.summarized_context m ++ more)%list).
Proof.
  cbv zeta. unfold MemoryManager.get_statistics. cbn [MemoryManager.summary_length].
  revert m. induction msgs as [| x msgs IH]; intros m.
  - cbn. split; [auto | intros _; exists []; now rewrite app_nil_r].
  - change (add_all (x :: msgs) m) with (add_all msgs (MemoryManager.add_message x m)).
    destruct (add_message_context x m) as (F & A1 & A0). cbv zeta in F, A1, A0.
    destruct (IH (MemoryManager.add_message x m)) as (I1 & I0).
    rewrite F in I1, I0. split.
    + intros H1 H2. apply I1; [exact H1 | apply A1; assumption].
    + intros H0. destruct (A0 H0) as (more1 & E1). destruct (I0 H0) as (more2 & E2).
      exists (more1 ++ more2)%list. rewrite E2, E1, app_assoc. reflexivity.
Qed.

(** *** Reading the memory *)

Lemma slice_last_all {A : Type} (n : Z) (xs : list A) :
  len xs <= n -> slice_last n xs = xs.
Proof.
  intros H. unfold slice_last. destruct (n =? 0); [reflexivity |].
  destruct (0 <? n) eqn:P.
  - unfold len in H. replace (List.length xs - Z.to_nat n)%nat with 0%nat by lia.
    reflexivity.
  - apply Z.ltb_ge in P. unfold len in H. assert (n = 0) by lia. subst n. reflexivity.
Qed.

Lemma slice_last_suffix {A : Type} (n : Z) (xs : list A) :
  exists older, xs = (older ++ slice_last n xs)%list.
Proof.
  unfold slice_last. destruct (n =? 0); [exists []; reflexivity |].
  destruct (0 <? n);
    eexists; symmetry; apply firstn_skipn.
Qed.

Lemma recent_messages_slice (agent type_filter : option string) (m : MemoryManager.t) :
  exists matching,
    (forall n, MemoryManager.get_recent_messages n agent type_filter m =
               slice_last n matching) /\
    len matching <= len (MemoryManager.message_buffer m).
Proof.
  unfold MemoryManager.get_recent_messages. eexists. split; [intros n; reflexivity |].
  assert (F : forall (f : AgentMessage -> bool) l, len (filter f l) <= len l).
  { intros f l. unfold len. pose proof (filter_length_le f l). lia. }
  destruct agent as [a |]; [destruct (nonempty a) |];
    (destruct type_filter as [ty |]; [destruct (nonempty ty) |]);
    repeat match goal with
           | |- len (filter ?f ?l) <= _ =>
               apply Z.le_trans with (len l); [apply F |]
           end; lia.
Qed.

(** X23. [get_recent_messages]: for [n >= 1] the answer is the last [n]
    matching messages, at most [n] of them; for [n = 0] it is not empty
    but all of them ([messages[-0:]] is the whole list), so that with an
    agent name it is what [get_agent_interactions] returns. *)
Theorem recent_messages_of_zero_are_all (agent type_filter : option string)
  (m : MemoryManager.t) :
  let matching := MemoryManager.get_recent_messages
                    (len (MemoryManager.message_buffer m)) agent type_filter m in
  MemoryManager.get_recent_messages 0 agent type_filter m = matching /\
  (forall name,
     nonempty name = true ->
     MemoryManager.get_recent_messages 0 (Some name) None m =
     MemoryManager.get_agent_interactions name m) /\
  (forall n,
     1 <= n ->
     let recent := MemoryManager.get_recent_messages n agent type_filter m in
     len recent <= n /\
     (len matching <= n -> recent = matching) /\
     exists older, matching = (older ++ recent)%list).
Proof.
  cbv zeta.
  destruct (recent_messages_slice agent type_filter m) as (l2 & E & L).
  rewrite !E. rewrite (slice_last_all _ l2 L).
  split; [reflexivity |]. split.
  - intros name Hn. unfold MemoryManager.get_recent_messages,
      MemoryManager.get_agent_interactions. rewrite Hn. reflexivity.
  - intros n Hn. rewrite E. split; [apply slice_last_length; exact Hn |].
    split; [intros Hl; apply slice_last_all; exact Hl | apply slice_last_suffix].
Qed.

(** X24. [sync_from_state] adds every message of the state on every call, so
    it is not idempotent: after two syncs of the same state (or two calls
    of [get_context_for_agent], which syncs first) the memory has counted
    every message twice and, while they fit, holds each of them twice. *)
Theorem sync_from_state_adds_the_messages_again (state : AgentState.t)
  (m : MemoryManager.t) (agent_name : string) (max_tokens : Z) :
  let msgs := AgentState.messages state in
  let once := StateMemoryAdapter.sync_from_state state m in
  let twice := StateMemoryAdapter.sync_from_state state once in
  snd (StateMemoryAdapter.get_context_for_agent agent_name state max_tokens m) = once /\
  twice = add_all (msgs ++ msgs) m /\
  MemoryManager.total_messages twice = MemoryManager.total_messages m + 2 * len msgs /\
  (forall max_messages max_summary_length,
     MemoryManager.init max_messages max_summary_length = inr m ->
     2 * len msgs <= max_messages ->
     MemoryManager.message_buffer twice = (msgs ++ msgs)%list).
Proof.
  cbv zeta. split; [reflexivity |].
  assert (T : forall l m1, MemoryManager.total_messages (add_all l m1) =
                           MemoryManager.total_messages m1 + len l).
  { induction l as [| x l IH] using rev_ind; intros m1.
    - cbn. lia.
    - rewrite add_all_snoc.
      destruct (add_message_frame x (add_all l m1)) as (_ & _ & _ & H4 & _).
      cbv zeta in H4. rewrite H4, IH. unfold len. rewrite length_app. cbn. lia. }
  assert (E : StateMemoryAdapter.sync_from_state state
                (StateMemoryAdapter.sync_from_state state m) =
              add_all (AgentState.messages state ++ AgentState.messages state) m).
  { unfold StateMemoryAdapter.sync_from_state, add_all. rewrite fold_left_app.
    reflexivity. }
  split; [exact E |]. rewrite E. split.
  - rewrite T. unfold len. rewrite length_app. lia.
  - intros max_messages max_summary_length H Hfit.
    destruct (adds_from_init _ _ _
                (AgentState.messages state ++ AgentState.messages state) H)
      as (_ & _ & _ & H3 & _).
    cbv zeta in H3. rewrite H3. unfold window.
    unfold len in Hfit. rewrite length_app.
    replace (_ - _)%nat with 0%nat by lia. reflexivity.
Qed.

(** *** The order of the conversation history *)

(** The characters the messages take in the history. *)
Definition history_length (msgs : list AgentMessage) : Z :=
  fold_right (fun x acc => len (MemoryManager.message_str x) + acc) 0 msgs.

Lemma history_length_nonneg (msgs : list AgentMessage) : 0 <= history_length msgs.
Proof.
  induction msgs as [| x l IH]; [cbn; lia |].
  cbn [history_length fold_right]. fold (history_length l). unfold len. lia.
Qed.

Lemma history_length_app (l1 l2 : list AgentMessage) :
  history_length (l1 ++ l2) = history_length l1 + history_length l2.
Proof.
  induction l1 as [| x l IH]; [reflexivity |].
  cbn [app history_length fold_right]. fold (history_length (l ++ l2)).
  fold (history_length l). rewrite IH. lia.
Qed.

Lemma history_length_rev (l : list AgentMessage) :
  history_length (rev l) = history_length l.
Proof.
  induction l as [| x l IH]; [reflexivity |].
  cbn [rev]. rewrite history_length_app, IH.
  cbn [history_length fold_right]. fold (history_length l). lia.
Qed.

Lemma history_loop_after_head (budget : Z) (ms : list AgentMessage) :
  forall (h : pystr) (t : list pystr) (cur : Z),
    cur + history_length ms < budget ->
    MemoryManager.history_loop budget (h :: t) cur ms =
    h :: (map MemoryManager.message_str (rev ms) ++ t)%list.
Proof.
  induction ms as [| x ms IH]; intros h t cur H; cbn [MemoryManager.history_loop].
  - reflexivity.
  - cbn [history_length fold_right] in H. fold (history_length ms) in H.
    pose proof (history_length_nonneg ms) as P.
    assert (E : (cur + len (MemoryManager.message_str x) <? budget) = true)
      by (apply Z.ltb_lt; lia).
    rewrite E. cbn [insert1]. rewrite IH by lia.
    cbn [rev]. rewrite map_app, <- app_assoc. reflexivity.
Qed.

(** X25. When everything fits into the budget, a memory with a summary gives
    the summary and then the messages oldest first.  Without a summary,
    [insert(1, ...)] on the empty list puts the most recent message
    first: the history reads newest, then the others oldest first. *)
Theorem conversation_history_order (max_tokens : Z) (m : MemoryManager.t) :
  len (MemoryManager.summarized_context m)
    + history_length (MemoryManager.message_buffer m) < max_tokens * 4 ->
  MemoryManager.history_parts max_tokens m =
    match MemoryManager.summarized_context m with
    | _ :: _ =>
        MemoryManager.summary_part m ::
        map MemoryManager.message_str (MemoryManager.message_buffer m)
    | [] =>
        match rev (MemoryManager.message_buffer m) with
        | [] => []
        | newest :: older =>
            MemoryManager.message_str newest ::
            map MemoryManager.message_str (rev older)
        end
    end.
Proof.
  intros H. unfold MemoryManager.history_parts.
  pose proof (history_length_nonneg (MemoryManager.message_buffer m)) as P.
  destruct (MemoryManager.summarized_context m) as [| c ctx] eqn:C.
  - rewrite <- history_length_rev in H.
    destruct (rev (MemoryManager.message_buffer m)) as [| newest older];
      [reflexivity |].
    cbn [MemoryManager.history_loop].
    cbn [history_length fold_right] in H. fold (history_length older) in H.
    pose proof (history_length_nonneg older) as Q.
    change (len (@nil Z)) with 0 in H.
    assert (E : (0 + len (MemoryManager.message_str newest) <? max_tokens * 4) = true)
      by (apply Z.ltb_lt; lia).
    rewrite E. cbn [insert1]. rewrite history_loop_after_head by lia.
    rewrite app_nil_r. reflexivity.
  - assert (E : (len (c :: ctx) <? max_tokens * 4) = true) by (apply Z.ltb_lt; lia).
    rewrite E. rewrite history_loop_after_head.
    + rewrite rev_involutive, app_nil_r. reflexivity.
    + rewrite history_length_rev. exact H.
Qed.

Lemma conversation_history_order_witness :
  let m := add_all three_messages (MemoryManager.mk 50 500 [] [] 0 false 0) in
  MemoryManager.history_parts 2000 m =
    [ MemoryManager.message_str
        (mk_message "supervisor" "content_creator" "Write the draft" task_msg);
      MemoryManager.message_str
        (mk_message "supervisor" "researcher" "Research the topic" task_msg);
      MemoryManager.message_str
        (mk_message "researcher" "supervisor" "Research completed" result_msg) ].
Proof.
  apply (conversation_history_order 2000
           (add_all three_messages (MemoryManager.mk 50 500 [] [] 0 false 0))).
  vm_compute. reflexivity.
Defined.

(** ** [WebSearchTool]: the cache and the spacing of the calls *)

Local Open Scope Q_scope.

(** Two calls that follow each other are at least [gap] seconds apart. *)
Definition spaced (gap : Q) (calls : list WebSearchTool.ApiCall) : Prop :=
  forall pre c1 c2 post,
    calls = (pre ++ c1 :: c2 :: post)%list ->
    WebSearchTool.at_time c1 + gap <= WebSearchTool.at_time c2.

(** The last call was not made after [last_request_time]. *)
Definition last_call_recorded (a : WebSearchTool.t) : Prop :=
  forall pre c,
    WebSearchTool.calls a = (pre ++ [c])%list ->
    WebSearchTool.at_time c <= WebSearchTool.last_request_time a.

Lemma spaced_snoc (gap : Q) (calls : list WebSearchTool.ApiCall)
  (c : WebSearchTool.ApiCall) :
  spaced gap calls ->
  (forall pre c0, calls = (pre ++ [c0])%list ->
                  WebSearchTool.at_time c0 + gap <= WebSearchTool.at_time c) ->
  spaced gap (calls ++ [c]).
Proof.
  intros Hs Hl pre c1 c2 post E.
  destruct post as [| p post] using rev_ind.
  - change (pre ++ [c1; c2])%list with (pre ++ [c1] ++ [c2])%list in E.
    rewrite app_assoc in E. apply app_inj_tail in E. destruct E as [E <-].
    apply (Hl pre c1 E).
  - clear IHpost.
    change (pre ++ c1 :: c2 :: post ++ [p])%list
      with (pre ++ (c1 :: c2 :: post) ++ [p])%list in E.
    rewrite app_assoc in E. apply app_inj_tail in E. destruct E as [E _].
    apply (Hs pre c1 c2 post E).
Qed.

(** [_enforce_rate_limit] with a positive rate returns, at a time [T]
    that is a full interval after the last request, and records [T]. *)
Lemma enforce_rate_limit_result (s : Timed WebSearchTool.t) :
  (0 < WebSearchTool.rate_limit (snd s))%Z ->
  exists T,
    WebSearchTool._enforce_rate_limit s =
      (Ret tt,
       (T, WebSearchTool.mk (WebSearchTool.cache (snd s)) T
             (WebSearchTool.rate_limit (snd s)) (WebSearchTool.calls (snd s)))) /\
    WebSearchTool.last_request_time (snd s)
      + 60 / inject_Z (WebSearchTool.rate_limit (snd s)) <= T /\
    fst s <= T /\
    (WebSearchTool.last_request_time (snd s)
       + 60 / inject_Z (WebSearchTool.rate_limit (snd s)) <= fst s -> T = fst s).
Proof.
  intros Hr. unfold WebSearchTool._enforce_rate_limit.
  unfold bind at 1, time_time at 1. unfold bind at 1, get at 1. cbn [fst snd].
  assert (E0 : (WebSearchTool.rate_limit (snd s) =? 0)%Z = false)
    by (apply Z.eqb_neq; lia).
  rewrite E0.
  set (gap := 60 / inject_Z (WebSearchTool.rate_limit (snd s))).
  set (since := fst s - WebSearchTool.last_request_time (snd s)).
  unfold bind at 1.
  destruct (Qlt_bool since gap) eqn:E.
  - apply Qlt_bool_iff in E. unfold time_sleep.
    assert (D : Qlt_bool (gap - since) 0 = false)
      by (apply Qlt_bool_false_iff; lra).
    rewrite D. cbn [fst snd].
    exists (later (fst s) (gap - since)). split; [reflexivity |].
    unfold since in *.
    split; [rewrite later_correct; lra |].
    split; [rewrite later_correct; lra |]. intros C. exfalso. lra.
  - apply Qlt_bool_false_iff in E. cbn.
    exists (fst s). split; [reflexivity |].
    unfold since in E. split; [lra |]. split; [lra |]. reflexivity.
Qed.

(** The invariant of the tool between the calls of its user. *)
Definition search_inv (s : Timed WebSearchTool.t) : Prop :=
  WebSearchTool.rate_limit (snd s) = 10%Z /\
  spaced 6 (WebSearchTool.calls (snd s)) /\
  last_call_recorded (snd s) /\
  Forall (fun c => (WebSearchTool.api_max_results c <= 10)%Z)
         (WebSearchTool.calls (snd s)).

Lemma search_inv_search (client : string -> Z -> Q * Outcome (list WebSearchTool.Item))
  (query : string) (num_results : Z) :
  preserves search_inv (WebSearchTool.search client query num_results).
Proof.
  intros s (Hr & Hs & Hl & Hm). unfold WebSearchTool.search.
  unfold bind at 1, get at 1.
  destruct (dict_get _ _) as [results |].
  { cbn. repeat split; assumption. }
  unfold bind at 1.
  destruct (enforce_rate_limit_result s) as (T & E & G & _); [lia |].
  rewrite E. rewrite Hr in G.
  assert (G6 : WebSearchTool.last_request_time (snd s) + 6 <= T).
  { assert (X : 60 / inject_Z 10 == 6) by reflexivity. rewrite X in G. exact G. }
  clear G E.
  unfold bind at 1, time_time at 1. cbn [fst snd].
  unfold bind at 1, WebSearchTool.on_tool at 1, modify at 1. cbn [fst snd].
  unfold bind at 1, elapse at 1, modify at 1. cbn [fst snd].
  set (c := WebSearchTool.mk_api_call T query (Z.min num_results 10)).
  assert (I1 : spaced 6 (WebSearchTool.calls (snd s) ++ [c])).
  { apply spaced_snoc; [exact Hs |]. intros pre c0 E0.
    specialize (Hl pre c0 E0). cbn [c WebSearchTool.at_time]. lra. }
  assert (I2 : forall pre c0,
             (WebSearchTool.calls (snd s) ++ [c])%list = (pre ++ [c0])%list ->
             WebSearchTool.at_time c0 <= T).
  { intros pre c0 E0. apply app_inj_tail in E0. destruct E0 as [_ <-].
    cbn. lra. }
  assert (I3 : Forall (fun c => (WebSearchTool.api_max_results c <= 10)%Z)
                 (WebSearchTool.calls (snd s) ++ [c])).
  { apply Forall_app. split; [exact Hm |]. constructor; [cbn; lia | constructor]. }
  destruct (snd (client query (Z.min num_results 10))) as [items | msg];
    cbn; (split; [exact Hr |]); (split; [exact I1 |]); (split; [exact I2 | exact I3]).
Qed.

Lemma search_inv_op (client : string -> Z -> Q * Outcome (list WebSearchTool.Item))
  (op : SearchOp) :
  preserves search_inv (search_op client op).
Proof.
  destruct op as [query num_results | d]; cbn [search_op].
  - apply preserves_bind; [| intros; apply preserves_ret].
    apply preserves_try_except; [apply search_inv_search | intros; apply preserves_ret].
  - apply preserves_modify. intros s H. exact H.
Qed.

(** X26. However the tool is used (any queries, cached or not, failing or
    not, any work in between), two calls of the search API that follow
    each other start at least six seconds apart, and none asks for more
    than ten results. *)
Theorem search_api_calls_are_six_seconds_apart
  (client : string -> Z -> Q * Outcome (list WebSearchTool.Item))
  (now : Q) (ops : list SearchOp) :
  let tool := snd (snd (run_ops (search_op client) ops (now, WebSearchTool.init))) in
  (forall pre c1 c2 post,
     WebSearchTool.calls tool = (pre ++ c1 :: c2 :: post)%list ->
     WebSearchTool.at_time c1 + 6 <= WebSearchTool.at_time c2) /\
  Forall (fun c => (WebSearchTool.api_max_results c <= 10)%Z)
         (WebSearchTool.calls tool).
Proof.
  cbv zeta.
  assert (H : search_inv
                (snd (run_ops (search_op client) ops (now, WebSearchTool.init)))).
  { apply preserves_run_ops.
    - intros op _. apply search_inv_op.
    - unfold search_inv. cbn. split; [reflexivity |]. split; [| split].
      + intros pre c1 c2 post E. destruct pre; discriminate.
      + intros pre c E. destruct pre; discriminate.
      + constructor. }
  destruct H as (_ & Hs & _ & Hm). split; [exact Hs | exact Hm].
Qed.

(** *** The cache *)

Lemma lookup_store {V : Type} (k : string) (v : V) (c : list (string * V)) :
  dict_get k (dict_set k v c) = Some v.
Proof.
  induction c as [| [k' v'] c IH]; cbn.
  - rewrite String.eqb_refl. reflexivity.
  - destruct (String.eqb k' k) eqn:E; cbn.
    + rewrite String.eqb_refl. reflexivity.
    + rewrite E. exact IH.
Qed.

Lemma search_miss (client : string -> Z -> Q * Outcome (list WebSearchTool.Item))
  (query : string) (num_results : Z) (s : Timed WebSearchTool.t)
  (res : Res (list WebSearchTool.WebSearchResult)) (s' : Timed WebSearchTool.t) :
  dict_get (query ++ ":" ++ str_int num_results)%string
    (WebSearchTool.cache (snd s)) = None ->
  WebSearchTool.search client query num_results s = (res, s') ->
  match res with
  | Ret results =>
      dict_get (query ++ ":" ++ str_int num_results)%string
        (WebSearchTool.cache (snd s')) = Some results /\
      exists items, results = map WebSearchTool.parse_item items
  | Exn e => WebSearchTool.cache (snd s') = WebSearchTool.cache (snd s)
  | Spin => True
  end.
Proof.
  intros H. unfold WebSearchTool.search. unfold bind at 1, get at 1. rewrite H.
  unfold bind at 1. unfold WebSearchTool._enforce_rate_limit.
  unfold bind at 1, time_time at 1. unfold bind at 1, get at 1.
  cbn [fst snd].
  destruct (WebSearchTool.rate_limit (snd s) =? 0)%Z.
  { intros R. injection R as <- <-. reflexivity. }
  unfold bind at 1.
  assert (Tail : forall s1 : Timed WebSearchTool.t,
             WebSearchTool.cache (snd s1) = WebSearchTool.cache (snd s) ->
             (now <- time_time;;
              WebSearchTool.on_tool
                (fun a => WebSearchTool.mk (WebSearchTool.cache a) now
                            (WebSearchTool.rate_limit a) (WebSearchTool.calls a)))%monad s1
             = (Ret tt, (fst s1,
                         WebSearchTool.mk (WebSearchTool.cache (snd s1)) (fst s1)
                           (WebSearchTool.rate_limit (snd s1))
                           (WebSearchTool.calls (snd s1)))))
    by reflexivity.
  destruct (Qlt_bool _ _).
  - unfold time_sleep. destruct (Qlt_bool _ 0).
    { intros R. injection R as <- <-. reflexivity. }
    rewrite Tail by reflexivity.
    cbn [fst snd bind time_time WebSearchTool.on_tool modify elapse].
    destruct (snd (client query (Z.min num_results 10))) as [items | msg];
      cbn; intros R; injection R as <- <-; cbn;
      [split; [apply lookup_store | eauto] | reflexivity].
  - unfold ret at 1. rewrite Tail by reflexivity.
    cbn [fst snd bind time_time WebSearchTool.on_tool modify elapse].
    destruct (snd (client query (Z.min num_results 10))) as [items | msg];
      cbn; intros R; injection R as <- <-; cbn;
      [split; [apply lookup_store | eauto] | reflexivity].
Qed.

Lemma substring_length_le (n : nat) (s : string) :
  (String.length (String.substring 0 n s) <= n)%nat.
Proof.
  revert s. induction n as [| n IH]; intros s.
  - destruct s; cbn; lia.
  - destruct s as [| c s]; cbn; [lia |]. specialize (IH s). lia.
Qed.

(** X27. A search whose key is in the cache answers from it and does nothing
    else: no call, no wait, no time.  A search that went to the API and
    succeeded returns snippets of at most 500 characters and is in the
    cache afterwards, so that the same search again gives the same
    results without a call, whatever the API would answer now.  A search
    that failed caches nothing. *)
Theorem search_cache_behaviour
  (client client' : string -> Z -> Q * Outcome (list WebSearchTool.Item))
  (query : string) (num_results : Z) (s : Timed WebSearchTool.t) :
  let key := (query ++ ":" ++ str_int num_results)%string in
  let r := WebSearchTool.search client query num_results s in
  (forall results,
     dict_get key (WebSearchTool.cache (snd s)) = Some results ->
     r = (Ret results, s)) /\
  (forall results,
     dict_get key (WebSearchTool.cache (snd s)) = None ->
     fst r = Ret results ->
     Forall (fun x => (String.length (WebSearchTool.snippet x) <= 500)%nat) results /\
     WebSearchTool.search client' query num_results (snd r) = (Ret results, snd r)) /\
  (forall e,
     fst r = Exn e ->
     WebSearchTool.cache (snd (snd r)) = WebSearchTool.cache (snd s)).
Proof.
  cbv zeta.
  assert (Hit : forall cl (s1 : Timed WebSearchTool.t) results,
             dict_get (query ++ ":" ++ str_int num_results)%string
               (WebSearchTool.cache (snd s1)) = Some results ->
             WebSearchTool.search cl query num_results s1 = (Ret results, s1)).
  { intros cl s1 results H1. unfold WebSearchTool.search. unfold bind at 1, get at 1.
    rewrite H1. reflexivity. }
  split; [| split].
  - intros results H. apply Hit. exact H.
  - intros results H.
    destruct (WebSearchTool.search client query num_results s) as [res s'] eqn:R.
    cbn [fst snd]. intros ->.
    destruct (search_miss client query num_results s _ _ H R) as (G & items & ->).
    split; [| apply Hit; exact G].
    apply Forall_forall. intros x Hx. apply in_map_iff in Hx.
    destruct Hx as (item & <- & _). cbn [WebSearchTool.parse_item WebSearchTool.snippet].
    apply substring_length_le.
  - intros e.
    destruct (dict_get (query ++ ":" ++ str_int num_results)%string
                (WebSearchTool.cache (snd s))) as [results |] eqn:H.
    + rewrite (Hit client s results H). discriminate.
    + destruct (WebSearchTool.search client query num_results s) as [res s'] eqn:R.
      cbn [fst snd]. intros ->.
      exact (search_miss client query num_results s _ _ H R).
Qed.

(** ** A truthy timeout bounds the wait *)

Local Open Scope Q_scope.

(** One round of [wait_for_tokens] under a positive timeout [t]. *)
Lemma wait_round (n : Z) (t start : Q) (s : Timed TokenBucket.t) :
  0 < t ->
  (0 <= n)%Z ->
  bucket_inv s ->
  (exists s', fst s' = fst s /\
     forall fuel, TokenBucket.wait_loop (S fuel) n (Some t) start s = (Ret true, s')) \/
  (exists s', fst s' = fst s /\
     forall fuel, TokenBucket.wait_loop (S fuel) n (Some t) start s = (Ret false, s')) \/
  (exists s', fst s' = fst s /\
     forall fuel, TokenBucket.wait_loop (S fuel) n (Some t) start s
                  = (Exn ZeroDivisionError, s')) \/
  (exists d s2,
     (forall fuel, TokenBucket.wait_loop (S fuel) n (Some t) start s
                   = TokenBucket.wait_loop fuel n (Some t) start s2) /\
     fst s - start <= t /\
     0 < d <= 1 # 10 /\
     fst s2 == fst s + d /\
     bucket_inv s2 /\
     TokenBucket.capacity (snd s2) = TokenBucket.capacity (snd s) /\
     (d == 1 # 10 \/
      ((n <= TokenBucket.capacity (snd s))%Z ->
       Qle_bool (inject_Z n)
         (TokenBucket.tokens (TokenBucket._refill (fst s2) (snd s2))) = true))).
Proof.
  intros Ht Hn HI.
  set (b := TokenBucket._refill (fst s) (snd s)).
  destruct (Qle_bool (inject_Z n) (TokenBucket.tokens b)) eqn:C.
  { left. eexists. split; [| intros fuel; cbn [TokenBucket.wait_loop];
      unfold bind at 1, TokenBucket.consume; fold b; rewrite C; reflexivity].
    reflexivity. }
  right.
  assert (R1 : forall fuel,
             TokenBucket.wait_loop (S fuel) n (Some t) start s =
             (if timed_out (Some t) (fst s - start) then ret false
              else (TokenBucket.wait_step n ;;
                    TokenBucket.wait_loop fuel n (Some t) start)%monad) (fst s, b)).
  { intros fuel. cbn [TokenBucket.wait_loop].
    unfold bind at 1, TokenBucket.consume. fold b. rewrite C. reflexivity. }
  destruct (timed_out (Some t) (fst s - start)) eqn:TO.
  { left. exists (fst s, b). split; [reflexivity |]. intros fuel. rewrite R1.
    reflexivity. }
  right.
  assert (Hle : fst s - start <= t).
  { unfold timed_out, truthy in TO.
    assert (T0 : Qeq_bool t 0 = false).
    { destruct (Qeq_bool t 0) eqn:E0; [| reflexivity].
      apply Qeq_bool_eq in E0. lra. }
    rewrite T0 in TO. cbn [negb andb] in TO. apply Qlt_bool_false_iff in TO. exact TO. }
  assert (HI1 : bucket_inv (fst s, b)) by (apply bucket_inv_refill; exact HI).
  set (b' := TokenBucket._refill (fst s) b).
  assert (HI2 : bucket_inv (fst s, b'))
    by (exact (bucket_inv_refill (fst s, b) HI1)).
  assert (Tb : TokenBucket.tokens b' == TokenBucket.tokens b).
  { apply (refill_same_instant (fst s, b)); [reflexivity |].
    exact (refill_never_exceeds_capacity (fst s) (snd s)). }
  apply Qle_bool_false_iff in C.
  destruct (Qeq_bool (TokenBucket.refill_rate b') 0) eqn:Z0.
  { left. exists (fst s, b'). split; [reflexivity |]. intros fuel. rewrite R1.
    unfold bind at 1, TokenBucket.wait_step, TokenBucket.refill, bind, get.
    cbn [fst snd]. fold b'. rewrite Z0. reflexivity. }
  right.
  assert (Hrate : 0 < TokenBucket.refill_rate b').
  { destruct HI2 as (R0 & _). cbn [snd] in R0.
    apply Qeq_bool_neq in Z0.
    destruct (Qlt_le_dec 0 (TokenBucket.refill_rate b')) as [P | P]; [exact P |].
    exfalso. apply Z0. lra. }
  set (deficit := inject_Z n - TokenBucket.tokens b').
  assert (Hdef : 0 < deficit) by (unfold deficit; lra).
  set (d := Qmin (deficit / TokenBucket.refill_rate b') (1 # 10)).
  assert (Hq : 0 < deficit / TokenBucket.refill_rate b').
  { apply Qlt_shift_div_l; [exact Hrate | lra]. }
  assert (Hd : 0 < d <= 1 # 10).
  { unfold d. split; [apply Q.min_glb_lt; [exact Hq | reflexivity] | apply Q.le_min_r]. }
  assert (S1 : Qlt_bool d 0 = false) by (apply Qlt_bool_false_iff; lra).
  assert (W : TokenBucket.wait_step n (fst s, b) = (Ret tt, (later (fst s) d, b'))).
  { unfold TokenBucket.wait_step, TokenBucket.refill, bind, get. cbn [fst snd].
    fold b'. rewrite Z0. fold deficit. fold d. unfold time_sleep. rewrite S1.
    reflexivity. }
  exists d, (later (fst s) d, b').
  split; [intros fuel; rewrite R1; unfold bind at 1; rewrite W; reflexivity |].
  split; [exact Hle |]. split; [exact Hd |].
  split; [cbn [fst]; apply later_correct |].
  split; [apply (bucket_inv_later (fst s, b')); [lra | exact HI2] |].
  split; [reflexivity |].
  destruct (Q.min_spec (deficit / TokenBucket.refill_rate b') (1 # 10))
    as [[Hlt Hmin] | [Hge Hmin]]; fold d in Hmin.
  2:{ left. exact Hmin. }
  right. intros Hcap. apply Qle_bool_iff. cbn [fst snd].
  rewrite refill_tokens.
  change (TokenBucket.last_refill b') with (fst s).
  change (TokenBucket.capacity b') with (TokenBucket.capacity (snd s)).
  assert (A : (later (fst s) d - fst s) * TokenBucket.refill_rate b' == deficit).
  { rewrite later_correct, Hmin. field. lra. }
  rewrite A. unfold deficit.
  assert (B : TokenBucket.tokens b' + (inject_Z n - TokenBucket.tokens b') == inject_Z n)
    by ring.
  rewrite B. apply Q.min_glb; [| lra]. rewrite <- Zle_Qle. exact Hcap.
Qed.

Lemma wait_loop_clock (n : Z) (t start : Q) (fuel : nat) :
  0 < t -> (0 <= n)%Z ->
  forall s,
    bucket_inv s ->
    fst s <= start + t + (1 # 10) ->
    fst s <= fst (snd (TokenBucket.wait_loop fuel n (Some t) start s))
      <= start + t + (1 # 10).
Proof.
  intros Ht Hn. induction fuel as [| fuel IH]; intros s HI Hb.
  - cbn. lra.
  - destruct (wait_round n t start s Ht Hn HI)
      as [(s' & Hc & E) | [(s' & Hc & E) | [(s' & Hc & E) |
          (d & s2 & E & Hle & Hd & Hc & HI2 & _)]]];
      rewrite E; cbn [fst snd]; try (rewrite Hc; lra).
    assert (B2 : fst s2 <= start + t + (1 # 10)) by (rewrite Hc; lra).
    specialize (IH s2 HI2 B2). rewrite Hc in IH. lra.
Qed.

Lemma wait_loop_ends (n : Z) (t start : Q) (k : nat) :
  0 < t -> (0 <= n)%Z ->
  forall fuel s,
    bucket_inv s ->
    (n <= TokenBucket.capacity (snd s))%Z ->
    t - (fst s - start) < inject_Z (Z.of_nat k) / 10 ->
    (k + 2 <= fuel)%nat ->
    fst (TokenBucket.wait_loop fuel n (Some t) start s) <> Spin.
Proof.
  intros Ht Hn. induction k as [| k IH]; intros fuel s HI Hcap Hk Hf;
    (destruct fuel as [| fuel]; [lia |]);
    destruct (wait_round n t start s Ht Hn HI)
      as [(s' & Hc & E) | [(s' & Hc & E) | [(s' & Hc & E) |
          (d & s2 & E & Hle & Hd & Hc & HI2 & Hcap2 & Hnext)]]];
    rewrite E; cbn [fst]; try discriminate.
  - exfalso. change (inject_Z (Z.of_nat 0) / 10) with (0 / 10) in Hk.
    assert (Z0 : 0 / 10 == 0) by reflexivity. rewrite Z0 in Hk. lra.
  - destruct Hnext as [D10 | Hok].
    + apply IH; [exact HI2 | rewrite Hcap2; exact Hcap | | lia].
      rewrite Nat2Z.inj_succ in Hk. unfold Z.succ in Hk.
      rewrite inject_Z_plus in Hk.
      assert (X : (inject_Z (Z.of_nat k) + inject_Z 1) / 10 ==
                  inject_Z (Z.of_nat k) / 10 + (1 # 10)) by (field).
      rewrite X in Hk. rewrite Hc, D10. lra.
    + destruct fuel as [| fuel]; [lia |].
      cbn [TokenBucket.wait_loop]. unfold bind at 1, TokenBucket.consume.
      rewrite (Hok Hcap). cbn. discriminate.
Qed.

(** Rounds that are enough for a wait of [t] seconds. *)
Definition rounds_for (t : Q) : nat := Z.to_nat (10 * Qnum t + 1).

Lemma rounds_for_enough (t : Q) :
  0 < t -> t < inject_Z (Z.of_nat (rounds_for t)) / 10.
Proof.
  intros Ht. unfold rounds_for.
  assert (Ha : (0 < Qnum t)%Z).
  { destruct t as [a b]. unfold Qlt in Ht. cbn in *. lia. }
  rewrite Z2Nat.id by lia.
  assert (Hle : t <= inject_Z (Qnum t)).
  { destruct t as [a b]. unfold Qle. cbn in *. nia. }
  rewrite inject_Z_plus, inject_Z_mult.
  apply Qlt_shift_div_l; [reflexivity |].
  change (inject_Z 10) with 10. change (inject_Z 1) with 1. lra.
Qed.

Lemma wait_for_tokens_bounded (fuel : nat) (n : Z) (t : Q) (s : Timed TokenBucket.t) :
  0 < t -> (0 <= n)%Z ->
  bucket_inv s ->
  (n <= TokenBucket.capacity (snd s))%Z ->
  let r := TokenBucket.wait_for_tokens fuel n (Some t) s in
  fst s <= fst (snd r) <= fst s + t + (1 # 10) /\
  ((rounds_for t + 2 <= fuel)%nat -> fst r <> Spin).
Proof.
  intros Ht Hn HI Hcap. cbv zeta.
  unfold TokenBucket.wait_for_tokens, bind, time_time. cbn [fst snd]. split.
  - apply wait_loop_clock; try assumption. lra.
  - intros Hf. apply (wait_loop_ends n t (fst s) (rounds_for t)); try assumption.
    pose proof (rounds_for_enough t Ht). lra.
Qed.

(** One round of the slot loop under a positive timeout. *)
Lemma slot_round (t start : Q) (s : Timed RateLimiter.t) :
  0 < t ->
  (exists ok s', fst s' = fst s /\
     forall fuel, RateLimiter.slot_loop (S fuel) (Some t) start s = (Ret ok, s')) \/
  (fst s - start <= t /\
   forall fuel, RateLimiter.slot_loop (S fuel) (Some t) start s =
                RateLimiter.slot_loop fuel (Some t) start
                  (later (fst s) (1 # 10), snd s)).
Proof.
  intros Ht.
  destruct (RateLimiter.active_requests (snd s) <? RateLimiter.max_concurrent (snd s))%Z
    eqn:A.
  { left. eexists true, _. split; [| intros fuel; cbn [RateLimiter.slot_loop];
      unfold bind at 1, get at 1; rewrite A; reflexivity]. reflexivity. }
  destruct (timed_out (Some t) (fst s - start)) eqn:TO.
  { left. exists false, s. split; [reflexivity |]. intros fuel.
    cbn [RateLimiter.slot_loop]. unfold bind at 1, get at 1. rewrite A.
    unfold bind at 1, time_time at 1. rewrite TO. reflexivity. }
  right. split.
  - unfold timed_out, truthy in TO.
    assert (T0 : Qeq_bool t 0 = false).
    { destruct (Qeq_bool t 0) eqn:E0; [| reflexivity].
      apply Qeq_bool_eq in E0. lra. }
    rewrite T0 in TO. cbn [negb andb] in TO. apply Qlt_bool_false_iff in TO.
    exact TO.
  - intros fuel. cbn [RateLimiter.slot_loop]. unfold bind at 1, get at 1. rewrite A.
    unfold bind at 1, time_time at 1. rewrite TO. reflexivity.
Qed.

Lemma slot_loop_clock (t start : Q) (fuel : nat) :
  0 < t ->
  forall s : Timed RateLimiter.t,
    fst s <= start + t + (1 # 10) ->
    fst s <= fst (snd (RateLimiter.slot_loop fuel (Some t) start s))
      <= start + t + (1 # 10).
Proof.
  intros Ht. induction fuel as [| fuel IH]; intros s Hb.
  - unfold RateLimiter.slot_loop, spin. cbn [fst snd]. lra.
  - destruct (slot_round t start s Ht) as [(ok & s' & Hc & E) | (Hle & E)];
      rewrite E.
    + cbn [fst snd]. rewrite Hc. lra.
    + assert (L : later (fst s) (1 # 10) == fst s + (1 # 10)) by apply later_correct.
      set (c2 := later (fst s) (1 # 10)) in *.
      assert (B2 : fst (c2, snd s) <= start + t + (1 # 10)) by (cbn [fst]; lra).
      specialize (IH _ B2). cbn [fst] in IH. lra.
Qed.

Lemma slot_loop_ends (t start : Q) (k : nat) :
  0 < t ->
  forall fuel (s : Timed RateLimiter.t),
    t - (fst s - start) < inject_Z (Z.of_nat k) / 10 ->
    (k + 1 <= fuel)%nat ->
    fst (RateLimiter.slot_loop fuel (Some t) start s) <> Spin.
Proof.
  intros Ht. induction k as [| k IH]; intros fuel s Hk Hf;
    (destruct fuel as [| fuel]; [lia |]);
    destruct (slot_round t start s Ht) as [(ok & s' & Hc & E) | (Hle & E)];
    rewrite E; cbn [fst]; try discriminate.
  - exfalso. change (inject_Z (Z.of_nat 0) / 10) with (0 / 10) in Hk.
    assert (Z0 : 0 / 10 == 0) by reflexivity. rewrite Z0 in Hk. lra.
  - apply IH; [| lia].
    rewrite Nat2Z.inj_succ in Hk. unfold Z.succ in Hk.
    rewrite inject_Z_plus in Hk.
    assert (X : (inject_Z (Z.of_nat k) + inject_Z 1) / 10 ==
                inject_Z (Z.of_nat k) / 10 + (1 # 10)) by (field).
    rewrite X in Hk. cbn [fst].
    pose proof (later_correct (fst s) (1 # 10)) as L. lra.
Qed.

Lemma acquire_bounded (cfg : RateLimitConfig.t) (fuel : nat) (n : Z) (t : Q)
  (s s' : Timed RateLimiter.t) (r : Res bool) :
  0 < t ->
  limiter_inv cfg s ->
  (1 <= RateLimitConfig.requests_per_minute cfg)%Z ->
  (0 <= n <= RateLimitConfig.tokens_per_minute cfg)%Z ->
  RateLimiter.acquire fuel n (Some t) s = (r, s') ->
  fst s <= fst s' <= fst s + 3 * t + (3 # 10) /\
  ((rounds_for t + 2 <= fuel)%nat -> r <> Spin).
Proof.
  intros Ht HI Hrpm Hn.
  pose proof (rounds_for_enough t Ht) as HK.
  unfold RateLimiter.acquire. unfold bind at 1, time_time at 1. cbn [fst snd].
  unfold bind at 1.
  (* the slot *)
  pose proof (slot_loop_clock t (fst s) fuel Ht s) as C1.
  pose proof (slot_loop_ends t (fst s) (rounds_for t) Ht fuel s) as T1.
  pose proof (limiter_inv_slot_loop cfg fuel (Some t) (fst s) s HI) as I1.
  destruct (RateLimiter.slot_loop fuel (Some t) (fst s) s) as [r1 s1].
  cbn [fst snd] in C1, T1, I1.
  assert (C1' : fst s <= fst s1 <= fst s + t + (1 # 10)) by (apply C1; lra).
  assert (T1' : (rounds_for t + 2 <= fuel)%nat -> r1 <> Spin)
    by (intros F; apply T1; [lra | lia]).
  clear C1 T1.
  destruct r1 as [claimed | e1 |].
  2:{ intros H. injection H as <- <-. split; [lra | intros; discriminate]. }
  2:{ intros H. injection H as <- <-. split; [lra | exact T1']. }
  destruct claimed; cbn [negb].
  2:{ intros H. injection H as <- <-. split; [lra | intros; discriminate]. }
  (* the call-rate bucket *)
  destruct I1 as (J1 & J2 & J3 & J4 & J5 & J6).
  pose proof (limiter_inv_on_request_bucket cfg
                (TokenBucket.wait_for_tokens fuel 1 (Some t))
                (preserves_wait_for_tokens fuel 1 (Some t) ltac:(lia))
                (fun c0 k => clock_cap_wait_for_tokens c0 k fuel 1 (Some t))
                s1 (conj J1 (conj J2 (conj J3 (conj J4 (conj J5 J6)))))) as I2.
  unfold bind at 1. revert I2.
  unfold RateLimiter.on_request_bucket at 1 2, zoom at 1 2.
  destruct (wait_for_tokens_bounded fuel 1 t (fst s1, RateLimiter.request_bucket (snd s1))
              Ht ltac:(lia) J2 ltac:(cbn [snd]; lia)) as (C2 & T2).
  cbv zeta in C2, T2.
  destruct (TokenBucket.wait_for_tokens fuel 1 (Some t)
              (fst s1, RateLimiter.request_bucket (snd s1))) as [r2 t2].
  cbn [fst snd] in C2, T2. intros I2.
  destruct r2 as [ra | e2 |].
  2:{ intros H. injection H as <- <-. cbn [fst]. split; [lra | intros; discriminate]. }
  2:{ intros H. injection H as <- <-. cbn [fst]. split; [lra | exact T2]. }
  (* the cost bucket *)
  destruct I2 as (K1 & K2 & K3 & K4 & K5 & K6). cbn [fst snd] in K4, K5.
  unfold bind at 1.
  unfold RateLimiter.on_token_bucket at 1, zoom at 1. cbn [fst snd].
  destruct (wait_for_tokens_bounded fuel n t
              (fst t2, RateLimiter.token_bucket
                         (RateLimiter.set_request_bucket (snd t2) (snd s1)))
              Ht ltac:(lia) K4 ltac:(cbn [snd]; lia)) as (C3 & T3).
  cbv zeta in C3, T3.
  destruct (TokenBucket.wait_for_tokens fuel n (Some t) _) as [r3 t3].
  cbn [fst snd] in C3, T3.
  destruct r3 as [ta | e3 |].
  2:{ intros H. injection H as <- <-. cbn [fst]. split; [lra | intros; discriminate]. }
  2:{ intros H. injection H as <- <-. cbn [fst]. split; [lra | exact T3]. }
  destruct (negb (ra && ta)); cbn; intros H; injection H as <- <-; cbn [fst];
    (split; [lra | intros; discriminate]).
Qed.

(** X8. With a positive timeout [acquire] comes back: given enough rounds it
    returns or raises, and never later than [3 * timeout + 0.3] seconds
    after the call.  The timeout bounds each of the three waits (slot,
    call-rate bucket, cost bucket) separately, each with a last sleep of
    at most 0.1 s, not the call as a whole. *)
Theorem acquire_returns_within_three_timeouts (cfg : RateLimitConfig.t) (fuel : nat)
  (n : Z) (t : Q) (s : Timed RateLimiter.t) :
  0 < t ->
  limiter_inv cfg s ->
  (1 <= RateLimitConfig.requests_per_minute cfg)%Z ->
  (0 <= n <= RateLimitConfig.tokens_per_minute cfg)%Z ->
  let r := RateLimiter.acquire fuel n (Some t) s in
  fst s <= fst (snd r) <= fst s + 3 * t + (3 # 10) /\
  ((rounds_for t + 2 <= fuel)%nat -> fst r <> Spin).
Proof.
  intros Ht HI Hrpm Hn. cbv zeta.
  destruct (RateLimiter.acquire fuel n (Some t) s) as [r s'] eqn:E.
  cbn [fst snd]. exact (acquire_bounded cfg fuel n t s s' r Ht HI Hrpm Hn E).
Qed.

Lemma acquire_returns_within_three_timeouts_witness :
  let s := (0, RateLimiter.init (RateLimitConfig.mk 60 1000 5) 0) in
  let r := RateLimiter.acquire 20 1000 (Some (1 # 2)) s in
  fst s <= fst (snd r) <= fst s + 3 * (1 # 2) + (3 # 10) /\
  ((rounds_for (1 # 2) + 2 <= 20)%nat -> fst r <> Spin).
Proof.
  apply (acquire_returns_within_three_timeouts (RateLimitConfig.mk 60 1000 5) 20 1000
           (1 # 2) (0, RateLimiter.init (RateLimitConfig.mk 60 1000 5) 0)).
  - reflexivity.
  - apply limiter_inv_init; cbn; lia.
  - cbn. lia.
  - cbn. lia.
Defined.

(** The bound at work: two requests a minute, sixty cost units a minute,
    both buckets just emptied.  A call with [timeout = 31] waits thirty
    seconds for its request token, then thirty more for its cost units,
    and returns [True] after sixty seconds. *)
Definition drained_limiter : Timed RateLimiter.t :=
  snd (run_ops (limiter_op 10)
         [ OpAcquire 60 (Some 1); OpRelease None; OpAcquire 0 (Some 1); OpRelease None ]
         (0, RateLimiter.init (RateLimitConfig.mk 2 60 5) 0)).

Example acquire_can_outlast_its_timeout :
  let r := RateLimiter.acquire 400 60 (Some 31) drained_limiter in
  fst drained_limiter == 0 /\
  fst r = Ret true /\
  fst (snd r) == 60 /\
  31 < fst (snd r) <= 3 * 31 + (3 # 10).
Proof.
  vm_compute. repeat split; intro; discriminate.
Qed.

(** ** The validators of the settings *)

Local Open Scope Z_scope.
Local Open Scope string_scope.

Lemma endswith_app (suffix s : string) : endswith suffix (s ++ suffix) = true.
Proof.
  induction s as [| c s IH]; cbn [append endswith].
  - destruct suffix; cbn; rewrite ?Ascii.eqb_refl, ?String.eqb_refl; reflexivity.
  - rewrite IH. apply orb_true_r.
Qed.

Lemma prefix_app (p s w : string) :
  String.prefix p s = true -> String.prefix p (s ++ w) = true.
Proof.
  revert s. induction p as [| c p IH]; intros s H.
  - destruct (s ++ w); reflexivity.
  - destruct s as [| c' s]; cbn in *; [discriminate |].
    destruct (ascii_dec c c'); [apply IH; exact H | discriminate].
Qed.

Lemma upper_lower_ascii (c : ascii) : upper_ascii (lower_ascii c) = upper_ascii c.
Proof. destruct c as [[] [] [] [] [] [] [] []]; reflexivity. Qed.

Lemma upper_lower (s : string) : upper (lower s) = upper s.
Proof.
  unfold upper, lower. induction s as [| c s IH]; cbn; [reflexivity |].
  rewrite upper_lower_ascii, IH. reflexivity.
Qed.

Lemma valid_level_is_upper (v : string) :
  existsb (String.eqb v) Settings.valid_levels = true -> upper v = v.
Proof.
  unfold Settings.valid_levels. cbn [existsb]. rewrite !orb_true_iff.
  intros [H | [H | [H | [H | [H | H]]]]]; try discriminate;
    apply String.eqb_eq in H; subst v; reflexivity.
Qed.

(** X28. What the validators accept is normalised, and a normalised value is
    a fixed point: an accepted endpoint starts with [https://], ends with
    [/] (added when missing) and validates to itself; an accepted log
    level is one of the five names in capitals, whatever the case it was
    given in, and validates to itself. *)
Theorem validated_settings_are_fixed_points (v : string) :
  (forall v',
     Settings.validate_endpoint v = inr v' ->
     String.prefix "https://" v' = true /\
     endswith "/" v' = true /\
     (v' = v \/ v' = v ++ "/") /\
     Settings.validate_endpoint v' = inr v') /\
  (String.prefix "https://" v = false ->
   exists msg, Settings.validate_endpoint v = inl (ValueError msg)) /\
  (forall v',
     Settings.validate_log_level v = inr v' ->
     In v' Settings.valid_levels /\
     Settings.validate_log_level v' = inr v' /\
     Settings.validate_log_level (lower v) = inr v' /\
     Settings.validate_log_level (upper v) = inr v').
Proof.
  split; [| split].
  - intros v'. unfold Settings.validate_endpoint.
    destruct (String.prefix "https://" v) eqn:P; cbn [negb]; [| discriminate].
    intros H. injection H as <-.
    destruct (endswith "/" v) eqn:E; cbn [negb].
    + rewrite P, E. cbn. repeat split; auto.
    + rewrite (prefix_app _ _ _ P), (endswith_app "/" v). cbn.
      repeat split; auto.
  - intros P. unfold Settings.validate_endpoint. rewrite P. cbn. eauto.
  - intros v'. unfold Settings.validate_log_level.
    destruct (existsb (String.eqb (upper v)) Settings.valid_levels) eqn:E;
      cbn [negb]; [| discriminate].
    intros H. injection H as <-.
    pose proof (valid_level_is_upper _ E) as U.
    split; [| split; [| split]].
    + apply existsb_exists in E. destruct E as (x & Hin & Hx).
      apply String.eqb_eq in Hx. subst x. exact Hin.
    + rewrite U, E. reflexivity.
    + rewrite upper_lower, E. reflexivity.
    + rewrite U, E. reflexivity.
Qed.

(** ** The metadata of the checkpoints *)

Lemma dict_get_del_same {V : Type} (k : string) (d : list (string * V)) :
  dict_get k (dict_del k d) = None.
Proof.
  unfold dict_del. induction d as [| [k' v] d IH]; cbn; [reflexivity |].
  destruct (String.eqb k' k) eqn:E; cbn; [exact IH | rewrite E; exact IH].
Qed.

Lemma dict_get_del_other {V : Type} (k k2 : string) (d : list (string * V)) :
  k2 <> k -> dict_get k2 (dict_del k d) = dict_get k2 d.
Proof.
  intros H. unfold dict_del. induction d as [| [k' v] d IH]; cbn; [reflexivity |].
  destruct (String.eqb k' k) eqn:E; cbn.
  - apply String.eqb_eq in E. subst k'.
    assert (N : String.eqb k k2 = false) by (apply String.eqb_neq; congruence).
    rewrite N. exact IH.
  - destruct (String.eqb k' k2); [reflexivity | exact IH].
Qed.

Lemma dict_get_set_other {V : Type} (k k2 : string) (v : V) (d : list (string * V)) :
  k2 <> k -> dict_get k2 (dict_set k v d) = dict_get k2 d.
Proof.
  intros H.
  assert (N : String.eqb k k2 = false) by (apply String.eqb_neq; congruence).
  induction d as [| [k' v'] d IH]; cbn.
  - rewrite N. reflexivity.
  - destruct (String.eqb k' k) eqn:E; cbn.
    + apply String.eqb_eq in E. subst k'. rewrite N. reflexivity.
    + destruct (String.eqb k' k2); [reflexivity | exact IH].
Qed.

Lemma dict_set_length {V : Type} (k : string) (v : V) (d : list (string * V)) :
  List.length (dict_set k v d) =
  match dict_get k d with
  | Some _ => List.length d
  | None => S (List.length d)
  end.
Proof.
  induction d as [| [k' v'] d IH]; cbn; [reflexivity |].
  destruct (String.eqb k' k); cbn; [reflexivity |].
  rewrite IH. destruct (dict_get k d); reflexivity.
Qed.

(** X29. [clear_checkpoints] with the empty string as thread id clears every
    checkpoint, as with no id at all.  With any other id it removes that
    thread and nothing else.  [save_checkpoint] keeps one entry per
    thread: saving again replaces the entry and touches no other thread. *)
Theorem clearing_the_empty_thread_id_clears_all {V : Type}
  (c : MemoryCheckpointer.t) (thread_id : string) (state : list (string * V))
  (metadata : option (list (string * string))) :
  MemoryCheckpointer.clear_checkpoints (Some "") c = [] /\
  MemoryCheckpointer.clear_checkpoints None c = [] /\
  (thread_id <> "" ->
   let c' := MemoryCheckpointer.clear_checkpoints (Some thread_id) c in
   dict_get thread_id c' = None /\
   forall other, other <> thread_id -> dict_get other c' = dict_get other c) /\
  (let saved := MemoryCheckpointer.save_checkpoint thread_id state metadata c in
   dict_get thread_id (MemoryCheckpointer.list_checkpoints saved) =
     Some (MemoryCheckpointer.mk_entry (get_or metadata []) (map fst state)) /\
   (forall other, other <> thread_id -> dict_get other saved = dict_get other c) /\
   List.length (MemoryCheckpointer.save_checkpoint thread_id state metadata saved) =
     List.length saved).
Proof.
  split; [reflexivity |]. split; [reflexivity |]. split.
  - intros Hne. cbv zeta. unfold MemoryCheckpointer.clear_checkpoints.
    apply nonempty_true in Hne. rewrite Hne.
    destruct (dict_get thread_id c) eqn:G.
    + split; [apply dict_get_del_same |]. intros other Ho.
      apply dict_get_del_other. exact Ho.
    + split; [exact G | reflexivity].
  - cbv zeta. unfold MemoryCheckpointer.save_checkpoint, MemoryCheckpointer.list_checkpoints.
    split; [apply lookup_store |]. split.
    + intros other Ho. apply dict_get_set_other. exact Ho.
    + rewrite dict_set_length, lookup_store. reflexivity.
Qed.
